(** * openapi-request-validator: a shallow embedding of [index.ts]

    The embedding follows [packages/openapi-request-validator/index.ts]:
    JSON trees for schemas and request parts (objects are association lists,
    because [Object.keys] and [for .. in] visit members in insertion order),
    an error monad for the places where the JavaScript throws, and explicit
    state passing for the local variables of [validate].  The validation
    engine (Ajv), the parameter converter and the content-type parser are
    external collaborators; they enter as the fields of [Engine]. *)

From Stdlib Require Import String Ascii List ZArith Bool Arith Lia.
From Stdlib Require Import DecimalString.
Import ListNotations.
Local Open Scope list_scope.
Local Open Scope string_scope.

(* ===================================================================== *)
(** ** JSON values *)
(* ===================================================================== *)

Unset Elimination Schemes.
Inductive JSON : Type :=
| JNull
| JBool (b : bool)
| JNum (n : Z)
| JStr (s : string)
| JArr (l : list JSON)
| JObj (m : list (string * JSON)).
Set Elimination Schemes.

(** Induction principle that reaches the members of arrays and objects. *)
Definition JSON_ind (P : JSON -> Prop)
  (fnull : P JNull)
  (fbool : forall b, P (JBool b))
  (fnum : forall n, P (JNum n))
  (fstr : forall s, P (JStr s))
  (farr : forall l, Forall P l -> P (JArr l))
  (fobj : forall m, Forall (fun kv => P (snd kv)) m -> P (JObj m))
  : forall j, P j :=
  fix F (j : JSON) : P j :=
    match j with
    | JNull => fnull
    | JBool b => fbool b
    | JNum n => fnum n
    | JStr s => fstr s
    | JArr l =>
        farr l ((fix G (l : list JSON) : Forall P l :=
                   match l with
                   | [] => Forall_nil _
                   | x :: r => Forall_cons x (F x) (G r)
                   end) l)
    | JObj m =>
        fobj m ((fix G (m : list (string * JSON))
                   : Forall (fun kv => P (snd kv)) m :=
                   match m with
                   | [] => Forall_nil _
                   | kv :: r => Forall_cons kv (F (snd kv)) (G r)
                   end) m)
    end.

(** JavaScript truthiness of a JSON value. *)
Definition truthy (j : JSON) : bool :=
  match j with
  | JNull => false
  | JBool b => b
  | JNum n => negb (Z.eqb n 0)
  | JStr s => negb (String.eqb s "")
  | JArr _ => true
  | JObj _ => true
  end.

(** A member or variable that may be [undefined]. *)
Definition truthy_opt (o : option JSON) : bool :=
  match o with
  | Some j => truthy j
  | None => false
  end.

(** [typeof x === 'object' && x !== null] *)
Definition is_object (j : JSON) : bool :=
  match j with
  | JArr _ | JObj _ => true
  | _ => false
  end.

(** Structural equality, used for [===] on primitives and for [enum]. *)
Fixpoint JSON_eqb (a b : JSON) {struct a} : bool :=
  match a, b with
  | JNull, JNull => true
  | JBool x, JBool y => Bool.eqb x y
  | JNum x, JNum y => Z.eqb x y
  | JStr x, JStr y => String.eqb x y
  | JArr x, JArr y =>
      (fix go (x y : list JSON) {struct x} : bool :=
         match x, y with
         | [], [] => true
         | a :: x', b :: y' => JSON_eqb a b && go x' y'
         | _, _ => false
         end) x y
  | JObj x, JObj y =>
      (fix go (x y : list (string * JSON)) {struct x} : bool :=
         match x, y with
         | [], [] => true
         | (k, a) :: x', (k', b) :: y' =>
             String.eqb k k' && JSON_eqb a b && go x' y'
         | _, _ => false
         end) x y
  | _, _ => false
  end.

(* ===================================================================== *)
(** ** Objects as ordered member lists *)
(* ===================================================================== *)

Module Obj.

(** The members of an object in the order in which [Object.keys] and
    [for .. in] enumerate them (insertion order, for names that are not
    array indices).  [V] is [JSON] for JSON objects, [string] for request
    headers. *)
Definition t (V : Type) := list (string * V).

(** [o[k]] *)
Fixpoint get {V : Type} (k : string) (m : t V) : option V :=
  match m with
  | [] => None
  | (k', v) :: r => if String.eqb k k' then Some v else get k r
  end.

(** [k in o] *)
Definition has {V : Type} (k : string) (m : t V) : bool :=
  match get k m with
  | Some _ => true
  | None => false
  end.

(** [o[k] = v]: an existing member keeps its position, a new one is
    appended. *)
Fixpoint set {V : Type} (k : string) (v : V) (m : t V) : t V :=
  match m with
  | [] => [(k, v)]
  | (k', v') :: r =>
      if String.eqb k k' then (k, v) :: r else (k', v') :: set k v r
  end.

(** [delete o[k]] *)
Fixpoint delete {V : Type} (k : string) (m : t V) : t V :=
  match m with
  | [] => []
  | (k', v') :: r =>
      if String.eqb k k' then delete k r else (k', v') :: delete k r
  end.

(** [Object.keys(o)] *)
Definition keys {V : Type} (m : t V) : list string := map fst m.

End Obj.

(* ===================================================================== *)
(** ** Strings *)
(* ===================================================================== *)

Module Str.

(** [s.startsWith(p)], as used by the anchored regular expressions. *)
Fixpoint starts_with (p s : string) : bool :=
  match p, s with
  | EmptyString, _ => true
  | String a p', String b s' => Ascii.eqb a b && starts_with p' s'
  | String _ _, EmptyString => false
  end.

(** The rest of [s] after the prefix [p], when [s] starts with [p]. *)
Fixpoint strip_prefix (p s : string) : option string :=
  match p, s with
  | EmptyString, _ => Some s
  | String a p', String b s' =>
      if Ascii.eqb a b then strip_prefix p' s' else None
  | String _ _, EmptyString => None
  end.

(** [s.replace(/^p/, r)] for a literal prefix [p]. *)
Definition replace_prefix (p r s : string) : string :=
  match strip_prefix p s with
  | Some rest => r ++ rest
  | None => s
  end.

(** [s.replace(/^p\.?/, '')] for a literal prefix [p]. *)
Definition remove_prefix_opt_dot (p s : string) : string :=
  match strip_prefix p s with
  | Some rest =>
      match rest with
      | String "." rest' => rest'
      | _ => rest
      end
  | None => s
  end.

(** [s.indexOf(sub)]; [None] stands for [-1]. *)
Fixpoint indexOf (sub s : string) : option nat :=
  if starts_with sub s then Some 0
  else match s with
       | EmptyString => None
       | String _ s' => option_map S (indexOf sub s')
       end.

(** [s.indexOf(sub) > -1] *)
Definition contains (sub s : string) : bool :=
  match indexOf sub s with
  | Some _ => true
  | None => false
  end.

(** [s.split(c)] for a one-character separator. *)
Fixpoint split (c : ascii) (s : string) : list string :=
  match s with
  | EmptyString => [""]
  | String a s' =>
      if Ascii.eqb a c then "" :: split c s'
      else match split c s' with
           | h :: t => String a h :: t
           | [] => [String a ""]
           end
  end.

(** [toLowerCase] on the ASCII letters; header names are ASCII tokens and
    other bytes are left as they are. *)
Definition lower_ascii (a : ascii) : ascii :=
  let n := nat_of_ascii a in
  if Nat.leb 65 n && Nat.leb n 90 then ascii_of_nat (n + 32) else a.

Fixpoint toLowerCase (s : string) : string :=
  match s with
  | EmptyString => EmptyString
  | String a s' => String (lower_ascii a) (toLowerCase s')
  end.

(** The decimal numeral of an array index, as [Object.keys] gives it. *)
Definition of_nat (n : nat) : string :=
  NilEmpty.string_of_uint (Nat.to_uint n).

End Str.

(* ===================================================================== *)
(** ** Exceptions and the result monad *)
(* ===================================================================== *)

Inductive Exn : Type :=
| TypeError (msg : string)
| SyntaxError (msg : string)
| Error (msg : string).

(** The outcome of running a piece of the program: a value, a thrown
    exception, or a recursion that did not end within the given fuel. *)
Inductive M (A : Type) : Type :=
| Ok (a : A)
| Throw (e : Exn)
| Diverge.

Arguments Ok {A} a.
Arguments Throw {A} e.
Arguments Diverge {A}.

Definition bind {A B : Type} (c : M A) (f : A -> M B) : M B :=
  match c with
  | Ok a => f a
  | Throw e => Throw e
  | Diverge => Diverge
  end.

Declare Scope m_scope.
Delimit Scope m_scope with m.
Notation "x <- c ;; k" := (bind c (fun x => k))
  (at level 61, c at next level, right associativity) : m_scope.
Notation "' p <- c ;; k" := (bind c (fun x => let 'p := x in k))
  (at level 61, p pattern, c at next level, right associativity) : m_scope.
Local Open Scope m_scope.

(** [l.map(f)] when [f] may throw: left to right, stopping at the first
    failure. *)
Fixpoint mapM {A B : Type} (f : A -> M B) (l : list A) : M (list B) :=
  match l with
  | [] => Ok []
  | x :: r =>
      y <- f x ;;
      ys <- mapM f r ;;
      Ok (y :: ys)
  end.

(* ===================================================================== *)
(** ** Engine violations and public errors *)
(* ===================================================================== *)

(** [Ajv.ErrorObject], with the [location] member that [withAddedLocation]
    writes into it.  Of [params] the program reads [missingProperty] and
    [ref]. *)
Record ErrorParams : Type := {
  missingProperty : option string;
  ref : option string
}.

Record ErrorObject : Type := {
  keyword : string;
  dataPath : string;
  e_message : string;
  e_params : ErrorParams;
  e_location : option string
}.

(** [OpenAPIRequestValidatorError]; a member that is [None] is absent. *)
Record OpenAPIRequestValidatorError : Type := {
  path : option string;
  errorCode : option string;
  message : string;
  location : option string;
  schema : option JSON
}.

Definition opt_string_eqb (o : option string) (s : string) : bool :=
  match o with
  | Some x => String.eqb x s
  | None => false
  end.

(** [withAddedLocation(location, errors)] *)
Definition withAddedLocation (loc : string) (errors : list ErrorObject)
  : list ErrorObject :=
  map (fun e => {| keyword := keyword e; dataPath := dataPath e;
                   e_message := e_message e; e_params := e_params e;
                   e_location := Some loc |}) errors.

(** [stripBodyInfo(error)] *)
Definition stripBodyInfo (error : OpenAPIRequestValidatorError)
  : OpenAPIRequestValidatorError :=
  if opt_string_eqb (location error) "body" then
    let path' :=
      match path error with
      | Some p => Some (Str.replace_prefix "body." "" p)
      | None => None
      end in
    let m1 := Str.replace_prefix "instance.body." "instance." (message error) in
    let m2 := Str.replace_prefix "instance.body " "instance " m1 in
    {| path := path'; errorCode := errorCode error; message := m2;
       location := location error; schema := schema error |}
  else error.

(** [toOpenapiValidationError(error)], the default error mapper. *)
Definition toOpenapiValidationError (error : ErrorObject)
  : OpenAPIRequestValidatorError :=
  let path0 := "instance" ++ dataPath error in
  let is_ref := String.eqb (keyword error) "$ref" in
  let errorCode1 :=
    if is_ref then None else Some (keyword error ++ ".openapi.validation") in
  let schema1 :=
    if is_ref then
      Some (JObj match ref (e_params error) with
                 | Some r => [("$ref", JStr r)]
                 | None => []
                 end)
    else None in
  let path1 :=
    match missingProperty (e_params error) with
    | Some mp => if String.eqb mp "" then path0 else path0 ++ "." ++ mp
    | None => path0
    end in
  let path2 :=
    if opt_string_eqb (e_location error) "body"
    then Str.remove_prefix_opt_dot "instance.body" path1
    else Str.remove_prefix_opt_dot "instance" path1 in
  let path3 := if String.eqb path2 "" then None else Some path2 in
  stripBodyInfo
    {| path := path3; errorCode := errorCode1; message := e_message error;
       location := e_location error; schema := schema1 |}.

(** What [validate] puts into [errors]: the default shape, or whatever a
    caller-supplied [errorTransformer] returned. *)
Inductive ReportedError : Type :=
| Plain (e : OpenAPIRequestValidatorError)
| Custom (j : JSON).

Definition ErrorTransformer : Type :=
  OpenAPIRequestValidatorError -> ErrorObject -> JSON.

(** [extendedErrorMapper(mapper)] *)
Definition extendedErrorMapper (mapper : ErrorTransformer)
  : ErrorObject -> ReportedError :=
  fun ajvError => Custom (mapper (toOpenapiValidationError ajvError) ajvError).

Definition defaultErrorMapper : ErrorObject -> ReportedError :=
  fun ajvError => Plain (toOpenapiValidationError ajvError).

(* ===================================================================== *)
(** ** MediaTypeMatcher: [getSchemaForMediaType] *)
(* ===================================================================== *)

Definition subTypeWildCardPoints : nat := 2.
Definition wildcardMatchPoints : nat := 1.

(** The loop variables [match] and [matchPoints]. *)
Record MatchState : Type := {
  matched : option string;
  matchPoints : nat
}.

(** One pass through the loop body either returns from the function or goes
    on to the next key with the loop variables updated. *)
Inductive LoopStep : Type :=
| Return (mediaTypeKey : string)
| Continue (st : MatchState).

Definition opt_eqb (a b : option string) : bool :=
  match a, b with
  | Some x, Some y => String.eqb x y
  | None, None => true
  | _, _ => false
  end.

Definition mediaTypeStep (contentType : string) (st : MatchState)
  (mediaTypeKey : string) : LoopStep :=
  if Str.contains contentType mediaTypeKey then Return mediaTypeKey
  else
    let st1 :=
      if String.eqb mediaTypeKey "*/*"
         && Nat.ltb (matchPoints st) wildcardMatchPoints
      then {| matched := Some mediaTypeKey;
              matchPoints := wildcardMatchPoints |}
      else st in
    let contentTypeParts := Str.split "/" contentType in
    let mediaTypeKeyParts := Str.split "/" mediaTypeKey in
    if negb (opt_string_eqb (nth_error mediaTypeKeyParts 1) "*") then
      Continue st1
    else if opt_eqb (nth_error contentTypeParts 0)
                    (nth_error mediaTypeKeyParts 0)
            && Nat.ltb (matchPoints st1) subTypeWildCardPoints
    then Continue {| matched := Some mediaTypeKey;
                     matchPoints := subTypeWildCardPoints |}
    else Continue st1.

Fixpoint mediaTypeLoop (contentType : string) (keys : list string)
  (st : MatchState) : option string :=
  match keys with
  | [] => matched st
  | mediaTypeKey :: rest =>
      match mediaTypeStep contentType st mediaTypeKey with
      | Return k => Some k
      | Continue st' => mediaTypeLoop contentType rest st'
      end
  end.

(** [getSchemaForMediaType(contentTypeHeader, requestBodySpec, ..)].
    [parse] is [contentTypeParser.parse(..).type]; [keys] are the keys of
    [requestBodySpec.content] in registration order. *)
Definition getSchemaForMediaType (parse : string -> M string)
  (contentTypeHeader : option string) (keys : list string)
  : M (option string) :=
  match contentTypeHeader with
  | None => Ok None
  | Some header =>
      if String.eqb header "" then Ok None
      else
        match parse header with
        | Ok contentType =>
            Ok (mediaTypeLoop contentType keys
                  {| matched := None; matchPoints := 0 |})
        | Throw (TypeError msg) =>
            if String.eqb msg "invalid media type" then Ok None
            else Throw (TypeError msg)
        | Throw e => Throw e
        | Diverge => Diverge
        end
  end.

(* ===================================================================== *)
(** ** Header names *)
(* ===================================================================== *)

(** [lowercaseRequestHeaders(headers)] *)
Definition lowercaseRequestHeaders {V : Type} (headers : Obj.t V) : Obj.t V :=
  fold_left
    (fun lowerCasedHeaders header =>
       match Obj.get header headers with
       | Some v => Obj.set (Str.toLowerCase header) v lowerCasedHeaders
       | None => lowerCasedHeaders
       end)
    (Obj.keys headers) [].

(** The [forEach] of [lowercasedHeaders] over a snapshot of the keys:
    each property is deleted and put back under its lowercased name. *)
Definition relowerProperties (properties : Obj.t JSON) : Obj.t JSON :=
  fold_left
    (fun props header =>
       match Obj.get header props with
       | Some property =>
           Obj.set (Str.toLowerCase header) property (Obj.delete header props)
       | None => props
       end)
    (Obj.keys properties) properties.

Definition lowerRequiredEntry (header : JSON) : M JSON :=
  match header with
  | JStr s => Ok (JStr (Str.toLowerCase s))
  | _ => Throw (TypeError "header.toLowerCase is not a function")
  end.

(** [lowercasedHeaders(headersSchema)] *)
Definition lowercasedHeaders (headersSchema : option JSON) : M (option JSON) :=
  match headersSchema with
  | None => Ok None
  | Some (JObj m) =>
      m1 <- match Obj.get "properties" m with
            | Some (JObj properties) =>
                Ok (Obj.set "properties" (JObj (relowerProperties properties)) m)
            | Some (JArr _) => Ok m
            | Some (JStr s) =>
                if String.eqb s "" then Ok m
                else Throw (TypeError "Cannot delete property of a string")
            | Some (JNum _) | Some (JBool _) => Ok m
            | Some JNull | None =>
                Throw (TypeError "Cannot convert undefined or null to object")
            end ;;
      match Obj.get "required" m1 with
      | Some (JArr (r :: rs)) =>
          required <- mapM lowerRequiredEntry (r :: rs) ;;
          Ok (Some (JObj (Obj.set "required" (JArr required) m1)))
      | Some (JStr s) =>
          if String.eqb s "" then Ok (Some (JObj m1))
          else Throw (TypeError "headersSchema.required.map is not a function")
      | Some (JObj r) =>
          if truthy_opt (Obj.get "length" r)
          then Throw (TypeError "headersSchema.required.map is not a function")
          else Ok (Some (JObj m1))
      | _ => Ok (Some (JObj m1))
      end
  | Some (JArr l) =>
      Throw (TypeError "Cannot convert undefined or null to object")
  | Some j =>
      if truthy j
      then Throw (TypeError "Cannot convert undefined or null to object")
      else Ok (Some j)
  end.

(* ===================================================================== *)
(** ** SchemaNormalizer: readOnly properties and [required] *)
(* ===================================================================== *)

Definition indexed {A : Type} (l : list A) : list (string * A) :=
  combine (map Str.of_nat (seq 0 (length l))) l.

Fixpoint chars (s : string) : list JSON :=
  match s with
  | EmptyString => []
  | String a s' => JStr (String a EmptyString) :: chars s'
  end.

(** [Object.keys(o).map(k => [k, o[k]])] *)
Definition entries (o : JSON) : M (list (string * JSON)) :=
  match o with
  | JObj m => Ok m
  | JArr l => Ok (indexed l)
  | JStr s => Ok (indexed (chars s))
  | JNum _ | JBool _ => Ok []
  | JNull => Throw (TypeError "Cannot convert undefined or null to object")
  end.

(** The callback of [Object.keys(schema.properties).map(..)]: the key when
    the property carries [readOnly: true], [undefined] otherwise. *)
Definition readOnlyKey (key : string) (prop : JSON) : M (option string) :=
  if truthy prop then
    match prop with
    | JObj pm =>
        match Obj.get "readOnly" pm with
        | Some (JBool true) => Ok (Some key)
        | _ => Ok None
        end
    | JArr _ => Ok None
    | _ => Throw (TypeError "Cannot use 'in' operator to search for 'readOnly'")
    end
  else Ok None.

(** [required.indexOf(value)], [-1] when absent. *)
Fixpoint indexOf (value : string) (required : list JSON) : Z :=
  match required with
  | [] => (-1)%Z
  | x :: r =>
      if JSON_eqb x (JStr value) then 0%Z
      else let i := indexOf value r in
           if Z.ltb i 0 then (-1)%Z else (i + 1)%Z
  end.

Fixpoint remove_at {A : Type} (n : nat) (l : list A) : list A :=
  match l, n with
  | [], _ => []
  | _ :: r, O => r
  | x :: r, S n' => x :: remove_at n' r
  end.

(** [required.splice(index, 1)]: a negative [index] counts from the end. *)
Definition splice1 (index : Z) (required : list JSON) : list JSON :=
  let len := Z.of_nat (length required) in
  let start :=
    if Z.ltb index 0 then Z.max (len + index) 0 else Z.min index len in
  remove_at (Z.to_nat start) required.

Fixpoint somes {A : Type} (l : list (option A)) : list A :=
  match l with
  | [] => []
  | Some x :: r => x :: somes r
  | None :: r => somes r
  end.

(** The [forEach] that splices every readOnly key out of [required]. *)
Definition spliceAll (readOnlyProps : list string) (required : list JSON)
  : list JSON :=
  fold_left (fun req value => splice1 (indexOf value req) req)
            readOnlyProps required.

(** [sanitizeReadonlyPropertiesFromRequired(schema)] *)
Definition sanitizeReadonlyPropertiesFromRequired (schema : JSON) : M JSON :=
  match schema with
  | JObj m =>
      match Obj.get "properties" m, Obj.get "required" m with
      | Some properties, Some required =>
          es <- entries properties ;;
          marks <- mapM (fun kv => readOnlyKey (fst kv) (snd kv)) es ;;
          match somes marks, required with
          | [], _ => Ok schema
          | readOnlyProps, JArr req =>
              Ok (JObj (Obj.set "required"
                          (JArr (spliceAll readOnlyProps req)) m))
          | _, _ =>
              Throw (TypeError "schema.required.splice is not a function")
          end
      | _, _ => Ok schema
      end
  | JArr _ => Ok schema
  | _ => Throw (TypeError "Cannot use 'in' operator to search for 'properties'")
  end.

(* ===================================================================== *)
(** ** SchemaNormalizer: [nullable] *)
(* ===================================================================== *)

Definition is_true (o : option JSON) : bool :=
  match o with
  | Some (JBool true) => true
  | _ => false
  end.

(** The object literal [{ type: object.type, enum: object.enum }]. *)
Definition typeEnumBranch (type enum : JSON) : JSON :=
  JObj [("type", type); ("enum", enum)].

(** The transformation at one node: the body of
    [recursiveTransformOpenAPIV3Definitions] before it visits the members. *)
Definition nullableStep (object : Obj.t JSON) : Obj.t JSON :=
  match Obj.get "type" object with
  | Some type =>
      if truthy type && is_true (Obj.get "nullable" object) then
        match Obj.get "enum" object with
        | Some enum =>
            if truthy enum then
              Obj.delete "nullable"
                (Obj.delete "enum"
                   (Obj.delete "type"
                      (Obj.set "oneOf"
                         (JArr [JObj [("type", JStr "null")];
                                typeEnumBranch type enum])
                         object)))
            else
              Obj.delete "nullable"
                (Obj.set "type" (JArr [type; JStr "null"]) object)
        | None =>
            Obj.delete "nullable"
              (Obj.set "type" (JArr [type; JStr "null"]) object)
        end
      else object
  | None => object
  end.

(** The test of the [forEach] callback: a member that is an object (or an
    array, which is [typeof .. === 'object'] too) is transformed, any other
    is left. *)
Definition visitMember (transform : JSON -> M JSON) (v : JSON) : M JSON :=
  if is_object v then transform v else Ok v.

(** [recursiveTransformOpenAPIV3Definitions(object)]; the in-place rewrite
    is returned as the new tree.  The elements of an array are its members
    under [Object.keys]. *)
Fixpoint recursiveTransformOpenAPIV3Definitions (fuel : nat) (object : JSON)
  : M JSON :=
  match fuel with
  | O => Diverge
  | S fuel' =>
      let visit := visitMember (recursiveTransformOpenAPIV3Definitions fuel') in
      match object with
      | JObj m =>
          m' <- mapM (fun kv => v' <- visit (snd kv) ;; Ok (fst kv, v'))
                     (nullableStep m) ;;
          Ok (JObj m')
      | JArr l =>
          l' <- mapM visit l ;;
          Ok (JArr l')
      | JStr _ | JNum _ | JBool _ => Ok object
      | JNull => Throw (TypeError "Cannot read property 'type' of null")
      end
  end.

(** [transformOpenAPIV3Definitions(schema)]; [JSON.parse(JSON.stringify(..))]
    is the identity on a JSON tree. *)
Definition transformOpenAPIV3Definitions (fuel : nat) (schema : JSON)
  : M JSON :=
  match schema with
  | JStr _ | JNum _ | JBool _ => Ok schema
  | _ => recursiveTransformOpenAPIV3Definitions fuel schema
  end.

(* ===================================================================== *)
(** ** External collaborators *)
(* ===================================================================== *)

(** One run of a compiled predicate: [run_errors] is [None] when the
    predicate returned [true] and the content of [validate.errors] when it
    returned [false]; [run_data] is the data after the run, since the engine
    is created with [useDefaults] and may fill defaults into it. *)
Record ValidateRun : Type := {
  run_errors : option (list ErrorObject);
  run_data : option JSON
}.

(** [Ajv.ValidateFunction]; the argument is [None] for [undefined]. *)
Definition ValidateFunction : Type := option JSON -> ValidateRun.

(** The result of [convertParametersToJSONSchema]. *)
Record ParameterSchemas : Type := {
  ps_body : option JSON;
  ps_headers : option JSON;
  ps_formData : option JSON;
  ps_path : option JSON;
  ps_query : option JSON
}.

(** What the program asks of the validation engine, of
    [openapi-jsonschema-parameters] and of [content-type].  [AjvT] is the
    state of the [Ajv] instance [v]. *)
Record Engine : Type := {
  AjvT : Type;
  ajv_new : AjvT;
  ajv_addFormat : AjvT -> string -> AjvT;
  ajv_addSchema : AjvT -> JSON -> JSON -> M AjvT;
  (** [v.getSchema(ref)] followed by [.schema]: [None] when either is
      [undefined]. *)
  ajv_getSchema : AjvT -> JSON -> M (option JSON);
  ajv_compile : AjvT -> JSON -> M ValidateFunction;
  convertParametersToJSONSchema : list JSON -> M ParameterSchemas;
  (** [contentTypeParser.parse(header).type] *)
  contentTypeParse : string -> M string
}.

(* ===================================================================== *)
(** ** ReferenceResolver: [resolveAndSanitizeRequestBodySchema] *)
(* ===================================================================== *)

(** [resolveAndSanitizeRequestBodySchema(requestBodySchema, v)].

    The function both mutates the object it is given and returns a value.
    The result is the pair of the argument object as it is after the call
    and of the returned value; they differ in the [$ref] branch, where the
    local variable is rebound to the resolved copy and the argument object
    is left alone.  [resolveNode] is the body of the function with its
    recursive calls as [recurse]; [fuel] bounds the depth of the recursion,
    which follows references into the engine's registry. *)
Definition resolveNode (E : Engine) (v : AjvT E)
  (recurse : JSON -> M (JSON * JSON)) (requestBodySchema : JSON)
  : M (JSON * JSON) :=
  (* the body of the [forEach] over [schema.properties] *)
  let visitProperty (prop : JSON) : M JSON :=
    prop1 <- sanitizeReadonlyPropertiesFromRequired prop ;;
    r <- recurse prop1 ;;
    Ok (fst r) in
  (* the callback of [allOf.map], [oneOf.map] and [anyOf.map] *)
  let mapBranch (val : JSON) : M JSON :=
    val1 <- sanitizeReadonlyPropertiesFromRequired val ;;
    r <- recurse val1 ;;
    Ok (snd r) in
  (* [v.getSchema(ref)], the copy, its sanitization and resolution *)
  let inline (reference : JSON) : M (option JSON) :=
    resolved <- ajv_getSchema E v reference ;;
    match resolved with
    | Some target =>
        if truthy target then
          copied <- sanitizeReadonlyPropertiesFromRequired target ;;
          r <- recurse copied ;;
          Ok (Some (snd r))
        else Ok None
    | None => Ok None
    end in
  let mapComposition (key : string) (m : Obj.t JSON) (branches : JSON)
    : M (JSON * JSON) :=
    match branches with
    | JArr l =>
        l' <- mapM mapBranch l ;;
        let s := JObj (Obj.set key (JArr l') m) in
        Ok (s, s)
    | _ => Throw (TypeError "map is not a function")
    end in
  match requestBodySchema with
  | JObj m =>
      match Obj.get "properties" m with
      | Some properties =>
          properties' <-
            match properties with
            | JObj pm =>
                pm' <- mapM (fun kv => p <- visitProperty (snd kv) ;;
                                       Ok (fst kv, p)) pm ;;
                Ok (JObj pm')
            | JArr l =>
                l' <- mapM visitProperty l ;;
                Ok (JArr l')
            | _ =>
                es <- entries properties ;;
                _ <- mapM (fun kv => visitProperty (snd kv)) es ;;
                Ok properties
            end ;;
          let s := JObj (Obj.set "properties" properties' m) in
          Ok (s, s)
      | None =>
      match Obj.get "$ref" m with
      | Some reference =>
          r <- inline reference ;;
          match r with
          | Some copied => Ok (requestBodySchema, copied)
          | None => Ok (requestBodySchema, requestBodySchema)
          end
      | None =>
      match Obj.get "items" m with
      | Some items =>
          match items with
          | JObj im =>
              match Obj.get "$ref" im with
              | Some reference =>
                  r <- inline reference ;;
                  match r with
                  | Some copied =>
                      let s := JObj (Obj.set "items" copied m) in
                      Ok (s, s)
                  | None => Ok (requestBodySchema, requestBodySchema)
                  end
              | None => Ok (requestBodySchema, requestBodySchema)
              end
          | JArr _ => Ok (requestBodySchema, requestBodySchema)
          | _ =>
              Throw (TypeError "Cannot use 'in' operator to search for '$ref'")
          end
      | None =>
      match Obj.get "allOf" m with
      | Some branches => mapComposition "allOf" m branches
      | None =>
      match Obj.get "oneOf" m with
      | Some branches => mapComposition "oneOf" m branches
      | None =>
      match Obj.get "anyOf" m with
      | Some branches => mapComposition "anyOf" m branches
      | None => Ok (requestBodySchema, requestBodySchema)
      end end end end end end
  | JArr _ => Ok (requestBodySchema, requestBodySchema)
  | _ =>
      Throw (TypeError "Cannot use 'in' operator to search for 'properties'")
  end.

Fixpoint resolveAndSanitizeRequestBodySchema (E : Engine) (fuel : nat)
  (v : AjvT E) (requestBodySchema : JSON) : M (JSON * JSON) :=
  match fuel with
  | O => Diverge
  | S fuel' =>
      resolveNode E v (resolveAndSanitizeRequestBodySchema E fuel' v)
        requestBodySchema
  end.

(* ===================================================================== *)
(** ** The validator: construction *)
(* ===================================================================== *)

(** [OpenAPIV3.MediaTypeObject] and [OpenAPIV3.RequestBodyObject] *)
Record MediaTypeObject : Type := {
  media_schema : option JSON
}.

Record RequestBodyObject : Type := {
  required : option bool;
  content : Obj.t MediaTypeObject
}.

(** An entry of [customFormats]: a function, or something else. *)
Inductive FormatEntry : Type :=
| FormatFunction
| FormatDefinition.

Module Args.

(** [OpenAPIRequestValidatorArgs]; the logger is left out. *)
Record t : Type := {
  customFormats : option (Obj.t FormatEntry);
  externalSchemas : option (Obj.t JSON);
  loggingKey : option string;
  parameters : option JSON;
  requestBody : option RequestBodyObject;
  schemas : option JSON;
  componentSchemas : option JSON;
  errorTransformer : option ErrorTransformer
}.

End Args.

(** The private members of an [OpenAPIRequestValidator]. *)
Record OpenAPIRequestValidator : Type := {
  bodySchema : option JSON;
  errorMapper : ErrorObject -> ReportedError;
  isBodyRequired : bool;
  requestBody : option RequestBodyObject;
  requestBodyValidators : Obj.t ValidateFunction;
  validateBody : option ValidateFunction;
  validateFormData : option ValidateFunction;
  validateHeaders : option ValidateFunction;
  validatePath : option ValidateFunction;
  validateQuery : option ValidateFunction
}.

(** [byRequiredBodyParameters(param)] *)
Definition byRequiredBodyParameters (param : JSON) : M bool :=
  match param with
  | JObj m =>
      let is_in (l : string) :=
        match Obj.get "in" m with
        | Some (JStr s) => String.eqb s l
        | _ => false
        end in
      Ok ((is_in "body" || is_in "formData")
          && truthy_opt (Obj.get "required" m))
  | JNull => Throw (TypeError "Cannot read property 'in' of null")
  | _ => Ok false
  end.

(** [LOCAL_DEFINITION_REGEX.exec(id)]: the two captured segments of
    [#/<segment>/<segment>]. *)
Definition localDefinition (id : string) : option (string * string) :=
  match Str.strip_prefix "#/" id with
  | Some rest =>
      match Str.split "/" rest with
      | [a; b] =>
          if String.eqb a "" || String.eqb b "" then None else Some (a, b)
      | _ => None
      end
  | None => None
  end.

(** The body of [args.schemas.forEach(schema => ..)].  An [id] that is not
    a string is taken not to match [LOCAL_DEFINITION_REGEX]. *)
Definition registerSchema (E : Engine)
  (acc : AjvT E * option (Obj.t JSON)) (schema : JSON)
  : M (AjvT E * option (Obj.t JSON)) :=
  let (v, bodyValidationSchema) := acc in
  id <- match schema with
        | JObj m => Ok (Obj.get "id" m)
        | JNull => Throw (TypeError "Cannot read property 'id' of null")
        | _ => Ok None
        end ;;
  match id with
  | Some id =>
      if truthy id then
        let bodyValidationSchema' :=
          match id, bodyValidationSchema with
          | JStr ids, Some bvs =>
              match localDefinition ids with
              | Some (group, name) =>
                  let definitions :=
                    match Obj.get group bvs with
                    | Some d => if truthy d then d else JObj []
                    | None => JObj []
                    end in
                  match definitions with
                  | JObj d =>
                      Some (Obj.set group (JObj (Obj.set name schema d)) bvs)
                  | _ => Some bvs
                  end
              | None => Some bvs
              end
          | _, _ => bodyValidationSchema
          end in
        v' <- ajv_addSchema E v schema id ;;
        Ok (v', bodyValidationSchema')
      else Ok acc
  | None => Ok acc
  end.

Fixpoint foldM {A B : Type} (f : A -> B -> M A) (l : list B) (a : A) : M A :=
  match l with
  | [] => Ok a
  | x :: r => a' <- f a x ;; foldM f r a'
  end.

(** [if (args.componentSchemas) { .. } else if (args.schemas) { .. }] *)
Definition registerSchemas (E : Engine) (args : Args.t) (v : AjvT E)
  (bodyValidationSchema : option (Obj.t JSON))
  : M (AjvT E * option (Obj.t JSON)) :=
  let fromSchemas : M (AjvT E * option (Obj.t JSON)) :=
    match Args.schemas args with
    | Some (JArr l) => foldM (registerSchema E) l (v, bodyValidationSchema)
    | Some s =>
        if truthy s then
          Ok (v, option_map
                   (fun bvs =>
                      Obj.set "components" (JObj [("schemas", s)])
                        (Obj.set "definitions" s bvs))
                   bodyValidationSchema)
        else Ok (v, bodyValidationSchema)
    | None => Ok (v, bodyValidationSchema)
    end in
  match Args.componentSchemas args with
  | Some cs =>
      if truthy cs then
        es <- entries cs ;;
        v' <- foldM (fun v kv =>
                       ajv_addSchema E v (snd kv)
                         (JStr ("#/components/schemas/" ++ fst kv)))
                    es v ;;
        Ok (v', bodyValidationSchema)
      else fromSchemas
  | None => fromSchemas
  end.

Definition when_truthy {A : Type} (o : option JSON) (f : JSON -> M A)
  : M (option A) :=
  match o with
  | Some j => if truthy j then a <- f j ;; Ok (Some a) else Ok None
  | None => Ok None
  end.

(** The wrapper schema compiled for one media type of [requestBody]. *)
Definition requestBodyWrapper (schemas : option JSON) (resolvedSchema : JSON)
  : JSON :=
  JObj [("properties", JObj [("body", resolvedSchema)]);
        ("definitions", if truthy_opt schemas
                        then match schemas with Some s => s | None => JObj [] end
                        else JObj []);
        ("components", JObj match schemas with
                            | Some s => [("schemas", s)]
                            | None => []
                            end)].

(** The constructor.  [fuel] bounds the recursions of the resolver and of
    the nullable transformation. *)
Definition new_OpenAPIRequestValidator (E : Engine) (fuel : nat)
  (args : Args.t) : M OpenAPIRequestValidator :=
  let loggingKey :=
    match Args.loggingKey args with
    | Some k => if String.eqb k "" then "" else k ++ ": "
    | None => ""
    end in
  let errorMapper :=
    match Args.errorTransformer args with
    | Some errorTransformer => extendedErrorMapper errorTransformer
    | None => defaultErrorMapper
    end in
  '(schemas, isBodyRequired0) <-
    match Args.parameters args with
    | None =>
        Ok ({| ps_body := None; ps_headers := None; ps_formData := None;
               ps_path := None; ps_query := None |}, false)
    | Some (JArr parameters) =>
        schemas <- convertParametersToJSONSchema E parameters ;;
        headersSchema <- lowercasedHeaders (ps_headers schemas) ;;
        marks <- mapM byRequiredBodyParameters parameters ;;
        Ok ({| ps_body := ps_body schemas; ps_headers := headersSchema;
               ps_formData := ps_formData schemas; ps_path := ps_path schemas;
               ps_query := ps_query schemas |},
            Nat.ltb 0 (length (filter (fun b => b) marks)))
    | Some _ =>
        Throw (Error (loggingKey ++ "args.parameters must be an Array"))
    end ;;
  let bodySchema := ps_body schemas in
  let v := ajv_new E in
  let isBodyRequired :=
    match Args.requestBody args with
    | Some rb => match required rb with Some b => b | None => false end
    | None => isBodyRequired0
    end in
  v <- match Args.customFormats args with
       | Some formats =>
           let v' := fold_left
                       (fun v kv => match snd kv with
                                    | FormatFunction => ajv_addFormat E v (fst kv)
                                    | FormatDefinition => v
                                    end) formats v in
           if existsb (fun kv => match snd kv with
                                 | FormatDefinition => true
                                 | FormatFunction => false
                                 end) formats
           then Throw (Error (loggingKey
                        ++ "args.customFormats properties must be functions"))
           else Ok v'
       | None => Ok v
       end ;;
  let bodyValidationSchema :=
    if truthy_opt bodySchema
    then match bodySchema with
         | Some b => Some [("properties", JObj [("body", b)])]
         | None => None
         end
    else None in
  '(v, bodyValidationSchema) <- registerSchemas E args v bodyValidationSchema ;;
  v <- match Args.externalSchemas args with
       | Some ext =>
           foldM (fun v kv => ajv_addSchema E v (snd kv) (JStr (fst kv))) ext v
       | None => Ok v
       end ;;
  requestBodyValidators <-
    match Args.requestBody args with
    | Some rb =>
        foldM
          (fun validators kv =>
             copied <- match media_schema (snd kv) with
                       | Some bodyContentSchema => Ok bodyContentSchema
                       | None => Throw (SyntaxError "Unexpected token u in JSON")
                       end ;;
             r <- resolveAndSanitizeRequestBodySchema E fuel v copied ;;
             t <- transformOpenAPIV3Definitions fuel
                    (requestBodyWrapper (Args.schemas args) (snd r)) ;;
             validate <- ajv_compile E v t ;;
             Ok (Obj.set (fst kv) validate validators))
          (content rb) []
    | None => Ok []
    end ;;
  let compiled (s : JSON) : M ValidateFunction :=
    t <- transformOpenAPIV3Definitions fuel s ;;
    ajv_compile E v t in
  validateBody <-
    match bodyValidationSchema with
    | Some bvs => f <- compiled (JObj bvs) ;; Ok (Some f)
    | None => Ok None
    end ;;
  validateFormData <- when_truthy (ps_formData schemas) compiled ;;
  validateHeaders <- when_truthy (ps_headers schemas) compiled ;;
  validatePath <- when_truthy (ps_path schemas) compiled ;;
  validateQuery <- when_truthy (ps_query schemas) compiled ;;
  Ok {| bodySchema := bodySchema;
        errorMapper := errorMapper;
        isBodyRequired := isBodyRequired;
        requestBody := Args.requestBody args;
        requestBodyValidators := requestBodyValidators;
        validateBody := validateBody;
        validateFormData := validateFormData;
        validateHeaders := validateHeaders;
        validatePath := validatePath;
        validateQuery := validateQuery |}.

(* ===================================================================== *)
(** ** The validator: [validate] *)
(* ===================================================================== *)

(** [OpenAPI.Request]; a member that is [None] is [undefined]. *)
Record Request : Type := {
  body : option JSON;
  headers : option (Obj.t string);
  params : option JSON;
  query : option JSON
}.

(** The value [validate] returns when it returns an object. *)
Record ValidationResult : Type := {
  status : nat;
  errors : list ReportedError
}.

(** The local variables of [validate], and the request body as the
    predicates run so far have left it. *)
Record Locals : Type := {
  l_errors : list ErrorObject;
  l_schemaError : option OpenAPIRequestValidatorError;
  l_mediaTypeError : option OpenAPIRequestValidatorError;
  l_body : option JSON
}.

Definition missingBodyMessage : string :=
  "request.body was not present in the request.  Is a body-parser being used?".

Definition missingBodyError (schema : option JSON)
  : OpenAPIRequestValidatorError :=
  {| path := None; errorCode := None; message := missingBodyMessage;
     location := Some "body"; schema := schema |}.

Definition unsupportedContentType (contentType : string)
  : OpenAPIRequestValidatorError :=
  {| path := None; errorCode := None;
     message := "Unsupported Content-Type " ++ contentType;
     location := None; schema := None |}.

(** The violation pushed when a required body comes without media type. *)
Definition mediaTypeNotSpecified : ErrorObject :=
  {| keyword := "required"; dataPath := ".body";
     e_message := "media type is not specified";
     e_params := {| missingProperty := None; ref := None |};
     e_location := Some "body" |}.

(** [errors.push.apply(errors, withAddedLocation(location, f.errors))]
    when the predicate fails. *)
Definition pushErrors (loc : string) (run : ValidateRun)
  (errors : list ErrorObject) : list ErrorObject :=
  match run_errors run with
  | Some es => (errors ++ withAddedLocation loc es)%list
  | None => errors
  end.

(** The envelope [{ body: request.body }] and the body it holds after the
    run. *)
Definition envelope (b : JSON) : JSON := JObj [("body", b)].

Definition bodyAfter (b : JSON) (run : ValidateRun) : JSON :=
  match run_data run with
  | Some (JObj m) =>
      match Obj.get "body" m with
      | Some b' => b'
      | None => b
      end
  | _ => b
  end.

Definition validateEnvelope (f : option ValidateFunction) (b : JSON)
  (st : Locals) : M Locals :=
  match f with
  | Some validateBody =>
      let run := validateBody (Some (envelope b)) in
      Ok {| l_errors := pushErrors "body" run (l_errors st);
            l_schemaError := l_schemaError st;
            l_mediaTypeError := l_mediaTypeError st;
            l_body := Some (bodyAfter b run) |}
  | None => Throw (TypeError "validateBody is not a function")
  end.

Definition withSchemaError (e : OpenAPIRequestValidatorError) (st : Locals)
  : Locals :=
  {| l_errors := l_errors st; l_schemaError := Some e;
     l_mediaTypeError := l_mediaTypeError st; l_body := l_body st |}.

(** [if (this.bodySchema) { .. }] *)
Definition legacyBodyStep (this : OpenAPIRequestValidator) (st : Locals)
  : M Locals :=
  if truthy_opt (bodySchema this) then
    match l_body st with
    | Some b =>
        if truthy b then validateEnvelope (validateBody this) b st
        else if isBodyRequired this
        then Ok (withSchemaError (missingBodyError (bodySchema this)) st)
        else Ok st
    | None =>
        if isBodyRequired this
        then Ok (withSchemaError (missingBodyError (bodySchema this)) st)
        else Ok st
    end
  else Ok st.

(** [if (this.requestBody) { .. }] *)
Definition requestBodyStep (E : Engine) (this : OpenAPIRequestValidator)
  (request : Request) (st : Locals) : M Locals :=
  match requestBody this with
  | None => Ok st
  | Some rb =>
      contentType <-
        match headers request with
        | Some hs => Ok (Obj.get "content-type" hs)
        | None =>
            Throw (TypeError "Cannot read property 'content-type' of undefined")
        end ;;
      mediaTypeMatch <-
        getSchemaForMediaType (contentTypeParse E) contentType
          (Obj.keys (content rb)) ;;
      let unmatched :=
        match contentType with
        | Some ct =>
            if String.eqb ct "" then None else Some ct
        | None => None
        end in
      let noMatch : M Locals :=
        match unmatched with
        | Some ct =>
            Ok {| l_errors := l_errors st;
                  l_schemaError := l_schemaError st;
                  l_mediaTypeError := Some (unsupportedContentType ct);
                  l_body := l_body st |}
        | None =>
            if isBodyRequired this
            then Ok {| l_errors := (l_errors st ++ [mediaTypeNotSpecified])%list;
                       l_schemaError := l_schemaError st;
                       l_mediaTypeError := l_mediaTypeError st;
                       l_body := l_body st |}
            else Ok st
        end in
      match mediaTypeMatch with
      | None => noMatch
      | Some key =>
          if String.eqb key "" then noMatch
          else
            bodySchema <-
              match Obj.get key (content rb) with
              | Some mt => Ok (media_schema mt)
              | None =>
                  Throw (TypeError "Cannot read property 'schema' of undefined")
              end ;;
            let absent :=
              if isBodyRequired this
              then Ok (withSchemaError (missingBodyError bodySchema) st)
              else Ok st in
            match l_body st with
            | Some b =>
                if truthy b
                then validateEnvelope (Obj.get key (requestBodyValidators this))
                       b st
                else absent
            | None => absent
            end
      end
  end.

(** One of the parts validated by a predicate of its own. *)
Definition partStep (loc : string) (f : option ValidateFunction)
  (data : option JSON) (st : Locals) : Locals :=
  match f with
  | Some validatePart =>
      {| l_errors := pushErrors loc (validatePart data) (l_errors st);
         l_schemaError := l_schemaError st;
         l_mediaTypeError := l_mediaTypeError st;
         l_body := l_body st |}
  | None => st
  end.

(** [x || {}] *)
Definition or_empty (o : option JSON) : option JSON :=
  if truthy_opt o then o else Some (JObj []).

Definition headersObject (hs : Obj.t string) : JSON :=
  JObj (map (fun kv => (fst kv, JStr (snd kv))) hs).

(** The statements of [validate] up to the final classification. *)
Definition collect (E : Engine) (this : OpenAPIRequestValidator)
  (request : Request) : M Locals :=
  let st := {| l_errors := []; l_schemaError := None;
               l_mediaTypeError := None; l_body := body request |} in
  st <- legacyBodyStep this st ;;
  st <- requestBodyStep E this request st ;;
  let st :=
    match l_schemaError st with
    | None => partStep "formData" (validateFormData this) (l_body st) st
    | Some _ => st
    end in
  let st := partStep "path" (validatePath this) (or_empty (params request)) st in
  let st :=
    partStep "headers" (validateHeaders this)
      (Some (headersObject
               (lowercaseRequestHeaders
                  (match headers request with Some hs => hs | None => [] end))))
      st in
  let st := partStep "query" (validateQuery this) (or_empty (query request)) st in
  Ok st.

(** The final [if .. else if ..] of [validate]. *)
Definition classify (this : OpenAPIRequestValidator) (st : Locals)
  : option ValidationResult :=
  match l_errors st with
  | _ :: _ =>
      Some {| status := 400; errors := map (errorMapper this) (l_errors st) |}
  | [] =>
      match l_schemaError st with
      | Some schemaError =>
          Some {| status := 400; errors := [Plain schemaError] |}
      | None =>
          match l_mediaTypeError st with
          | Some mediaTypeError =>
              Some {| status := 415; errors := [Plain mediaTypeError] |}
          | None => None
          end
      end
  end.

(** [validate(request)]: [Ok None] is the return of [undefined]. *)
Definition validate (E : Engine) (this : OpenAPIRequestValidator)
  (request : Request) : M (option ValidationResult) :=
  st <- collect E this request ;;
  Ok (classify this st).

(* ===================================================================== *)
(** ** Reference definitions the code is compared with *)
(* ===================================================================== *)

(** *** Fuel

    [b] is what [a] is, once [a] has ended: a result or an exception of a
    run is kept by every run with more fuel. *)
Definition settled {A : Type} (a b : M A) : Prop := a <> Diverge -> b = a.

(** *** Runs of [validate]

    A part passes when its predicate, if there is one, returns [true]. *)
Definition passes (f : option ValidateFunction) (data : option JSON) : Prop :=
  forall g, f = Some g -> run_errors (g data) = None.

(** The request headers as the header predicate is given them. *)
Definition loweredHeaders (request : Request) : option JSON :=
  Some (headersObject
          (lowercaseRequestHeaders
             (match headers request with Some hs => hs | None => [] end))).

(** The same validator with other media-type predicates. *)
Definition withRequestBodyValidators (this : OpenAPIRequestValidator)
  (validators : Obj.t ValidateFunction) : OpenAPIRequestValidator :=
  {| bodySchema := bodySchema this;
     errorMapper := errorMapper this;
     isBodyRequired := isBodyRequired this;
     requestBody := requestBody this;
     requestBodyValidators := validators;
     validateBody := validateBody this;
     validateFormData := validateFormData this;
     validateHeaders := validateHeaders this;
     validatePath := validatePath this;
     validateQuery := validateQuery this |}.

(** The same request with every header name in lower case. *)
Definition withLowercasedHeaders (request : Request) : Request :=
  {| body := body request;
     headers := option_map lowercaseRequestHeaders (headers request);
     params := params request;
     query := query request |}.

(** *** What a run of [validate] can leave behind

    The five parts of a request, in the order in which [validate] goes
    through them. *)
Definition locatedIn (loc : string) (e : ErrorObject) : Prop :=
  e_location e = Some loc.

(** The errors of a run, part by part. *)
Definition InPartOrder (es : list ErrorObject) : Prop :=
  exists b f p h q,
    es = (b ++ f ++ p ++ h ++ q)%list
    /\ Forall (locatedIn "body") b
    /\ Forall (locatedIn "formData") f
    /\ Forall (locatedIn "path") p
    /\ Forall (locatedIn "headers") h
    /\ Forall (locatedIn "query") q.

(** What a body step can have done to the local variables. *)
Inductive BodyStepped (request : Request) (isRequired : bool) (st : Locals)
  : Locals -> Prop :=
| Untouched : BodyStepped request isRequired st st
| Validated (run : ValidateRun) (b : JSON) :
    BodyStepped request isRequired st
      {| l_errors := pushErrors "body" run (l_errors st);
         l_schemaError := l_schemaError st;
         l_mediaTypeError := l_mediaTypeError st;
         l_body := Some (bodyAfter b run) |}
| MissingBody (schema : option JSON) :
    isRequired = true ->
    BodyStepped request isRequired st
      (withSchemaError (missingBodyError schema) st)
| MissingMediaType :
    isRequired = true ->
    BodyStepped request isRequired st
      {| l_errors := (l_errors st ++ [mediaTypeNotSpecified])%list;
         l_schemaError := l_schemaError st;
         l_mediaTypeError := l_mediaTypeError st;
         l_body := l_body st |}
| Unsupported (hs : Obj.t string) (contentType : string) :
    headers request = Some hs ->
    Obj.get "content-type" hs = Some contentType ->
    BodyStepped request isRequired st
      {| l_errors := l_errors st;
         l_schemaError := l_schemaError st;
         l_mediaTypeError := Some (unsupportedContentType contentType);
         l_body := l_body st |}.


(** The same request with the given headers. *)
Definition withHeaders (request : Request) (hs : Obj.t string) : Request :=
  {| body := body request; headers := Some hs;
     params := params request; query := query request |}.

(** *** Header names in lower case

    A member under its lowercased name. *)
Definition lowerName {V : Type} (kv : string * V) : string * V :=
  (Str.toLowerCase (fst kv), snd kv).

(** *** The readOnly properties of a schema

    The names that [sanitizeReadonlyPropertiesFromRequired] collects: the
    properties that are objects with [readOnly: true]. *)
Definition isReadOnly (prop : JSON) : bool :=
  match prop with
  | JObj pm => is_true (Obj.get "readOnly" pm)
  | _ => false
  end.

Definition readOnlyNames (properties : Obj.t JSON) : list string :=
  map fst (filter (fun kv => isReadOnly (snd kv)) properties).

(** An entry of [required] that names none of the given properties. *)
Definition namesNoneOf (names : list string) (entry : JSON) : bool :=
  negb (existsb (fun n => JSON_eqb entry (JStr n)) names).

(** *** Trees that say [nullable: true] somewhere *)
Fixpoint saysNullable (o : JSON) : bool :=
  match o with
  | JObj m =>
      is_true (Obj.get "nullable" m)
      || (fix members (m : list (string * JSON)) : bool :=
            match m with
            | [] => false
            | kv :: r => saysNullable (snd kv) || members r
            end) m
  | JArr l =>
      (fix elements (l : list JSON) : bool :=
         match l with
         | [] => false
         | x :: r => saysNullable x || elements r
         end) l
  | _ => false
  end.

(** *** Trees that hold a reference somewhere *)
Fixpoint mentionsRef (o : JSON) : bool :=
  match o with
  | JObj m =>
      Obj.has "$ref" m
      || (fix members (m : list (string * JSON)) : bool :=
            match m with
            | [] => false
            | kv :: r => mentionsRef (snd kv) || members r
            end) m
  | JArr l =>
      (fix elements (l : list JSON) : bool :=
         match l with
         | [] => false
         | x :: r => mentionsRef x || elements r
         end) l
  | _ => false
  end.

(** *** The prefix of the constructor's messages *)
Definition loggingPrefix (args : Args.t) : string :=
  match Args.loggingKey args with
  | Some k => if String.eqb k "" then "" else k ++ ": "
  | None => ""
  end.

(** *** Public paths

    What the engine path contributes to the public path once the envelope
    member has been taken off: the path inside the payload. *)
Definition payloadPath (rest : string) : string :=
  match rest with
  | String "." r => r
  | _ => rest
  end.

Definition missingSuffix (mp : option string) : string :=
  match mp with
  | Some name => if String.eqb name "" then "" else "." ++ name
  | None => ""
  end.

(** *** Media-type scores

    The score of a configured key for a parsed content type, as the matcher
    describes it: a subtype wildcard of the same type scores 2, the full
    wildcard scores 1, anything else 0.  A key is read as the code reads it,
    by its segments between slashes: the subtype is the second segment and
    the type the first. *)
Definition isSubtypeWildcardOf (contentType mediaTypeKey : string) : bool :=
  opt_string_eqb (nth_error (Str.split "/" mediaTypeKey) 1) "*"
  && opt_eqb (nth_error (Str.split "/" contentType) 0)
             (nth_error (Str.split "/" mediaTypeKey) 0).

Definition score (contentType mediaTypeKey : string) : nat :=
  if isSubtypeWildcardOf contentType mediaTypeKey then 2
  else if String.eqb mediaTypeKey "*/*" then 1
  else 0.

(** [s] has no character [c]. *)
Fixpoint free_of (c : ascii) (s : string) : bool :=
  match s with
  | EmptyString => true
  | String a r => negb (Ascii.eqb a c) && free_of c r
  end.

(** The update of the loop variables by a key that does not return. *)
Definition better (contentType : string) (st : MatchState)
  (mediaTypeKey : string) : MatchState :=
  if Nat.ltb (matchPoints st) (score contentType mediaTypeKey)
  then {| matched := Some mediaTypeKey;
          matchPoints := score contentType mediaTypeKey |}
  else st.

(** [k] is the first key of [keys] with property [p]. *)
Definition FirstWith (p : string -> bool) (keys : list string) (k : string)
  : Prop :=
  exists pre post,
    keys = (pre ++ k :: post)%list
    /\ p k = true
    /\ Forall (fun x => p x = false) pre.

(** [k] has the top score among [keys], that score is above 0, and no key
    registered before [k] reaches it. *)
Definition FirstBest (contentType : string) (keys : list string) (k : string)
  : Prop :=
  exists pre post,
    keys = (pre ++ k :: post)%list
    /\ 0 < score contentType k
    /\ Forall (fun x => score contentType x < score contentType k) pre
    /\ Forall (fun x => score contentType x <= score contentType k) post.

(** No key but the full wildcard has anything to do with the content
    type. *)
Definition OnlyWildcardMatches (contentType : string) (keys : list string)
  : Prop :=
  forall k, In k keys -> k <> "*/*" ->
    Str.contains contentType k = false
    /\ isSubtypeWildcardOf contentType k = false.

(** [g] applied to the value of every member. *)
Definition mapValues (g : JSON -> JSON) (m : Obj.t JSON) : Obj.t JSON :=
  map (fun kv => (fst kv, g (snd kv))) m.

(** The schema [{ type: 'null' }]. *)
Definition nullBranch : JSON := JObj [("type", JStr "null")].

(** *** The nullable rewrite, bottom-up

    [normalize] applies the node rewrite at every object of the tree, the
    members first. *)
Fixpoint normalize (o : JSON) : JSON :=
  match o with
  | JObj m =>
      JObj (nullableStep
              ((fix members (m : list (string * JSON)) : list (string * JSON) :=
                  match m with
                  | [] => []
                  | kv :: r => (fst kv, normalize (snd kv)) :: members r
                  end) m))
  | JArr l =>
      JArr ((fix elements (l : list JSON) : list JSON :=
               match l with
               | [] => []
               | x :: r => normalize x :: elements r
               end) l)
  | _ => o
  end.

(** The nesting depth of a tree. *)
Fixpoint height (o : JSON) : nat :=
  match o with
  | JObj m =>
      S ((fix members (m : list (string * JSON)) : nat :=
            match m with
            | [] => 0
            | kv :: r => Nat.max (height (snd kv)) (members r)
            end) m)
  | JArr l =>
      S ((fix elements (l : list JSON) : nat :=
            match l with
            | [] => 0
            | x :: r => Nat.max (height x) (elements r)
            end) l)
  | _ => 0
  end.

(** A value that is neither an array nor an object. *)
Definition is_scalar (j : JSON) : bool := negb (is_object j).

(** *** The meaning of [type], [enum] and [oneOf]

    The validation engine is not part of the repository.  [accepts] gives
    the keywords that the nullable rewrite produces their JSON Schema
    meaning, together with [properties] and [required]; other keywords are
    ignored.  Numbers are integers in this model. *)
Definition typeNameOk (name : string) (data : JSON) : bool :=
  match data with
  | JNull => String.eqb name "null"
  | JBool _ => String.eqb name "boolean"
  | JNum _ => String.eqb name "number" || String.eqb name "integer"
  | JStr _ => String.eqb name "string"
  | JArr _ => String.eqb name "array"
  | JObj _ => String.eqb name "object"
  end.

Definition typeOk (type data : JSON) : bool :=
  match type with
  | JStr name => typeNameOk name data
  | JArr names =>
      existsb (fun t => match t with
                        | JStr name => typeNameOk name data
                        | _ => false
                        end) names
  | _ => true
  end.

Fixpoint accepts (schema data : JSON) {struct schema} : bool :=
  match schema with
  | JObj m =>
      (fix keywords (ms : list (string * JSON)) : bool :=
         match ms with
         | [] => true
         | (k, v) :: r =>
             (if String.eqb k "type" then typeOk v data
              else if String.eqb k "enum" then
                match v with
                | JArr l => existsb (JSON_eqb data) l
                | _ => true
                end
              else if String.eqb k "oneOf" then
                match v with
                | JArr l =>
                    Nat.eqb
                      ((fix count (l : list JSON) : nat :=
                          match l with
                          | [] => 0
                          | s :: t =>
                              (if accepts s data then 1 else 0) + count t
                          end) l) 1
                | _ => true
                end
              else if String.eqb k "properties" then
                match v, data with
                | JObj pm, JObj dm =>
                    (fix props (pm : list (string * JSON)) : bool :=
                       match pm with
                       | [] => true
                       | (pk, ps) :: t =>
                           match Obj.get pk dm with
                           | Some d => accepts ps d
                           | None => true
                           end && props t
                       end) pm
                | _, _ => true
                end
              else if String.eqb k "required" then
                match v, data with
                | JArr l, JObj dm =>
                    forallb (fun n => match n with
                                      | JStr s => Obj.has s dm
                                      | _ => true
                                      end) l
                | _, _ => true
                end
              else true)
             && keywords r
         end) m
  | JBool b => b
  | _ => true
  end.

(** The two-branch alternative of the nullable rewrite, as a schema. *)
Definition nullableEnumAlternative (type enum : JSON) : JSON :=
  JObj [("oneOf", JArr [JObj [("type", JStr "null")];
                        typeEnumBranch type enum])].

(* ===================================================================== *)
(** ** A small engine, to run the model on concrete requests *)
(* ===================================================================== *)

Module Mini.

Definition is_ws (a : ascii) : bool :=
  let n := nat_of_ascii a in
  Nat.eqb n 32 || Nat.eqb n 9 || Nat.eqb n 10 || Nat.eqb n 13.

Fixpoint trim_left (s : string) : string :=
  match s with
  | String a r => if is_ws a then trim_left r else s
  | EmptyString => EmptyString
  end.

Fixpoint trim_right (s : string) : string :=
  match s with
  | String a r =>
      let r' := trim_right r in
      if is_ws a && String.eqb r' "" then "" else String a r'
  | EmptyString => EmptyString
  end.

Fixpoint before (c : ascii) (s : string) : string :=
  match s with
  | String a r => if Ascii.eqb a c then "" else String a (before c r)
  | EmptyString => EmptyString
  end.

(** The characters of an HTTP token. *)
Definition is_token_char (a : ascii) : bool :=
  let n := nat_of_ascii a in
  (Nat.leb 48 n && Nat.leb n 57) || (Nat.leb 65 n && Nat.leb n 90)
  || (Nat.leb 97 n && Nat.leb n 122)
  || existsb (Nat.eqb n) [33; 35; 36; 37; 38; 39; 42; 43; 45; 46; 94; 95; 96; 124; 126].

Fixpoint is_token (s : string) : bool :=
  match s with
  | String a EmptyString => is_token_char a
  | String a r => is_token_char a && is_token r
  | EmptyString => false
  end.

(** The media type of a header value: the text before the first [;],
    trimmed, which has to be [token/token], in lower case.  The parameters
    after the [;] are not looked at. *)
Definition parse (header : string) : M string :=
  let type := trim_right (trim_left (before ";" header)) in
  match Str.split "/" type with
  | [a; b] =>
      if is_token a && is_token b then Ok (Str.toLowerCase type)
      else Throw (TypeError "invalid media type")
  | _ => Throw (TypeError "invalid media type")
  end.

(** The registry of an engine instance: key or id to schema. *)
Definition addSchema (v : Obj.t JSON) (schema key : JSON) : M (Obj.t JSON) :=
  match key with
  | JStr k =>
      if Obj.has k v
      then Throw (Error "schema with key or id already exists")
      else Ok (Obj.set k schema v)
  | _ => Throw (Error "schema id must be string")
  end.

Definition getSchema (v : Obj.t JSON) (reference : JSON) : M (option JSON) :=
  match reference with
  | JStr k => Ok (Obj.get k v)
  | _ => Ok None
  end.

Definition violation : ErrorObject :=
  {| keyword := "schema"; dataPath := "";
     e_message := "should match schema";
     e_params := {| missingProperty := None; ref := None |};
     e_location := None |}.

Definition compile (v : Obj.t JSON) (schema : JSON) : M ValidateFunction :=
  Ok (fun data =>
        {| run_errors :=
             match data with
             | Some d => if accepts schema d then None else Some [violation]
             | None => None
             end;
           run_data := data |}).

Definition isIn (loc : string) (param : JSON) : bool :=
  match param with
  | JObj m =>
      match Obj.get "in" m with
      | Some (JStr s) => String.eqb s loc
      | _ => false
      end
  | _ => false
  end.

Definition paramName (param : JSON) : string :=
  match param with
  | JObj m =>
      match Obj.get "name" m with
      | Some (JStr s) => s
      | _ => ""
      end
  | _ => ""
  end.

Definition paramSchema (param : JSON) : JSON :=
  match param with
  | JObj m =>
      match Obj.get "schema" m with
      | Some s => s
      | None =>
          JObj (filter (fun kv => existsb (String.eqb (fst kv))
                                    ["type"; "enum"; "format"; "items"]) m)
      end
  | _ => JObj []
  end.

Definition isRequired (param : JSON) : bool :=
  match param with
  | JObj m => truthy_opt (Obj.get "required" m)
  | _ => false
  end.

(** The schema of the parameters of one location: their schemas under
    [properties], the names of the required ones under [required]. *)
Definition groupSchema (loc : string) (parameters : list JSON)
  : option JSON :=
  match filter (isIn loc) parameters with
  | [] => None
  | ps =>
      Some (JObj
        [("properties",
          JObj (fold_left (fun acc p => Obj.set (paramName p) (paramSchema p) acc)
                          ps []));
         ("required",
          JArr (map (fun p => JStr (paramName p)) (filter isRequired ps)))])
  end.

Definition convert (parameters : list JSON) : M ParameterSchemas :=
  Ok {| ps_body :=
          match filter (isIn "body") parameters with
          | p :: _ => Some (paramSchema p)
          | [] => None
          end;
        ps_headers := groupSchema "header" parameters;
        ps_formData := groupSchema "formData" parameters;
        ps_path := groupSchema "path" parameters;
        ps_query := groupSchema "query" parameters |}.

Definition engine : Engine :=
  {| AjvT := Obj.t JSON;
     ajv_new := [];
     ajv_addFormat := fun v _ => v;
     ajv_addSchema := addSchema;
     ajv_getSchema := getSchema;
     ajv_compile := compile;
     convertParametersToJSONSchema := convert;
     contentTypeParse := parse |}.

End Mini.

(* ===================================================================== *)
(** ** Concrete schemas, violations and requests *)
(* ===================================================================== *)

Module Examples.

Definition noParams : ErrorParams :=
  {| missingProperty := None; ref := None |}.

(** A [type] violation, as the engine reports it, located in the body. *)
Definition bodyViolation (enginePath : string) : ErrorObject :=
  {| keyword := "type"; dataPath := enginePath;
     e_message := "should be string"; e_params := noParams;
     e_location := Some "body" |}.

(** [{ properties: { id: { readOnly: true }, name: { type: 'string' } },
       required: ['name'] }] *)
Definition readOnlyNotRequired : JSON :=
  JObj [("properties",
         JObj [("id", JObj [("readOnly", JBool true)]);
               ("name", JObj [("type", JStr "string")])]);
        ("required", JArr [JStr "name"])].

(** [{ properties: { id: { readOnly: true }, name: { type: 'string' } },
       required: ['id', 'name'] }] *)
Definition readOnlyRequired : JSON :=
  JObj [("properties",
         JObj [("id", JObj [("readOnly", JBool true)]);
               ("name", JObj [("type", JStr "string")])]);
        ("required", JArr [JStr "id"; JStr "name"])].

(** [{ type: 'object', nullable: true,
       enum: [{ type: 'a', nullable: true }] }] *)
Definition enumOfObjects : JSON :=
  JObj [("type", JStr "object"); ("nullable", JBool true);
        ("enum", JArr [JObj [("type", JStr "a"); ("nullable", JBool true)]])].

(** [{ type: 'string', nullable: true, enum: [1] }] *)
Definition enumOffType : JSON :=
  JObj [("type", JStr "string"); ("nullable", JBool true);
        ("enum", JArr [JNum 1])].

(** [{ type: 'object', properties: { color:
       { type: 'string', nullable: true, enum: ['red', 'green'],
         description: 'a colour' } } }] *)
Definition colourSchema : JSON :=
  JObj [("type", JStr "object");
        ("properties",
         JObj [("color",
                JObj [("type", JStr "string"); ("nullable", JBool true);
                      ("enum", JArr [JStr "red"; JStr "green"]);
                      ("description", JStr "a colour")])])].

(** The members of the [color] property of [colourSchema]. *)
Definition colourNode : Obj.t JSON :=
  [("type", JStr "string"); ("nullable", JBool true);
   ("enum", JArr [JStr "red"; JStr "green"]);
   ("description", JStr "a colour")].

(** A registry with one component schema. *)
Definition registry : Obj.t JSON :=
  [("#/components/schemas/Pet",
    JObj [("type", JStr "object");
          ("properties", JObj [("name", JObj [("type", JStr "string")])])])].

Definition petReference : Obj.t JSON :=
  [("$ref", JStr "#/components/schemas/Pet")].

(** [{ type: 'object', properties: { pet: { $ref: .. } } }] *)
Definition ownerSchema : Obj.t JSON :=
  [("type", JStr "object");
   ("properties", JObj [("pet", JObj petReference)])].

(** An operation with a required JSON body, a required integer path
    parameter [id] and a required header [X-Request-Id]. *)
Definition petBody : RequestBodyObject :=
  {| required := Some true;
     content :=
       [("application/json",
         {| media_schema := Some (JObj [("type", JStr "object")]) |})] |}.

Definition petArgs : Args.t :=
  {| Args.customFormats := None;
     Args.externalSchemas := None;
     Args.loggingKey := None;
     Args.parameters :=
       Some (JArr [JObj [("in", JStr "path"); ("name", JStr "id");
                         ("required", JBool true); ("type", JStr "integer")];
                   JObj [("in", JStr "header"); ("name", JStr "X-Request-Id");
                         ("required", JBool true); ("type", JStr "string")]]);
     Args.requestBody := Some petBody;
     Args.schemas := None;
     Args.componentSchemas := None;
     Args.errorTransformer := None |}.

(** The same operation with an optional body. *)
Definition optionalBody : RequestBodyObject :=
  {| required := Some false; content := content petBody |}.

Definition optionalArgs : Args.t :=
  {| Args.customFormats := None;
     Args.externalSchemas := None;
     Args.loggingKey := None;
     Args.parameters := Args.parameters petArgs;
     Args.requestBody := Some optionalBody;
     Args.schemas := None;
     Args.componentSchemas := None;
     Args.errorTransformer := None |}.

(** A request with the given content type, body and [id]. *)
Definition petRequest (headerName : string) (contentType : option string)
  (b : option JSON) (id : JSON) : Request :=
  {| body := b;
     headers :=
       Some (match contentType with
             | Some ct => [("X-Request-Id", "r1"); (headerName, ct)]
             | None => [("X-Request-Id", "r1")]
             end);
     params := Some (JObj [("id", id)]);
     query := None |}.

(** A Swagger 2 operation: a required [body] parameter and the [id] of the
    path. *)
Definition legacyArgs : Args.t :=
  {| Args.customFormats := None;
     Args.externalSchemas := None;
     Args.loggingKey := None;
     Args.parameters :=
       Some (JArr [JObj [("in", JStr "body"); ("name", JStr "pet");
                         ("required", JBool true);
                         ("schema", JObj [("type", JStr "object")])];
                   JObj [("in", JStr "path"); ("name", JStr "id");
                         ("required", JBool true); ("type", JStr "integer")]]);
     Args.requestBody := None;
     Args.schemas := None;
     Args.componentSchemas := None;
     Args.errorTransformer := None |}.

(** A request without headers. *)
Definition bareRequest (b : option JSON) (id : JSON) : Request :=
  {| body := b; headers := None;
     params := Some (JObj [("id", id)]); query := None |}.

(** The required [body] parameter of [legacyArgs] together with a
    [requestBody] that is not required. *)
Definition overriddenArgs : Args.t :=
  {| Args.customFormats := None;
     Args.externalSchemas := None;
     Args.loggingKey := None;
     Args.parameters := Args.parameters legacyArgs;
     Args.requestBody := Some optionalBody;
     Args.schemas := None;
     Args.componentSchemas := None;
     Args.errorTransformer := None |}.

(** A request with the given headers and no body. *)
Definition headersRequest (hs : Obj.t string) (id : JSON) : Request :=
  {| body := None; headers := Some hs;
     params := Some (JObj [("id", id)]); query := None |}.

End Examples.

(** Further schemas, arguments and registries. *)
Module Cases.

(** An [errorTransformer] that keeps the message of the public error. *)
Definition messageOnly : ErrorTransformer :=
  fun openapiError _ => JStr (message openapiError).

(** The operation of [Examples.petArgs] with that transformer. *)
Definition transformedArgs : Args.t :=
  {| Args.customFormats := None;
     Args.externalSchemas := None;
     Args.loggingKey := None;
     Args.parameters := Args.parameters Examples.petArgs;
     Args.requestBody := Some Examples.petBody;
     Args.schemas := None;
     Args.componentSchemas := None;
     Args.errorTransformer := Some messageOnly |}.

(** The header schema a parameter converter builds for one required
    header [X-Request-Id]. *)
Definition headerSchema : Obj.t JSON :=
  [("properties",
    JObj [("X-Request-Id", JObj [("type", JStr "string")])]);
   ("required", JArr [JStr "X-Request-Id"])].

(** [{ type: 'string', nullable: true, description: 'a name' }] *)
Definition nullableName : Obj.t JSON :=
  [("type", JStr "string"); ("nullable", JBool true);
   ("description", JStr "a name")].


(** A Swagger 2 definition carrying its id. *)
Definition petDefinition : Obj.t JSON :=
  [("id", JStr "#/definitions/Pet"); ("type", JStr "object")].

(** Arguments whose [parameters] is an object, with a logging key. *)
Definition objectParameters : Args.t :=
  {| Args.customFormats := None;
     Args.externalSchemas := None;
     Args.loggingKey := Some "getPet";
     Args.parameters := Some (JObj []);
     Args.requestBody := None;
     Args.schemas := None;
     Args.componentSchemas := None;
     Args.errorTransformer := None |}.

(** A Swagger 2 operation whose [body] parameter is optional. *)
Definition optionalBodyParameter : Args.t :=
  {| Args.customFormats := None;
     Args.externalSchemas := None;
     Args.loggingKey := None;
     Args.parameters :=
       Some (JArr [JObj [("in", JStr "body"); ("name", JStr "pet");
                         ("schema", JObj [("type", JStr "object")])];
                   JObj [("in", JStr "path"); ("name", JStr "id");
                         ("required", JBool true); ("type", JStr "integer")]]);
     Args.requestBody := None;
     Args.schemas := None;
     Args.componentSchemas := None;
     Args.errorTransformer := None |}.

End Cases.

(* ===================================================================== *)
(** * Properties *)
(* ===================================================================== *)

(** ** Strings and objects *)

Lemma strip_prefix_app (p s : string) : Str.strip_prefix p (p ++ s) = Some s.
Proof.
  induction p as [|a p IH]; simpl; [reflexivity|].
  rewrite Ascii.eqb_refl. exact IH.
Qed.

Lemma strip_prefix_none (p s : string) :
  Str.starts_with p s = false -> Str.strip_prefix p s = None.
Proof.
  revert s. induction p as [|a p IH]; intros s H; simpl in *.
  - discriminate.
  - destruct s as [|b s]; [reflexivity|].
    destruct (Ascii.eqb a b); simpl in H; [apply IH; exact H|reflexivity].
Qed.

Lemma replace_prefix_absent (p r s : string) :
  Str.starts_with p s = false -> Str.replace_prefix p r s = s.
Proof.
  intros H. unfold Str.replace_prefix. rewrite (strip_prefix_none _ _ H).
  reflexivity.
Qed.

Lemma append_assoc (a b c : string) : (a ++ b) ++ c = a ++ (b ++ c).
Proof.
  induction a as [|x a IH]; simpl; [reflexivity|]. rewrite IH. reflexivity.
Qed.

Lemma append_empty_r (a : string) : a ++ "" = a.
Proof.
  induction a as [|x a IH]; simpl; [reflexivity|]. rewrite IH. reflexivity.
Qed.

(** ** The default error mapper *)

Lemma payloadPath_strip (full : string) :
  Str.remove_prefix_opt_dot "instance.body" ("instance" ++ ".body" ++ full)
  = payloadPath full.
Proof.
  unfold Str.remove_prefix_opt_dot.
  change ("instance" ++ ".body" ++ full) with ("instance.body" ++ full).
  rewrite strip_prefix_app. unfold payloadPath.
  destruct full as [|a r]; [reflexivity|].
  destruct a as [[] [] [] [] [] [] [] []]; reflexivity.
Qed.

Lemma path_before_strip (error : ErrorObject) (rest : string) :
  dataPath error = ".body" ++ rest ->
  match missingProperty (e_params error) with
  | Some mp =>
      if String.eqb mp "" then "instance" ++ dataPath error
      else ("instance" ++ dataPath error) ++ "." ++ mp
  | None => "instance" ++ dataPath error
  end
  = "instance" ++ ".body"
      ++ (rest ++ missingSuffix (missingProperty (e_params error))).
Proof.
  intros ->. unfold missingSuffix.
  destruct (missingProperty (e_params error)) as [mp|].
  - destruct (String.eqb mp "").
    + rewrite append_empty_r. reflexivity.
    + rewrite !append_assoc. reflexivity.
  - rewrite append_empty_r. reflexivity.
Qed.

(** C5, as the code has it.  For a violation located in the body whose
    engine path is [.body] followed by the path inside the payload, the
    default mapper gives the path inside the payload (with the name of a
    missing property appended), the envelope member taken off once, and no
    [path] at all when nothing is left; this for payload paths that do not
    themselves begin with [body.].  In particular the engine path
    [.body.items[0].name] maps to [items[0].name]. *)
Theorem toOpenapiValidationError_body_path
  (error : ErrorObject) (rest : string) :
  e_location error = Some "body" ->
  dataPath error = ".body" ++ rest ->
  Str.starts_with "body."
    (payloadPath (rest ++ missingSuffix (missingProperty (e_params error))))
  = false ->
  path (toOpenapiValidationError error)
  = (let rel :=
       payloadPath (rest ++ missingSuffix (missingProperty (e_params error))) in
     if String.eqb rel "" then None else Some rel)
  /\ path (toOpenapiValidationError
             (Examples.bodyViolation ".body.items[0].name"))
     = Some "items[0].name".
Proof.
  intros Hloc Hpath Hrel. split; [|reflexivity].
  unfold toOpenapiValidationError.
  rewrite Hloc. cbn [opt_string_eqb].
  change (String.eqb "body" "body") with true. cbv iota.
  rewrite (path_before_strip error rest Hpath).
  rewrite payloadPath_strip.
  set (rel := payloadPath _) in *.
  unfold stripBodyInfo. cbn [location path opt_string_eqb].
  change (String.eqb "body" "body") with true. cbv iota.
  destruct (String.eqb rel ""); cbn [path]; [reflexivity|].
  rewrite (replace_prefix_absent _ _ _ Hrel). reflexivity.
Qed.

Lemma toOpenapiValidationError_body_path_witness :
  path (toOpenapiValidationError
          {| keyword := "required"; dataPath := ".body.items[0]";
             e_message := "should have required property 'name'";
             e_params := {| missingProperty := Some "name"; ref := None |};
             e_location := Some "body" |})
  = Some "items[0].name".
Proof.
  exact (proj1 (toOpenapiValidationError_body_path
                  {| keyword := "required"; dataPath := ".body.items[0]";
                     e_message := "should have required property 'name'";
                     e_params := {| missingProperty := Some "name";
                                    ref := None |};
                     e_location := Some "body" |}
                  ".items[0]" eq_refl eq_refl eq_refl)).
Defined.

(** C5 as the specification words it: at the engine path
    [.instance.body.items[0].name] the mapper does not give
    [items[0].name]; nothing is taken off that path. *)
Lemma toOpenapiValidationError_instance_path_kept :
  path (toOpenapiValidationError
          (Examples.bodyViolation ".instance.body.items[0].name"))
  = Some "instance.instance.body.items[0].name"
  /\ path (toOpenapiValidationError
             (Examples.bodyViolation ".instance.body.items[0].name"))
     <> Some "items[0].name".
Proof.
  split; [reflexivity|]. intros H. discriminate H.
Qed.

(** A payload member called [body] is taken off as well: the envelope
    prefix is not stripped exactly once there. *)
Lemma toOpenapiValidationError_strips_payload_body :
  path (toOpenapiValidationError (Examples.bodyViolation ".body.body.x"))
  = Some "x".
Proof. reflexivity. Qed.

(** ** The readOnly sanitization *)

Lemma remove_at_last {A : Type} (l : list A) :
  remove_at (pred (length l)) l = removelast l.
Proof.
  induction l as [|x r IH]; [reflexivity|].
  destruct r as [|y r']; [reflexivity|].
  cbn [length pred remove_at]. cbn [length pred] in IH. rewrite IH.
  reflexivity.
Qed.

(** A key that [required] does not hold takes the last entry with it:
    [indexOf] gives [-1] and [splice(-1, 1)] removes from the end. *)
Lemma splice1_absent_removes_last (key : string) (required : list JSON) :
  indexOf key required = (-1)%Z ->
  splice1 (indexOf key required) required = removelast required.
Proof.
  intros ->. unfold splice1. cbn [Z.ltb Z.compare].
  rewrite <- remove_at_last. f_equal. lia.
Qed.

(** C4 at a schema whose readOnly property [id] is not listed in
    [required]: the sanitization empties [required], and [name], which is
    not readOnly, is no longer required. *)
Theorem sanitize_drops_required_of_other_property :
  sanitizeReadonlyPropertiesFromRequired Examples.readOnlyNotRequired
  = Ok (JObj [("properties",
               JObj [("id", JObj [("readOnly", JBool true)]);
                     ("name", JObj [("type", JStr "string")])]);
              ("required", JArr [])]).
Proof. reflexivity. Qed.

(** When the readOnly property is listed, it alone is removed. *)
Lemma sanitize_removes_listed_readOnly :
  sanitizeReadonlyPropertiesFromRequired Examples.readOnlyRequired
  = Ok (JObj [("properties",
               JObj [("id", JObj [("readOnly", JBool true)]);
                     ("name", JObj [("type", JStr "string")])]);
              ("required", JArr [JStr "name"])]).
Proof. reflexivity. Qed.

(** ** The media-type matcher *)

Lemma mediaTypeStep_spec (contentType : string) (st : MatchState)
  (mediaTypeKey : string) :
  mediaTypeStep contentType st mediaTypeKey
  = if Str.contains contentType mediaTypeKey then Return mediaTypeKey
    else Continue (better contentType st mediaTypeKey).
Proof.
  unfold mediaTypeStep, better, score, isSubtypeWildcardOf.
  destruct (Str.contains contentType mediaTypeKey); [reflexivity|].
  destruct (String.eqb_spec mediaTypeKey "*/*") as [->|Hne].
  - remember (nth_error (Str.split "/" contentType) 0) as t0 eqn:Ht0.
    clear Ht0. destruct st as [m [|[|p]]]; destruct t0 as [t|]; cbn;
      try destruct (String.eqb t "*"); reflexivity.
  - cbn [andb].
    destruct (opt_string_eqb (nth_error (Str.split "/" mediaTypeKey) 1) "*");
      cbn [negb andb].
    + destruct (opt_eqb _ _); cbn [andb].
      * unfold subTypeWildCardPoints.
        destruct (Nat.ltb (matchPoints st) 2); reflexivity.
      * destruct st as [m p]; reflexivity.
    + destruct st as [m p]; reflexivity.
Qed.

Lemma mediaTypeLoop_first_containing (contentType : string)
  (keys : list string) (k : string) (st : MatchState) :
  FirstWith (Str.contains contentType) keys k ->
  mediaTypeLoop contentType keys st = Some k.
Proof.
  intros (pre & post & -> & Hk & Hpre). revert st.
  induction Hpre as [|x pre Hx _ IH]; intros st; cbn [app mediaTypeLoop].
  - rewrite mediaTypeStep_spec, Hk. reflexivity.
  - rewrite mediaTypeStep_spec, Hx. apply IH.
Qed.

Lemma mediaTypeLoop_best (contentType : string) (keys : list string) :
  Forall (fun x => Str.contains contentType x = false) keys ->
  forall st,
    (mediaTypeLoop contentType keys st = matched st
     /\ Forall (fun x => score contentType x <= matchPoints st) keys)
    \/ (exists pre k post,
          keys = (pre ++ k :: post)%list
          /\ mediaTypeLoop contentType keys st = Some k
          /\ matchPoints st < score contentType k
          /\ Forall (fun x => score contentType x < score contentType k) pre
          /\ Forall (fun x => score contentType x <= score contentType k) post).
Proof.
  induction 1 as [|x keys Hx _ IH]; intros st; cbn [mediaTypeLoop].
  - left. split; [reflexivity|constructor].
  - rewrite mediaTypeStep_spec, Hx. unfold better.
    destruct (Nat.ltb_spec (matchPoints st) (score contentType x)) as [Hlt|Hge].
    + destruct (IH {| matched := Some x; matchPoints := score contentType x |})
        as [[Hr Hall]|(pre & k & post & -> & Hr & Hp & Hpre & Hpost)];
        cbn [matched matchPoints] in *.
      * right. exists [], x, keys. repeat split; auto.
      * right. exists (x :: pre), k, post. repeat split; auto; try lia.
    + destruct (IH st)
        as [[Hr Hall]|(pre & k & post & -> & Hr & Hp & Hpre & Hpost)].
      * left. split; [exact Hr|]. constructor; [lia|exact Hall].
      * right. exists (x :: pre), k, post. repeat split; auto.
        constructor; [lia|exact Hpre].
Qed.

Lemma split_free (c : ascii) (s : string) :
  free_of c s = true -> Str.split c s = [s].
Proof.
  induction s as [|a r IH]; cbn; [reflexivity|].
  destruct (Ascii.eqb a c); cbn; [discriminate|].
  intros H. rewrite (IH H). reflexivity.
Qed.

Lemma split_app_sep (c : ascii) (a b : string) :
  free_of c a = true ->
  Str.split c (a ++ String c b) = a :: Str.split c b.
Proof.
  induction a as [|x a IH]; cbn.
  - rewrite Ascii.eqb_refl. reflexivity.
  - destruct (Ascii.eqb x c); cbn; [discriminate|].
    intros H. rewrite (IH H). reflexivity.
Qed.

(** For a key and a content type with one slash each, the segment test of
    the code is the literal comparison of the key with [type/*]. *)
Lemma isSubtypeWildcardOf_literal (t s a b : string) :
  free_of "/" t = true -> free_of "/" a = true -> free_of "/" b = true ->
  isSubtypeWildcardOf (t ++ "/" ++ s) (a ++ "/" ++ b)
  = String.eqb (a ++ "/" ++ b) (t ++ "/*").
Proof.
  intros Ht Ha Hb. unfold isSubtypeWildcardOf.
  change (a ++ "/" ++ b) with (a ++ String "/" b).
  change (t ++ "/" ++ s) with (t ++ String "/" s).
  rewrite (split_app_sep "/" a b Ha), (split_app_sep "/" t s Ht).
  rewrite (split_free "/" b Hb). cbn [nth_error opt_string_eqb opt_eqb].
  destruct (String.eqb_spec b "*") as [->|Hb'];
    destruct (String.eqb_spec t a) as [->|Hta]; cbn [andb].
  - symmetry. apply String.eqb_refl.
  - symmetry. apply String.eqb_neq. intros Heq.
    assert (Hs : Str.split "/" (a ++ String "/" "*")
                 = Str.split "/" (t ++ String "/" "*"))
      by (change (t ++ String "/" "*") with (t ++ "/*"); rewrite Heq;
          reflexivity).
    rewrite (split_app_sep "/" a "*" Ha), (split_app_sep "/" t "*" Ht) in Hs.
    injection Hs as Hs. congruence.
  - symmetry. apply String.eqb_neq. intros Heq.
    assert (Hs : Str.split "/" (a ++ String "/" b)
                 = Str.split "/" (a ++ String "/" "*"))
      by (change (a ++ String "/" "*") with (a ++ "/*"); rewrite Heq;
          reflexivity).
    rewrite !(split_app_sep "/" a _ Ha), (split_free "/" b Hb) in Hs.
    cbn in Hs. injection Hs as Hs. congruence.
  - symmetry. apply String.eqb_neq. intros Heq.
    assert (Hs : Str.split "/" (a ++ String "/" b)
                 = Str.split "/" (t ++ String "/" "*"))
      by (change (t ++ String "/" "*") with (t ++ "/*"); rewrite Heq;
          reflexivity).
    rewrite (split_app_sep "/" a _ Ha), (split_app_sep "/" t _ Ht),
      (split_free "/" b Hb) in Hs.
    cbn in Hs. injection Hs as Hs1 Hs2. congruence.
Qed.

Lemma score_wildcard (contentType : string) : 1 <= score contentType "*/*".
Proof.
  unfold score. destruct (isSubtypeWildcardOf contentType "*/*"); cbn; lia.
Qed.

Lemma score_other (contentType k : string) :
  k <> "*/*" -> isSubtypeWildcardOf contentType k = false ->
  score contentType k = 0.
Proof.
  intros Hne Hsub. unfold score. rewrite Hsub.
  destruct (String.eqb_spec k "*/*"); [contradiction|reflexivity].
Qed.

Lemma mediaTypeLoop_wildcard_kept (contentType : string) :
  forall keys st,
    OnlyWildcardMatches contentType keys ->
    matched st = Some "*/*" -> 1 <= matchPoints st ->
    mediaTypeLoop contentType keys st = Some "*/*".
Proof.
  induction keys as [|k rest IH]; intros st Hother Hm Hp;
    cbn [mediaTypeLoop]; [exact Hm|].
  assert (Hrest : OnlyWildcardMatches contentType rest)
    by (intros x Hx; apply Hother; right; exact Hx).
  rewrite mediaTypeStep_spec.
  destruct (String.eqb_spec k "*/*") as [->|Hne].
  - destruct (Str.contains contentType "*/*"); [reflexivity|].
    unfold better.
    destruct (Nat.ltb_spec (matchPoints st) (score contentType "*/*"));
      apply IH; cbn [matched matchPoints]; auto using score_wildcard.
  - destruct (Hother k (or_introl eq_refl) Hne) as [Hc Hs].
    rewrite Hc. unfold better. rewrite (score_other _ _ Hne Hs).
    cbn [Nat.ltb Nat.leb]. apply IH; assumption.
Qed.

Lemma mediaTypeLoop_wildcard (contentType : string) :
  forall keys,
    OnlyWildcardMatches contentType keys -> In "*/*" keys ->
    mediaTypeLoop contentType keys {| matched := None; matchPoints := 0 |}
    = Some "*/*".
Proof.
  induction keys as [|k rest IH]; intros Hother Hin; [destruct Hin|].
  assert (Hrest : OnlyWildcardMatches contentType rest)
    by (intros x Hx; apply Hother; right; exact Hx).
  cbn [mediaTypeLoop]. rewrite mediaTypeStep_spec.
  destruct (String.eqb_spec k "*/*") as [->|Hne].
  - destruct (Str.contains contentType "*/*"); [reflexivity|].
    unfold better. cbn [matchPoints].
    pose proof (score_wildcard contentType) as Hw.
    destruct (Nat.ltb_spec 0 (score contentType "*/*")); [|lia].
    apply mediaTypeLoop_wildcard_kept; cbn [matched matchPoints]; auto.
  - destruct (Hother k (or_introl eq_refl) Hne) as [Hc Hs].
    rewrite Hc. unfold better. rewrite (score_other _ _ Hne Hs).
    cbn [Nat.ltb Nat.leb matchPoints]. apply IH; [exact Hrest|].
    destruct Hin as [Heq|Hin]; [congruence|exact Hin].
Qed.

(** C2.  With no header (or an empty one) nothing is matched.  With a header
    that parses to [contentType]: the first key in registration order that
    contains [contentType] is returned whatever comes before it; when no
    key contains it, the result is the first key with the top score, that
    score being above 0 (a subtype wildcard of the same type scores 2, the
    full wildcard 1), and nothing when every key scores 0.  For keys and
    content types with one slash the subtype wildcard is literally the key
    [type/*].  The three selections of the specification follow. *)
Theorem getSchemaForMediaType_selects
  (parse : string -> M string) (keys : list string)
  (header contentType : string) :
  header <> "" ->
  parse header = Ok contentType ->
  (getSchemaForMediaType parse None keys = Ok None
   /\ getSchemaForMediaType parse (Some "") keys = Ok None)
  /\ (forall k, FirstWith (Str.contains contentType) keys k ->
        getSchemaForMediaType parse (Some header) keys = Ok (Some k))
  /\ (Forall (fun x => Str.contains contentType x = false) keys ->
        exists r,
          getSchemaForMediaType parse (Some header) keys = Ok r
          /\ match r with
             | Some k => FirstBest contentType keys k
             | None => Forall (fun x => score contentType x = 0) keys
             end)
  /\ (forall t s a b,
        free_of "/" t = true -> free_of "/" a = true -> free_of "/" b = true ->
        score (t ++ "/" ++ s) (a ++ "/" ++ b)
        = if String.eqb (a ++ "/" ++ b) (t ++ "/*") then 2
          else if String.eqb (a ++ "/" ++ b) "*/*" then 1 else 0)
  /\ (parse "application/json" = Ok "application/json" ->
        getSchemaForMediaType parse (Some "application/json")
          ["application/json"; "*/*"] = Ok (Some "application/json"))
  /\ (parse "text/x-custom" = Ok "text/x-custom" ->
        getSchemaForMediaType parse (Some "text/x-custom")
          ["text/*"; "*/*"] = Ok (Some "text/*"))
  /\ (OnlyWildcardMatches contentType keys -> In "*/*" keys ->
        getSchemaForMediaType parse (Some header) keys = Ok (Some "*/*")).
Proof.
  intros Hne Hparse.
  assert (Hrun : getSchemaForMediaType parse (Some header) keys
                 = Ok (mediaTypeLoop contentType keys
                         {| matched := None; matchPoints := 0 |})).
  { unfold getSchemaForMediaType.
    destruct (String.eqb_spec header ""); [contradiction|].
    rewrite Hparse. reflexivity. }
  repeat split.
  - intros k Hk. rewrite Hrun.
    rewrite (mediaTypeLoop_first_containing _ _ _ _ Hk). reflexivity.
  - intros Hnone. rewrite Hrun.
    destruct (mediaTypeLoop_best contentType keys Hnone
                {| matched := None; matchPoints := 0 |})
      as [[Hr Hall]|(pre & k & post & Hk & Hr & Hp & Hpre & Hpost)];
      cbn [matched matchPoints] in *.
    + exists None. split; [rewrite Hr; reflexivity|].
      eapply Forall_impl; [|exact Hall]. cbn. intros; lia.
    + exists (Some k). split; [rewrite Hr; reflexivity|].
      exists pre, post. auto.
  - intros t s a b Ht Ha Hb. unfold score.
    rewrite (isSubtypeWildcardOf_literal t s a b Ht Ha Hb). reflexivity.
  - intros H. unfold getSchemaForMediaType. cbn [String.eqb].
    rewrite H. reflexivity.
  - intros H. unfold getSchemaForMediaType.
    change (String.eqb "text/x-custom" "") with false. cbv iota.
    rewrite H. reflexivity.
  - intros Hother Hin. rewrite Hrun.
    rewrite (mediaTypeLoop_wildcard contentType keys Hother Hin). reflexivity.
Qed.

Lemma getSchemaForMediaType_selects_witness :
  getSchemaForMediaType Mini.parse (Some "Text/Plain; charset=utf-8")
    ["application/json"; "*/*"; "text/*"; "text/plain+x"]
  = Ok (Some "text/plain+x").
Proof.
  refine (proj1 (proj2 (getSchemaForMediaType_selects Mini.parse
            ["application/json"; "*/*"; "text/*"; "text/plain+x"]
            "Text/Plain; charset=utf-8" "text/plain" _ eq_refl))
            "text/plain+x" _).
  - discriminate.
  - exists ["application/json"; "*/*"; "text/*"], [].
    repeat split; repeat constructor.
Defined.

(** ** Objects *)

Lemma get_mapValues (g : JSON -> JSON) (k : string) (m : Obj.t JSON) :
  Obj.get k (mapValues g m) = option_map g (Obj.get k m).
Proof.
  induction m as [|[k' v] r IH]; cbn; [reflexivity|].
  destruct (String.eqb k k'); [reflexivity|exact IH].
Qed.

Lemma set_mapValues (g : JSON -> JSON) (k : string) (v : JSON)
  (m : Obj.t JSON) :
  Obj.set k (g v) (mapValues g m) = mapValues g (Obj.set k v m).
Proof.
  induction m as [|[k' v'] r IH]; cbn; [reflexivity|].
  destruct (String.eqb k k'); cbn; [reflexivity|].
  f_equal. exact IH.
Qed.

Lemma delete_mapValues (g : JSON -> JSON) (k : string) (m : Obj.t JSON) :
  Obj.delete k (mapValues g m) = mapValues g (Obj.delete k m).
Proof.
  induction m as [|[k' v'] r IH]; cbn; [reflexivity|].
  destruct (String.eqb k k'); cbn; [exact IH|].
  f_equal. exact IH.
Qed.

Lemma get_In {V : Type} (k : string) (v : V) (m : Obj.t V) :
  Obj.get k m = Some v -> In (k, v) m.
Proof.
  induction m as [|[k' v'] r IH]; cbn; [discriminate|].
  destruct (String.eqb_spec k k') as [->|Hne].
  - intros [= ->]. left. reflexivity.
  - intros H. right. apply IH. exact H.
Qed.

Lemma In_delete {V : Type} (k : string) (kv : string * V) (m : Obj.t V) :
  In kv (Obj.delete k m) -> In kv m.
Proof.
  induction m as [|[k' v'] r IH]; cbn; [tauto|].
  destruct (String.eqb k k'); cbn; intuition.
Qed.

Lemma In_set {V : Type} (k : string) (v : V) (kv : string * V)
  (m : Obj.t V) :
  In kv (Obj.set k v m) -> In kv m \/ kv = (k, v).
Proof.
  induction m as [|[k' v'] r IH]; cbn.
  - intros [H|[]]. right. symmetry. exact H.
  - destruct (String.eqb k k'); cbn.
    + intros [H|H]; [right; symmetry; exact H|left; right; exact H].
    + intros [H|H]; [left; left; exact H|].
      destruct (IH H) as [H'|H']; [left; right; exact H'|right; exact H'].
Qed.

Lemma get_set_eq {V : Type} (k : string) (v : V) (m : Obj.t V) :
  Obj.get k (Obj.set k v m) = Some v.
Proof.
  induction m as [|[k' v'] r IH]; cbn.
  - rewrite String.eqb_refl. reflexivity.
  - destruct (String.eqb k k') eqn:E; cbn.
    + rewrite String.eqb_refl. reflexivity.
    + rewrite E. exact IH.
Qed.

Lemma get_set_ne {V : Type} (k k0 : string) (v : V) (m : Obj.t V) :
  k0 <> k -> Obj.get k0 (Obj.set k v m) = Obj.get k0 m.
Proof.
  intros Hne. induction m as [|[k' v'] r IH]; cbn.
  - destruct (String.eqb_spec k0 k); [contradiction|reflexivity].
  - destruct (String.eqb_spec k k') as [->|Hkk']; cbn.
    + destruct (String.eqb_spec k0 k'); [contradiction|reflexivity].
    + destruct (String.eqb k0 k'); [reflexivity|exact IH].
Qed.

Lemma get_delete_eq {V : Type} (k : string) (m : Obj.t V) :
  Obj.get k (Obj.delete k m) = None.
Proof.
  induction m as [|[k' v'] r IH]; cbn; [reflexivity|].
  destruct (String.eqb k k') eqn:E; cbn; [exact IH|].
  rewrite E. exact IH.
Qed.

Lemma get_delete_ne {V : Type} (k k0 : string) (m : Obj.t V) :
  k0 <> k -> Obj.get k0 (Obj.delete k m) = Obj.get k0 m.
Proof.
  intros Hne. induction m as [|[k' v'] r IH]; cbn; [reflexivity|].
  destruct (String.eqb_spec k k') as [->|Hkk']; cbn.
  - destruct (String.eqb_spec k0 k'); [contradiction|exact IH].
  - destruct (String.eqb k0 k'); [reflexivity|exact IH].
Qed.

Lemma mapM_pointwise {A B : Type} (f : A -> M B) (g : A -> B) (l : list A) :
  (forall x, In x l -> f x = Ok (g x)) -> mapM f l = Ok (map g l).
Proof.
  induction l as [|x r IH]; intros H; cbn; [reflexivity|].
  rewrite (H x (or_introl eq_refl)). cbn.
  rewrite IH by (intros y Hy; apply H; right; exact Hy). reflexivity.
Qed.

(** ** The nullable rewrite *)

Lemma normalize_obj (m : Obj.t JSON) :
  normalize (JObj m) = JObj (nullableStep (mapValues normalize m)).
Proof.
  cbn [normalize]. reflexivity.
Qed.

Lemma normalize_arr (l : list JSON) :
  normalize (JArr l) = JArr (map normalize l).
Proof.
  cbn [normalize]. reflexivity.
Qed.

Lemma height_member (kv : string * JSON) (m : Obj.t JSON) :
  In kv m -> height (snd kv) < height (JObj m).
Proof.
  cbn [height]. induction m as [|kv' r IH]; intros H; [destruct H|].
  destruct H as [->|H]; [lia|]. specialize (IH H). lia.
Qed.

Lemma height_element (x : JSON) (l : list JSON) :
  In x l -> height x < height (JArr l).
Proof.
  cbn [height]. induction l as [|y r IH]; intros H; [destruct H|].
  destruct H as [->|H]; [lia|]. specialize (IH H). lia.
Qed.

Lemma truthy_normalize (v : JSON) : truthy (normalize v) = truthy v.
Proof. destruct v; reflexivity. Qed.

Lemma is_true_normalize (o : option JSON) :
  is_true (option_map normalize o) = is_true o.
Proof. destruct o as [[]|]; reflexivity. Qed.

Lemma nullableStep_plain (type enum : JSON) :
  nullableStep [("type", type); ("enum", enum)]
  = [("type", type); ("enum", enum)].
Proof.
  unfold nullableStep. cbn. rewrite Bool.andb_false_r. reflexivity.
Qed.

Lemma normalize_alternative (type enum : JSON) :
  normalize (JArr [nullBranch; typeEnumBranch type enum])
  = JArr [nullBranch; typeEnumBranch (normalize type) (normalize enum)].
Proof.
  rewrite normalize_arr. cbn [map]. unfold typeEnumBranch.
  rewrite normalize_obj. cbn [mapValues map fst snd].
  rewrite nullableStep_plain. reflexivity.
Qed.

(** The rewrite of a node and the normalization of its members commute. *)
Lemma nullableStep_normalize (m : Obj.t JSON) :
  mapValues normalize (nullableStep m)
  = nullableStep (mapValues normalize m).
Proof.
  unfold nullableStep.
  rewrite !get_mapValues.
  destruct (Obj.get "type" m) as [type|]; cbn [option_map]; [|reflexivity].
  rewrite truthy_normalize, is_true_normalize.
  destruct (truthy type && is_true (Obj.get "nullable" m)); [|reflexivity].
  destruct (Obj.get "enum" m) as [enum|]; cbn [option_map].
  - rewrite truthy_normalize. destruct (truthy enum).
    + rewrite <- !delete_mapValues. do 3 f_equal.
      rewrite <- set_mapValues. f_equal. apply normalize_alternative.
    + rewrite <- delete_mapValues, <- set_mapValues. do 2 f_equal.
  - rewrite <- delete_mapValues, <- set_mapValues. do 2 f_equal.
Qed.

Lemma nullableStep_members (m : Obj.t JSON) (kv : string * JSON) :
  In kv (nullableStep m) ->
  In kv m
  \/ (exists type enum,
        In ("type", type) m /\ In ("enum", enum) m
        /\ snd kv = JArr [nullBranch; typeEnumBranch type enum])
  \/ (exists type,
        In ("type", type) m /\ snd kv = JArr [type; JStr "null"]).
Proof.
  unfold nullableStep.
  destruct (Obj.get "type" m) as [type|] eqn:Ht; [|tauto].
  apply get_In in Ht.
  destruct (truthy type && is_true (Obj.get "nullable" m)); [|tauto].
  assert (Htype :
    In kv (Obj.delete "nullable"
             (Obj.set "type" (JArr [type; JStr "null"]) m)) ->
    In kv m \/ (exists type enum,
        In ("type", type) m /\ In ("enum", enum) m
        /\ snd kv = JArr [nullBranch; typeEnumBranch type enum])
    \/ (exists type,
        In ("type", type) m /\ snd kv = JArr [type; JStr "null"])).
  { intros H. apply In_delete, In_set in H.
    destruct H as [H| ->]; [tauto|]. right. right. exists type. auto. }
  destruct (Obj.get "enum" m) as [enum|] eqn:He; [|exact Htype].
  apply get_In in He.
  destruct (truthy enum); [|exact Htype].
  intros H. apply In_delete, In_delete, In_delete, In_set in H.
  destruct H as [H| ->]; [tauto|]. right. left. exists type, enum. auto.
Qed.

Lemma visitMember_normalize (f : nat) (x : JSON) :
  (forall fuel, 3 * height x < fuel -> x <> JNull ->
     recursiveTransformOpenAPIV3Definitions fuel x = Ok (normalize x)) ->
  3 * height x < f ->
  visitMember (recursiveTransformOpenAPIV3Definitions f) x
  = Ok (normalize x).
Proof.
  intros IH Hf. unfold visitMember.
  destruct x; cbn [is_object]; try reflexivity;
    apply IH; solve [exact Hf | discriminate].
Qed.

(** The transformation ends on every tree, within a fuel of three times its
    height, and what it builds top-down is the bottom-up [normalize]. *)
Lemma recursiveTransform_normalize (o : JSON) :
  forall fuel,
    3 * height o < fuel -> o <> JNull ->
    recursiveTransformOpenAPIV3Definitions fuel o = Ok (normalize o).
Proof.
  induction o as [| | | |l IH|m IH] using JSON_ind; intros fuel Hf Hn;
    (destruct fuel as [|f]; [lia|]);
    cbn [recursiveTransformOpenAPIV3Definitions];
    try reflexivity; try contradiction.
  - rewrite Forall_forall in IH.
    rewrite (mapM_pointwise _ normalize).
    + cbn [bind]. rewrite normalize_arr. reflexivity.
    + intros x Hx. apply visitMember_normalize; [apply IH; exact Hx|].
      pose proof (height_element x l Hx). lia.
  - rewrite Forall_forall in IH.
    assert (Hmember : forall k v g, In (k, v) m -> 3 * height (JObj m) < g + 3 ->
              visitMember (recursiveTransformOpenAPIV3Definitions g) v
              = Ok (normalize v)).
    { intros k v g Hin Hg. apply visitMember_normalize.
      - apply (IH (k, v) Hin).
      - pose proof (height_member (k, v) m Hin) as Hh. cbn [snd] in Hh. lia. }
    rewrite (mapM_pointwise _ (fun kv => (fst kv, normalize (snd kv)))).
    + cbn [bind]. rewrite normalize_obj, <- nullableStep_normalize.
      reflexivity.
    + intros kv Hkv.
      assert (Hv : visitMember (recursiveTransformOpenAPIV3Definitions f)
                     (snd kv) = Ok (normalize (snd kv)));
        [|rewrite Hv; reflexivity].
      destruct (nullableStep_members m kv Hkv)
        as [Hin|[(type & enum & Ht & He & ->)|(type & Ht & ->)]].
      * destruct kv as [k v]. apply (Hmember k v f Hin). lia.
      * pose proof (height_member _ m Ht) as Hht. cbn [snd] in Hht.
        destruct f as [|[|f2]]; [lia|lia|].
        rewrite normalize_alternative.
        cbn [visitMember is_object recursiveTransformOpenAPIV3Definitions
             mapM bind nullBranch typeEnumBranch].
        rewrite nullableStep_plain.
        cbn [nullableStep Obj.get String.eqb Ascii.eqb Bool.eqb truthy negb
             andb is_true mapM bind fst snd visitMember is_object].
        rewrite (Hmember "type" type f2 Ht) by lia.
        rewrite (Hmember "enum" enum f2 He) by lia.
        reflexivity.
      * destruct f as [|f1].
        { pose proof (height_member _ m Ht) as Hht. cbn [snd] in Hht. lia. }
        rewrite normalize_arr.
        cbn [visitMember is_object recursiveTransformOpenAPIV3Definitions
             mapM bind map normalize].
        rewrite (Hmember "type" type f1 Ht) by lia.
        reflexivity.
Qed.

Lemma JSON_eqb_eq (a : JSON) : forall c, JSON_eqb a c = true <-> a = c.
Proof.
  induction a as [| | | |l IH|m IH] using JSON_ind; intros c;
    destruct c; cbn [JSON_eqb];
    try (split; [discriminate|discriminate]); try (split; reflexivity).
  - rewrite Bool.eqb_true_iff. split; congruence.
  - rewrite Z.eqb_eq. split; congruence.
  - rewrite String.eqb_eq. split; congruence.
  - rename l0 into l'. revert l'.
    induction IH as [|x r Hx _ IHr]; intros l'; destruct l' as [|y r'];
      try (split; [discriminate|discriminate]); try (split; reflexivity).
    rewrite Bool.andb_true_iff, Hx, IHr. split.
    + intros [-> [= ->]]. reflexivity.
    + intros [= -> ->]. auto.
  - rename m0 into m'. revert m'.
    induction IH as [|[k x] r Hx _ IHr]; intros m'; destruct m' as [|[k' y] r'];
      try (split; [discriminate|discriminate]); try (split; reflexivity).
    cbn [snd] in Hx.
    rewrite !Bool.andb_true_iff, String.eqb_eq, Hx, IHr. split.
    + intros [[-> ->] [= ->]]. reflexivity.
    + intros [= -> -> ->]. auto.
Qed.

Lemma existsb_JSON_eqb (v : JSON) (l : list JSON) :
  existsb (JSON_eqb v) l = true <-> In v l.
Proof.
  rewrite existsb_exists. split.
  - intros (x & Hx & Heq). apply JSON_eqb_eq in Heq. subst. exact Hx.
  - intros H. exists v. split; [exact H|]. apply JSON_eqb_eq. reflexivity.
Qed.

(** What the two-branch alternative accepts: exactly one branch has to. *)
Lemma accepts_alternative (type : JSON) (l : list JSON) (v : JSON) :
  accepts (nullableEnumAlternative type (JArr l)) v
  = xorb (typeNameOk "null" v) (typeOk type v && existsb (JSON_eqb v) l).
Proof.
  unfold nullableEnumAlternative, typeEnumBranch.
  cbn [accepts String.eqb Ascii.eqb Bool.eqb typeOk].
  destruct (typeNameOk "null" v), (typeOk type v),
    (existsb (JSON_eqb v) l); reflexivity.
Qed.

Lemma nullableStep_enum (m : Obj.t JSON) (type enum : JSON) :
  Obj.get "type" m = Some type -> truthy type = true ->
  Obj.get "nullable" m = Some (JBool true) ->
  Obj.get "enum" m = Some enum -> truthy enum = true ->
  nullableStep m
  = Obj.delete "nullable"
      (Obj.delete "enum"
         (Obj.delete "type"
            (Obj.set "oneOf" (JArr [nullBranch; typeEnumBranch type enum]) m))).
Proof.
  intros Ht Htt Hn He Het. unfold nullableStep.
  rewrite Ht, Htt, Hn, He, Het. reflexivity.
Qed.

Lemma normalize_scalar (v : JSON) : is_scalar v = true -> normalize v = v.
Proof. destruct v; cbn; intros H; solve [reflexivity|discriminate]. Qed.

Lemma normalize_scalars (l : list JSON) :
  forallb is_scalar l = true -> normalize (JArr l) = JArr l.
Proof.
  intros H. rewrite normalize_arr. f_equal.
  induction l as [|x r IH]; [reflexivity|].
  cbn [forallb] in H. apply Bool.andb_true_iff in H as [Hx Hr].
  cbn [map]. rewrite (normalize_scalar x Hx), (IH Hr). reflexivity.
Qed.

Lemma transform_normalize (schema : JSON) (fuel : nat) :
  3 * height schema < fuel -> schema <> JNull ->
  transformOpenAPIV3Definitions fuel schema = Ok (normalize schema).
Proof.
  intros Hf Hn. unfold transformOpenAPIV3Definitions.
  destruct schema; try reflexivity; try contradiction;
    apply recursiveTransform_normalize; assumption.
Qed.

(** C3, as the code has it.  A node with a truthy [type], [nullable: true]
    and a truthy [enum] comes out of the transformation with [oneOf] set to
    [[{type:'null'}, {type, enum}]], where [type] and [enum] are the
    node's own after the same transformation has gone through them (so
    unchanged when they hold no objects), without [type], [enum] and
    [nullable], and with every other member transformed in turn; the
    transformation ends on every schema and rewrites the nodes at every
    depth, under objects and arrays alike.  The two-branch alternative
    accepts [null] unless the declared type admits it too, accepts every
    enum value of the declared type and rejects every value outside
    {null} and the enum. *)
Theorem nullable_enum_rewritten
  (m : Obj.t JSON) (type enum : JSON) (fuel : nat) :
  Obj.get "type" m = Some type -> truthy type = true ->
  Obj.get "nullable" m = Some (JBool true) ->
  Obj.get "enum" m = Some enum -> truthy enum = true ->
  3 * height (JObj m) < fuel ->
  (exists m',
     transformOpenAPIV3Definitions fuel (JObj m) = Ok (JObj m')
     /\ Obj.get "oneOf" m'
        = Some (JArr [nullBranch;
                      typeEnumBranch (normalize type) (normalize enum)])
     /\ Obj.get "type" m' = None
     /\ Obj.get "enum" m' = None
     /\ Obj.get "nullable" m' = None
     /\ (forall k, k <> "type" -> k <> "enum" -> k <> "nullable" ->
                   k <> "oneOf" ->
           Obj.get k m' = option_map normalize (Obj.get k m)))
  /\ (is_scalar type = true -> normalize type = type)
  /\ (forall l, enum = JArr l -> forallb is_scalar l = true ->
        normalize enum = enum)
  /\ (forall schema fuel',
        3 * height schema < fuel' -> schema <> JNull ->
        transformOpenAPIV3Definitions fuel' schema = Ok (normalize schema))
  /\ (forall o, normalize (JObj o) = JObj (nullableStep (mapValues normalize o)))
  /\ (forall l, normalize (JArr l) = JArr (map normalize l))
  /\ (forall t l v,
        (typeOk t JNull = false ->
           accepts (nullableEnumAlternative t (JArr l)) JNull = true)
        /\ (v <> JNull -> In v l -> typeOk t v = true ->
              accepts (nullableEnumAlternative t (JArr l)) v = true)
        /\ (v <> JNull -> ~ In v l ->
              accepts (nullableEnumAlternative t (JArr l)) v = false)).
Proof.
  intros Ht Htt Hn He Het Hf.
  repeat match goal with |- _ /\ _ => split end.
  - exists (nullableStep (mapValues normalize m)).
    split.
    { rewrite transform_normalize by (assumption || discriminate).
      rewrite normalize_obj. reflexivity. }
    rewrite (nullableStep_enum (mapValues normalize m)
               (normalize type) (normalize enum)).
    + repeat match goal with |- _ /\ _ => split end.
      * rewrite !get_delete_ne by discriminate. apply get_set_eq.
      * rewrite !get_delete_ne by discriminate. apply get_delete_eq.
      * rewrite get_delete_ne by discriminate. apply get_delete_eq.
      * apply get_delete_eq.
      * intros k H1 H2 H3 H4.
        rewrite !get_delete_ne, get_set_ne by assumption.
        apply get_mapValues.
    + rewrite get_mapValues, Ht. reflexivity.
    + rewrite truthy_normalize. exact Htt.
    + rewrite get_mapValues, Hn. reflexivity.
    + rewrite get_mapValues, He. reflexivity.
    + rewrite truthy_normalize. exact Het.
  - apply normalize_scalar.
  - intros l -> Hl. apply normalize_scalars. exact Hl.
  - intros schema fuel'. apply transform_normalize.
  - apply normalize_obj.
  - apply normalize_arr.
  - intros t l v. repeat split.
    + intros H. rewrite accepts_alternative. cbn [typeNameOk String.eqb].
      rewrite H. reflexivity.
    + intros Hv Hin Hok. rewrite accepts_alternative, Hok.
      apply existsb_JSON_eqb in Hin. rewrite Hin.
      destruct v; [contradiction|..]; reflexivity.
    + intros Hv Hin. rewrite accepts_alternative.
      assert (Hex : existsb (JSON_eqb v) l = false).
      { destruct (existsb (JSON_eqb v) l) eqn:E; [|reflexivity].
        apply existsb_JSON_eqb in E. contradiction. }
      rewrite Hex, Bool.andb_false_r.
      destruct v; [contradiction|..]; reflexivity.
Qed.

Lemma nullable_enum_rewritten_witness :
  exists m',
    transformOpenAPIV3Definitions 7 (JObj Examples.colourNode) = Ok (JObj m')
    /\ Obj.get "oneOf" m'
       = Some (JArr [nullBranch;
                     typeEnumBranch (JStr "string")
                       (JArr [JStr "red"; JStr "green"])])
    /\ Obj.get "type" m' = None
    /\ Obj.get "enum" m' = None
    /\ Obj.get "nullable" m' = None
    /\ (forall k, k <> "type" -> k <> "enum" -> k <> "nullable" ->
                  k <> "oneOf" ->
          Obj.get k m'
          = option_map normalize (Obj.get k Examples.colourNode)).
Proof.
  refine (proj1 (nullable_enum_rewritten Examples.colourNode
                   (JStr "string") (JArr [JStr "red"; JStr "green"]) 7
                   eq_refl eq_refl eq_refl eq_refl eq_refl _)).
  cbn. lia.
Defined.

(** C3 as the specification words it.  An enum that lists an object which
    itself looks like a nullable node does not survive as the original
    enum: the listed object is rewritten, and the normalized schema no
    longer accepts the original enum value.  And an enum value that is not
    of the declared type is not accepted either. *)
Lemma nullable_enum_not_original :
  (transformOpenAPIV3Definitions 10 Examples.enumOfObjects
   = Ok (JObj [("oneOf",
                JArr [nullBranch;
                      typeEnumBranch (JStr "object")
                        (JArr [JObj [("type",
                                      JArr [JStr "a"; JStr "null"])]])])])
   /\ transformOpenAPIV3Definitions 10 Examples.enumOfObjects
      <> Ok (JObj [("oneOf",
                    JArr [nullBranch;
                          typeEnumBranch (JStr "object")
                            (JArr [JObj [("type", JStr "a");
                                         ("nullable", JBool true)]])])])
   /\ accepts (JObj [("oneOf",
                JArr [nullBranch;
                      typeEnumBranch (JStr "object")
                        (JArr [JObj [("type",
                                      JArr [JStr "a"; JStr "null"])]])])])
        (JObj [("type", JStr "a"); ("nullable", JBool true)]) = false)
  /\ (transformOpenAPIV3Definitions 10 Examples.enumOffType
      = Ok (nullableEnumAlternative (JStr "string") (JArr [JNum 1]))
      /\ accepts (nullableEnumAlternative (JStr "string") (JArr [JNum 1]))
           (JNum 1) = false).
Proof.
  repeat split; try reflexivity. intros H. discriminate H.
Qed.

(** ** The reference resolver *)

Lemma mapM_members_get {A : Type} (g : A -> M A) (k : string) (a : A) :
  forall (pm pm' : Obj.t A),
    mapM (fun kv => p <- g (snd kv) ;; Ok (fst kv, p)) pm = Ok pm' ->
    Obj.get k pm = Some a ->
    exists a', g a = Ok a' /\ Obj.get k pm' = Some a'.
Proof.
  induction pm as [|[k0 a0] r IH]; intros pm' Hmap Hget; cbn in *;
    [discriminate|].
  destruct (g a0) as [b| |] eqn:Hg; cbn in Hmap; try discriminate.
  destruct (mapM _ r) as [r'| |] eqn:Hr; cbn in Hmap; try discriminate.
  injection Hmap as <-. cbn [Obj.get].
  destruct (String.eqb k k0).
  - injection Hget as <-. exists b. auto.
  - apply (IH r' eq_refl Hget).
Qed.

Lemma sanitize_without_properties (p : Obj.t JSON) :
  Obj.has "properties" p = false ->
  sanitizeReadonlyPropertiesFromRequired (JObj p) = Ok (JObj p).
Proof.
  unfold Obj.has, sanitizeReadonlyPropertiesFromRequired.
  destruct (Obj.get "properties" p); [discriminate|reflexivity].
Qed.

(** On a reference node the resolver rebinds its local variable only: the
    node itself is as before, whatever the reference resolves to. *)
Lemma resolve_reference_in_place (E : Engine) (fuel : nat) (v : AjvT E)
  (p : Obj.t JSON) (r : JSON * JSON) :
  Obj.has "properties" p = false -> Obj.has "$ref" p = true ->
  resolveAndSanitizeRequestBodySchema E fuel v (JObj p) = Ok r ->
  fst r = JObj p.
Proof.
  unfold Obj.has. intros Hp Hr.
  destruct (Obj.get "properties" p) eqn:Hprops; [discriminate|].
  destruct (Obj.get "$ref" p) as [reference|] eqn:Href; [|discriminate].
  destruct fuel as [|f]; cbn [resolveAndSanitizeRequestBodySchema];
    [discriminate|].
  unfold resolveNode. rewrite Hprops, Href.
  match goal with
  | |- bind ?c _ = _ -> _ => destruct c as [[copied|]| |]
  end; cbn [bind]; intros H; try discriminate; injection H as <-; reflexivity.
Qed.

Lemma sanitize_keeps_member (k : string) (p : Obj.t JSON) (x : JSON) :
  k <> "required" ->
  sanitizeReadonlyPropertiesFromRequired (JObj p) = Ok x ->
  exists p1, x = JObj p1 /\ Obj.get k p1 = Obj.get k p.
Proof.
  intros Hk. unfold sanitizeReadonlyPropertiesFromRequired.
  destruct (Obj.get "properties" p) as [properties|];
    [|intros [= <-]; eauto].
  destruct (Obj.get "required" p) as [req|]; [|intros [= <-]; eauto].
  destruct (entries properties) as [es| |]; cbn [bind]; try discriminate.
  destruct (mapM _ es) as [marks| |]; cbn [bind]; try discriminate.
  destruct (somes marks) as [|key keys]; [intros [= <-]; eauto|].
  destruct req; try discriminate.
  intros [= <-]. eexists. split; [reflexivity|].
  apply get_set_ne. exact Hk.
Qed.

(** Whatever the resolver does to a node that has a [$ref], the node keeps
    that member. *)
Lemma resolve_keeps_ref_member (E : Engine) (fuel : nat) (v : AjvT E)
  (p : Obj.t JSON) (r : JSON * JSON) :
  Obj.has "$ref" p = true ->
  resolveAndSanitizeRequestBodySchema E fuel v (JObj p) = Ok r ->
  exists p2, fst r = JObj p2 /\ Obj.get "$ref" p2 = Obj.get "$ref" p.
Proof.
  intros Href H.
  destruct (Obj.has "properties" p) eqn:Hp.
  - destruct fuel as [|f]; cbn [resolveAndSanitizeRequestBodySchema] in H;
      [discriminate|].
    unfold resolveNode, Obj.has in *.
    destruct (Obj.get "properties" p) as [properties|]; [|discriminate].
    match type of H with
    | bind ?c _ = _ => destruct c as [properties'| |]
    end; cbn [bind] in H; try discriminate.
    injection H as <-. cbn [fst]. eexists. split; [reflexivity|].
    apply get_set_ne. discriminate.
  - rewrite (resolve_reference_in_place E fuel v p r Hp Href H). eauto.
Qed.

(** C9.  After the resolver has returned from a node with [properties],
    a property that is a reference node is stored unresolved: it still has
    its [$ref], and a node that is nothing but a reference is stored as it
    was; the resolved copy is not written back. *)
Theorem resolve_keeps_property_reference (E : Engine) (fuel : nat)
  (v : AjvT E) (m pm p : Obj.t JSON) (k : string) (after returned : JSON) :
  Obj.get "properties" m = Some (JObj pm) ->
  Obj.get k pm = Some (JObj p) ->
  Obj.has "$ref" p = true ->
  resolveAndSanitizeRequestBodySchema E fuel v (JObj m)
  = Ok (after, returned) ->
  exists m' pm' p',
    after = JObj m' /\ returned = JObj m'
    /\ Obj.get "properties" m' = Some (JObj pm')
    /\ Obj.get k pm' = Some (JObj p')
    /\ Obj.get "$ref" p' = Obj.get "$ref" p
    /\ (Obj.has "properties" p = false -> p' = p).
Proof.
  intros Hprops Hk Href Hrun.
  destruct fuel as [|f]; cbn [resolveAndSanitizeRequestBodySchema] in Hrun;
    [discriminate|].
  unfold resolveNode in Hrun. rewrite Hprops in Hrun.
  match type of Hrun with
  | bind (bind ?c _) _ = _ => destruct c as [pm'| |] eqn:Hmap
  end; cbn [bind] in Hrun; try discriminate.
  injection Hrun as <- <-.
  destruct (mapM_members_get
              (fun prop =>
                 prop1 <- sanitizeReadonlyPropertiesFromRequired prop ;;
                 r <- resolveAndSanitizeRequestBodySchema E f v prop1 ;;
                 Ok (fst r))
              k (JObj p) pm pm' Hmap Hk) as (a' & Hvisit & Hget).
  destruct (sanitizeReadonlyPropertiesFromRequired (JObj p))
    as [prop1| |] eqn:Hsan; cbn [bind] in Hvisit; try discriminate.
  destruct (sanitize_keeps_member "$ref" p prop1 ltac:(discriminate) Hsan)
    as (p1 & -> & Hp1).
  destruct (resolveAndSanitizeRequestBodySchema E f v (JObj p1))
    as [r| |] eqn:Hr; cbn [bind] in Hvisit; try discriminate.
  injection Hvisit as <-.
  assert (Href1 : Obj.has "$ref" p1 = true)
    by (unfold Obj.has in *; rewrite Hp1; exact Href).
  destruct (resolve_keeps_ref_member E f v p1 r Href1 Hr) as (p2 & Hfst & Hp2).
  rewrite Hfst in Hget.
  exists (Obj.set "properties" (JObj pm') m), pm', p2.
  repeat split; [apply get_set_eq|exact Hget|congruence|].
  intros Hnp. rewrite (sanitize_without_properties p Hnp) in Hsan.
  injection Hsan as <-.
  rewrite (resolve_reference_in_place E f v p r Hnp Href Hr) in Hfst.
  congruence.
Qed.

Lemma resolve_keeps_property_reference_witness :
  resolveAndSanitizeRequestBodySchema Mini.engine 5 Examples.registry
    (JObj Examples.ownerSchema)
  = Ok (JObj Examples.ownerSchema, JObj Examples.ownerSchema)
  /\ exists m' pm' p',
       JObj Examples.ownerSchema = JObj m'
       /\ JObj Examples.ownerSchema = JObj m'
       /\ Obj.get "properties" m' = Some (JObj pm')
       /\ Obj.get "pet" pm' = Some (JObj p')
       /\ Obj.get "$ref" p' = Obj.get "$ref" Examples.petReference
       /\ (Obj.has "properties" Examples.petReference = false ->
           p' = Examples.petReference).
Proof.
  split; [reflexivity|].
  exact (resolve_keeps_property_reference Mini.engine 5 Examples.registry
           Examples.ownerSchema [("pet", JObj Examples.petReference)]
           Examples.petReference "pet"
           (JObj Examples.ownerSchema) (JObj Examples.ownerSchema)
           eq_refl eq_refl eq_refl eq_refl).
Defined.

(** The same reference, given to the resolver as its argument, is resolved:
    the returned value is the registered schema, the argument is as it was. *)
Lemma resolve_reference_returns_copy :
  resolveAndSanitizeRequestBodySchema Mini.engine 5 Examples.registry
    (JObj Examples.petReference)
  = Ok (JObj Examples.petReference,
        JObj [("type", JStr "object");
              ("properties", JObj [("name", JObj [("type", JStr "string")])])]).
Proof. reflexivity. Qed.

(** ** The validator *)

Ltac bind_inv H :=
  repeat match type of H with
         | bind ?c _ = Ok _ =>
             let x := fresh "x" in
             let Hx := fresh "Hx" in
             destruct c as [x| |] eqn:Hx; cbn [bind] in H;
             [|discriminate H|discriminate H]
         | (let '(_, _) := ?p in _) = Ok _ => destruct p
         end.

Lemma registerSchema_keeps_body (E : Engine) (v v' : AjvT E)
  (bvs : Obj.t JSON) (o : option (Obj.t JSON)) (schema : JSON) :
  registerSchema E (v, Some bvs) schema = Ok (v', o) -> o <> None.
Proof.
  unfold registerSchema. intros H. bind_inv H.
  destruct x as [id|]; [|injection H as <- <-; discriminate].
  destruct (truthy id); [|injection H as <- <-; discriminate].
  bind_inv H. injection H as <- <-.
  destruct id; try discriminate.
  destruct (localDefinition s) as [[group name]|]; [|discriminate].
  match goal with |- context [match ?d with JObj _ => _ | _ => _ end] =>
    destruct d end; discriminate.
Qed.

Lemma foldM_registerSchema_keeps_body (E : Engine) (l : list JSON) :
  forall (v v' : AjvT E) (bvs : Obj.t JSON) (o : option (Obj.t JSON)),
    foldM (registerSchema E) l (v, Some bvs) = Ok (v', o) -> o <> None.
Proof.
  induction l as [|s r IH]; intros v v' bvs o H; cbn [foldM] in H.
  - injection H as <- <-. discriminate.
  - destruct (registerSchema E (v, Some bvs) s) as [[v1 o1]| |] eqn:Hs;
      cbn [bind] in H; try discriminate.
    pose proof (registerSchema_keeps_body E v v1 bvs o1 s Hs) as Ho1.
    destruct o1 as [bvs1|]; [|contradiction].
    apply (IH v1 v' bvs1 o H).
Qed.

Lemma registerSchemas_keeps_body (E : Engine) (args : Args.t)
  (v v' : AjvT E) (bvs : Obj.t JSON) (o : option (Obj.t JSON)) :
  registerSchemas E args v (Some bvs) = Ok (v', o) -> o <> None.
Proof.
  unfold registerSchemas. cbv zeta. intros H.
  assert (Hfrom :
    match Args.schemas args with
    | Some (JArr l) => foldM (registerSchema E) l (v, Some bvs)
    | Some s =>
        if truthy s then
          Ok (v, option_map
                   (fun bvs =>
                      Obj.set "components" (JObj [("schemas", s)])
                        (Obj.set "definitions" s bvs))
                   (Some bvs))
        else Ok (v, Some bvs)
    | None => Ok (v, Some bvs)
    end = Ok (v', o) -> o <> None).
  { clear H. intros H.
    destruct (Args.schemas args) as [s|];
      [|injection H as <- <-; discriminate].
    destruct s;
      try (destruct (truthy _); injection H as <- <-; discriminate).
    eapply foldM_registerSchema_keeps_body; exact H. }
  destruct (Args.componentSchemas args) as [cs|]; [|exact (Hfrom H)].
  destruct (truthy cs); [|exact (Hfrom H)].
  bind_inv H. injection H as <- <-. discriminate.
Qed.

(** What the constructor leaves in the members that [validate] reads. *)
Lemma constructor_fields (E : Engine) (fuel : nat) (args : Args.t)
  (this : OpenAPIRequestValidator) :
  new_OpenAPIRequestValidator E fuel args = Ok this ->
  requestBody this = Args.requestBody args
  /\ (forall rb, Args.requestBody args = Some rb ->
        isBodyRequired this
        = match required rb with Some b => b | None => false end)
  /\ errorMapper this
     = match Args.errorTransformer args with
       | Some errorTransformer => extendedErrorMapper errorTransformer
       | None => defaultErrorMapper
       end
  /\ (truthy_opt (bodySchema this) = true -> validateBody this <> None).
Proof.
  unfold new_OpenAPIRequestValidator. cbv zeta. intros H.
  bind_inv H. injection H as <-.
  cbn [requestBody isBodyRequired errorMapper bodySchema validateBody].
  repeat split.
  - intros rb Hrb. rewrite Hrb. reflexivity.
  - intros Hbody.
    match goal with
    | Hr : registerSchemas _ _ _ _ = Ok (_, ?o),
      Hc : match ?o with Some _ => _ | None => _ end = Ok ?f |- ?f <> None =>
        rewrite Hbody in Hr;
        destruct (ps_body _) as [b0|]; [|discriminate Hbody];
        pose proof (registerSchemas_keeps_body _ _ _ _ _ _ Hr) as Ho;
        destruct o as [bvs|]; [|contradiction];
        bind_inv Hc; injection Hc as <-; discriminate
    end.
Qed.

Lemma partStep_passes (loc : string) (f : option ValidateFunction)
  (data : option JSON) (st : Locals) :
  passes f data -> partStep loc f data st = st.
Proof.
  intros H. unfold partStep. destruct f as [g|]; [|reflexivity].
  unfold pushErrors. rewrite (H g eq_refl). destruct st; reflexivity.
Qed.

Lemma getSchemaForMediaType_parsed (parse : string -> M string)
  (header contentType : string) (keys : list string) :
  header <> "" -> parse header = Ok contentType ->
  getSchemaForMediaType parse (Some header) keys
  = Ok (mediaTypeLoop contentType keys
          {| matched := None; matchPoints := 0 |}).
Proof.
  intros Hne Hparse. unfold getSchemaForMediaType.
  destruct (String.eqb_spec header ""); [contradiction|].
  rewrite Hparse. reflexivity.
Qed.

(** C1.  One call gives one outcome, by the first of these that applies:
    field errors collected from any part give status 400 with the mapped
    errors, also when a missing-body error was recorded; otherwise a
    recorded missing-body error gives status 400 with that one error;
    otherwise a recorded media-type error gives status 415 with that one
    error; otherwise nothing is returned.  When the steps before the
    classification throw, [validate] throws and returns nothing. *)
Theorem validate_classification (E : Engine)
  (this : OpenAPIRequestValidator) (request : Request) :
  match collect E this request with
  | Ok st =>
      (l_errors st <> [] ->
         validate E this request
         = Ok (Some {| status := 400;
                       errors := map (errorMapper this) (l_errors st) |}))
      /\ (l_errors st <> [] -> l_schemaError st <> None ->
            validate E this request
            = Ok (Some {| status := 400;
                          errors := map (errorMapper this) (l_errors st) |}))
      /\ (forall schemaError,
            l_errors st = [] -> l_schemaError st = Some schemaError ->
            validate E this request
            = Ok (Some {| status := 400; errors := [Plain schemaError] |}))
      /\ (forall mediaTypeError,
            l_errors st = [] -> l_schemaError st = None ->
            l_mediaTypeError st = Some mediaTypeError ->
            validate E this request
            = Ok (Some {| status := 415; errors := [Plain mediaTypeError] |}))
      /\ (l_errors st = [] -> l_schemaError st = None ->
          l_mediaTypeError st = None ->
            validate E this request = Ok None)
  | Throw e => validate E this request = Throw e
  | Diverge => validate E this request = Diverge
  end.
Proof.
  unfold validate.
  destruct (collect E this request) as [st| |]; cbn [bind];
    [|reflexivity|reflexivity].
  unfold classify. repeat split.
  - intros H. destruct (l_errors st); [contradiction|reflexivity].
  - intros H _. destruct (l_errors st); [contradiction|reflexivity].
  - intros schemaError -> ->. reflexivity.
  - intros mediaTypeError -> -> ->. reflexivity.
  - intros -> -> ->. reflexivity.
Qed.

(** A request without body and with a malformed [id]: the missing-body
    error is recorded, and the field error of the path wins. *)
Lemma validate_classification_witness :
  exists this,
    new_OpenAPIRequestValidator Mini.engine 10 Examples.petArgs = Ok this
    /\ validate Mini.engine this
         (Examples.petRequest "content-type" (Some "application/json")
            None (JStr "abc"))
       = Ok (Some {| status := 400;
                     errors :=
                       [Plain {| path := None;
                                 errorCode := Some "schema.openapi.validation";
                                 message := "should match schema";
                                 location := Some "path";
                                 schema := None |}] |}).
Proof.
  eexists. split; [reflexivity|].
  match goal with
  | |- validate _ ?t ?r = _ =>
      pose proof (validate_classification Mini.engine t r) as H
  end.
  cbv in H. destruct H as (_ & H & _).
  refine (H _ _); discriminate.
Defined.

Lemma exists_first (p : string -> bool) (keys : list string) :
  (exists x, In x keys /\ p x = true) -> exists k, FirstWith p keys k.
Proof.
  induction keys as [|x r IH]; intros (y & Hin & Hy); [destruct Hin|].
  destruct (p x) eqn:Hx.
  - exists x, [], r. repeat split; auto.
  - destruct Hin as [->|Hin]; [congruence|].
    destruct (IH (ex_intro _ y (conj Hin Hy))) as (k & pre & post & -> & Hk & Hpre).
    exists k, (x :: pre), post. repeat split; auto.
Qed.

Lemma FirstWith_In (p : string -> bool) (keys : list string) (k : string) :
  FirstWith p keys k -> In k keys /\ p k = true.
Proof.
  intros (pre & post & -> & Hk & _). split; [|exact Hk].
  apply in_or_app. right. left. reflexivity.
Qed.

Lemma has_In_keys {V : Type} (k : string) (m : Obj.t V) :
  Obj.has k m = true -> In k (Obj.keys m).
Proof.
  unfold Obj.has, Obj.keys.
  induction m as [|[k' v] r IH]; cbn; [discriminate|].
  destruct (String.eqb_spec k k') as [->|Hne]; [auto|].
  intros H. right. apply IH. exact H.
Qed.

Lemma In_keys_get {V : Type} (k : string) (m : Obj.t V) :
  In k (Obj.keys m) -> exists v, Obj.get k m = Some v.
Proof.
  unfold Obj.keys.
  induction m as [|[k' v] r IH]; cbn; [tauto|].
  destruct (String.eqb_spec k k') as [->|Hne]; [eauto|].
  intros [H|H]; [congruence|apply IH; exact H].
Qed.

(** Without a body the legacy step runs no predicate: it can only record
    the missing-body error. *)
Lemma legacyBodyStep_absent (this : OpenAPIRequestValidator) (st : Locals) :
  truthy_opt (l_body st) = false ->
  exists schemaError,
    legacyBodyStep this st
    = Ok {| l_errors := l_errors st; l_schemaError := schemaError;
            l_mediaTypeError := l_mediaTypeError st; l_body := l_body st |}.
Proof.
  intros Hb. unfold legacyBodyStep, withSchemaError.
  destruct st as [es se me b]; cbn [l_errors l_schemaError l_mediaTypeError l_body] in *.
  destruct (truthy_opt (bodySchema this)); [|eauto].
  destruct b as [b|]; cbn [truthy_opt] in Hb; [rewrite Hb|];
    destruct (isBodyRequired this); eauto.
Qed.

(** C6.  A validator built with a required [requestBody] that lists
    [application/json], given that content type and no body, with the
    path, header and query parts passing: [validate] returns status 400
    with the one missing-body error, located in the body, carrying the
    schema of the matched media type and no [path] at all. *)
Theorem missing_required_body (E : Engine) (fuel : nat) (args : Args.t)
  (this : OpenAPIRequestValidator) (rb : RequestBodyObject)
  (request : Request) (hs : Obj.t string) :
  new_OpenAPIRequestValidator E fuel args = Ok this ->
  Args.requestBody args = Some rb ->
  required rb = Some true ->
  Obj.has "application/json" (content rb) = true ->
  headers request = Some hs ->
  Obj.get "content-type" hs = Some "application/json" ->
  contentTypeParse E "application/json" = Ok "application/json" ->
  truthy_opt (body request) = false ->
  passes (validatePath this) (or_empty (params request)) ->
  passes (validateHeaders this) (loweredHeaders request) ->
  passes (validateQuery this) (or_empty (query request)) ->
  exists key mt e,
    getSchemaForMediaType (contentTypeParse E) (Some "application/json")
      (Obj.keys (content rb)) = Ok (Some key)
    /\ Obj.get key (content rb) = Some mt
    /\ validate E this request
       = Ok (Some {| status := 400; errors := [Plain e] |})
    /\ location e = Some "body"
    /\ schema e = media_schema mt
    /\ path e = None
    /\ message e = missingBodyMessage.
Proof.
  intros Hnew Hargs Hreq Hhas Hhs Hct Hparse Hbody Hpath Hheaders Hquery.
  destruct (constructor_fields E fuel args this Hnew) as (Hrb & Hrequired & _).
  rewrite Hargs in Hrb. specialize (Hrequired rb Hargs). rewrite Hreq in Hrequired.
  destruct (exists_first (Str.contains "application/json") (Obj.keys (content rb)))
    as (key & Hfirst).
  { exists "application/json". split; [apply has_In_keys; exact Hhas|reflexivity]. }
  destruct (FirstWith_In _ _ _ Hfirst) as (Hin & Hcontains).
  destruct (In_keys_get key (content rb) Hin) as (mt & Hmt).
  assert (Hmatch : getSchemaForMediaType (contentTypeParse E)
                     (Some "application/json") (Obj.keys (content rb))
                   = Ok (Some key)).
  { rewrite (getSchemaForMediaType_parsed _ _ "application/json")
      by (discriminate || exact Hparse).
    rewrite (mediaTypeLoop_first_containing _ _ _ _ Hfirst). reflexivity. }
  assert (Hkey : String.eqb key "" = false).
  { destruct key; [discriminate Hcontains|reflexivity]. }
  exists key, mt, (missingBodyError (media_schema mt)).
  repeat split; [exact Hmatch|exact Hmt|].
  unfold validate, collect.
  destruct (legacyBodyStep_absent this
              {| l_errors := []; l_schemaError := None;
                 l_mediaTypeError := None; l_body := body request |} Hbody)
    as (se & ->).
  cbn [bind l_errors l_mediaTypeError l_body].
  unfold requestBodyStep. rewrite Hrb, Hhs. cbn [bind]. rewrite Hct, Hmatch.
  cbn [bind]. rewrite Hkey, Hmt. cbn [bind l_body].
  rewrite Hrequired.
  assert (Habsent :
    match body request with
    | Some b =>
        if truthy b
        then validateEnvelope (Obj.get key (requestBodyValidators this)) b
               {| l_errors := []; l_schemaError := se;
                  l_mediaTypeError := None; l_body := body request |}
        else Ok (withSchemaError (missingBodyError (media_schema mt))
                   {| l_errors := []; l_schemaError := se;
                      l_mediaTypeError := None; l_body := body request |})
    | None => Ok (withSchemaError (missingBodyError (media_schema mt))
                    {| l_errors := []; l_schemaError := se;
                       l_mediaTypeError := None; l_body := body request |})
    end
    = Ok (withSchemaError (missingBodyError (media_schema mt))
            {| l_errors := []; l_schemaError := se;
               l_mediaTypeError := None; l_body := body request |})).
  { destruct (body request) as [b|]; [|reflexivity].
    cbn [truthy_opt] in Hbody. rewrite Hbody. reflexivity. }
  rewrite Habsent. cbn [bind withSchemaError l_errors l_schemaError
                        l_mediaTypeError l_body].
  rewrite (partStep_passes "path" _ _ _ Hpath).
  unfold loweredHeaders in Hheaders. rewrite Hhs in Hheaders.
  rewrite (partStep_passes "headers" _ _ _ Hheaders).
  rewrite (partStep_passes "query" _ _ _ Hquery).
  reflexivity.
Qed.

Lemma missing_required_body_witness :
  exists this key mt e,
    new_OpenAPIRequestValidator Mini.engine 10 Examples.petArgs = Ok this
    /\ getSchemaForMediaType Mini.parse (Some "application/json")
         (Obj.keys (content Examples.petBody)) = Ok (Some key)
    /\ Obj.get key (content Examples.petBody) = Some mt
    /\ validate Mini.engine this
         (Examples.petRequest "content-type" (Some "application/json")
            None (JNum 1))
       = Ok (Some {| status := 400; errors := [Plain e] |})
    /\ location e = Some "body"
    /\ schema e = media_schema mt
    /\ path e = None
    /\ message e = missingBodyMessage.
Proof.
  eexists.
  match goal with
  | |- exists key mt e, ?n = Ok ?t /\ _ =>
      assert (Hnew : n = Ok t) by reflexivity;
      destruct (missing_required_body Mini.engine 10 Examples.petArgs t
                  Examples.petBody
                  (Examples.petRequest "content-type"
                     (Some "application/json") None (JNum 1))
                  [("X-Request-Id", "r1");
                   ("content-type", "application/json")]
                  Hnew eq_refl eq_refl eq_refl eq_refl eq_refl eq_refl eq_refl)
        as (key & mt & e & H)
  end.
  - intros g Hg. injection Hg as <-. reflexivity.
  - intros g Hg. injection Hg as <-. reflexivity.
  - intros g Hg. discriminate Hg.
  - exists key, mt, e. split; [exact Hnew|exact H].
Defined.

Lemma partStep_mediaTypeError (loc : string) (f : option ValidateFunction)
  (data : option JSON) (st : Locals) :
  l_mediaTypeError (partStep loc f data st) = l_mediaTypeError st.
Proof. unfold partStep. destruct f; reflexivity. Qed.

(** On a validator that has a predicate for its legacy body schema, the
    legacy step ends; it leaves the media-type error alone. *)
Lemma legacyBodyStep_total (this : OpenAPIRequestValidator) (st : Locals) :
  (truthy_opt (bodySchema this) = true -> validateBody this <> None) ->
  exists st',
    legacyBodyStep this st = Ok st'
    /\ l_mediaTypeError st' = l_mediaTypeError st.
Proof.
  intros Hf. unfold legacyBodyStep, withSchemaError, validateEnvelope.
  destruct (truthy_opt (bodySchema this)); [|eauto].
  specialize (Hf eq_refl).
  destruct (validateBody this) as [f|]; [|contradiction].
  destruct (l_body st) as [b|]; [destruct (truthy b)|];
    try destruct (isBodyRequired this); eauto.
Qed.

(** C7.  A validator built with a required [requestBody] whose only media
    type is [application/json], given [Content-Type: application/xml]:
    the steps of [validate] end with the media-type error recorded, and
    when no field error and no missing-body error was recorded the result
    is status 415 with the one error
    [Unsupported Content-Type application/xml]. *)
Theorem unsupported_content_type (E : Engine) (fuel : nat) (args : Args.t)
  (this : OpenAPIRequestValidator) (rb : RequestBodyObject)
  (request : Request) (hs : Obj.t string) :
  new_OpenAPIRequestValidator E fuel args = Ok this ->
  Args.requestBody args = Some rb ->
  required rb = Some true ->
  Obj.keys (content rb) = ["application/json"] ->
  headers request = Some hs ->
  Obj.get "content-type" hs = Some "application/xml" ->
  contentTypeParse E "application/xml" = Ok "application/xml" ->
  exists st,
    collect E this request = Ok st
    /\ l_mediaTypeError st = Some (unsupportedContentType "application/xml")
    /\ (l_errors st = [] -> l_schemaError st = None ->
          validate E this request
          = Ok (Some {| status := 415;
                        errors :=
                          [Plain {| path := None; errorCode := None;
                                    message :=
                                      "Unsupported Content-Type application/xml";
                                    location := None; schema := None |}] |})).
Proof.
  intros Hnew Hargs Hreq Hkeys Hhs Hct Hparse.
  destruct (constructor_fields E fuel args this Hnew) as (Hrb & _ & _ & Hlegacy).
  rewrite Hargs in Hrb.
  destruct (legacyBodyStep_total this
              {| l_errors := []; l_schemaError := None;
                 l_mediaTypeError := None; l_body := body request |} Hlegacy)
    as (st1 & Hst1 & Hme1).
  assert (Hstep : requestBodyStep E this request st1
                  = Ok {| l_errors := l_errors st1;
                          l_schemaError := l_schemaError st1;
                          l_mediaTypeError :=
                            Some (unsupportedContentType "application/xml");
                          l_body := l_body st1 |}).
  { unfold requestBodyStep. rewrite Hrb, Hhs. cbn [bind]. rewrite Hct, Hkeys.
    rewrite (getSchemaForMediaType_parsed _ _ "application/xml")
      by (discriminate || exact Hparse).
    reflexivity. }
  eexists. split; [|split].
  - unfold collect. rewrite Hst1. cbn [bind]. rewrite Hstep. cbn [bind].
    reflexivity.
  - rewrite !partStep_mediaTypeError.
    destruct (l_schemaError _); [|rewrite partStep_mediaTypeError]; reflexivity.
  - intros Herrors Hschema. unfold validate, collect.
    rewrite Hst1. cbn [bind]. rewrite Hstep. cbn [bind].
    unfold classify. rewrite Herrors, Hschema.
    rewrite !partStep_mediaTypeError.
    destruct (l_schemaError _); [|rewrite partStep_mediaTypeError]; reflexivity.
Qed.

Lemma unsupported_content_type_witness :
  exists this,
    new_OpenAPIRequestValidator Mini.engine 10 Examples.petArgs = Ok this
    /\ validate Mini.engine this
         (Examples.petRequest "content-type" (Some "application/xml")
            (Some (JObj [])) (JNum 1))
       = Ok (Some {| status := 415;
                     errors :=
                       [Plain {| path := None; errorCode := None;
                                 message :=
                                   "Unsupported Content-Type application/xml";
                                 location := None; schema := None |}] |}).
Proof.
  eexists.
  match goal with
  | |- ?n = Ok ?t /\ _ =>
      assert (Hnew : n = Ok t) by reflexivity;
      destruct (unsupported_content_type Mini.engine 10 Examples.petArgs t
                  Examples.petBody
                  (Examples.petRequest "content-type"
                     (Some "application/xml") (Some (JObj [])) (JNum 1))
                  [("X-Request-Id", "r1");
                   ("content-type", "application/xml")]
                  Hnew eq_refl eq_refl eq_refl eq_refl eq_refl eq_refl)
        as (st & Hst & _ & H)
  end.
  split; [exact Hnew|].
  injection Hst as <-. apply H; reflexivity.
Defined.

Lemma requestBodyStep_unmatched (E : Engine) (this : OpenAPIRequestValidator)
  (rb : RequestBodyObject) (request : Request) (hs : Obj.t string)
  (st : Locals) :
  requestBody this = Some rb -> isBodyRequired this = false ->
  headers request = Some hs -> Obj.get "content-type" hs = None ->
  requestBodyStep E this request st = Ok st.
Proof.
  intros Hrb Hreq Hhs Hct. unfold requestBodyStep.
  rewrite Hrb, Hhs. cbn [bind]. rewrite Hct. cbn [getSchemaForMediaType bind].
  rewrite Hreq. reflexivity.
Qed.

(** C10.  A validator built with a [requestBody] that is not required and
    without legacy body schema, given a body and no content-type header:
    no media type is matched, the two body steps leave the local variables
    as they are, [validate] returns nothing when the formData, path, header
    and query parts pass, and the result is the same whatever predicates
    are installed for the media types. *)
Theorem optional_body_unchecked (E : Engine) (fuel : nat) (args : Args.t)
  (this : OpenAPIRequestValidator) (rb : RequestBodyObject)
  (request : Request) (hs : Obj.t string) (b : JSON) :
  new_OpenAPIRequestValidator E fuel args = Ok this ->
  Args.requestBody args = Some rb ->
  required rb <> Some true ->
  truthy_opt (bodySchema this) = false ->
  body request = Some b -> truthy b = true ->
  headers request = Some hs ->
  Obj.get "content-type" hs = None ->
  getSchemaForMediaType (contentTypeParse E) (Obj.get "content-type" hs)
    (Obj.keys (content rb)) = Ok None
  /\ (forall st,
        legacyBodyStep this st = Ok st
        /\ requestBodyStep E this request st = Ok st)
  /\ (passes (validateFormData this) (body request) ->
      passes (validatePath this) (or_empty (params request)) ->
      passes (validateHeaders this) (loweredHeaders request) ->
      passes (validateQuery this) (or_empty (query request)) ->
        validate E this request = Ok None)
  /\ (forall validators,
        validate E (withRequestBodyValidators this validators) request
        = validate E this request).
Proof.
  intros Hnew Hargs Hreq Hlegacy Hbody Htruthy Hhs Hct.
  destruct (constructor_fields E fuel args this Hnew) as (Hrb & Hrequired & _).
  rewrite Hargs in Hrb. specialize (Hrequired rb Hargs).
  assert (Hopt : isBodyRequired this = false).
  { rewrite Hrequired. destruct (required rb) as [[]|]; congruence. }
  assert (Hl : forall st, legacyBodyStep this st = Ok st)
    by (intros st; unfold legacyBodyStep; rewrite Hlegacy; reflexivity).
  assert (Hr : forall st, requestBodyStep E this request st = Ok st)
    by (intros st; apply (requestBodyStep_unmatched E this rb request hs);
        assumption).
  repeat split.
  - rewrite Hct. reflexivity.
  - apply Hl.
  - apply Hr.
  - intros Hform Hpath Hheaders Hquery. unfold validate, collect.
    rewrite Hl. cbn [bind]. rewrite Hr. cbn [bind l_schemaError l_body].
    rewrite (partStep_passes "formData" _ _ _ Hform).
    rewrite (partStep_passes "path" _ _ _ Hpath).
    rewrite (partStep_passes "headers" _ _ _ Hheaders).
    rewrite (partStep_passes "query" _ _ _ Hquery).
    reflexivity.
  - intros validators. unfold validate, collect.
    assert (Hl' : forall st,
              legacyBodyStep (withRequestBodyValidators this validators) st
              = Ok st)
      by (intros st; unfold legacyBodyStep; cbn [bodySchema withRequestBodyValidators];
          rewrite Hlegacy; reflexivity).
    assert (Hr' : forall st,
              requestBodyStep E (withRequestBodyValidators this validators)
                request st = Ok st)
      by (intros st;
          apply (requestBodyStep_unmatched E _ rb request hs); assumption).
    rewrite Hl, Hl'. cbn [bind]. rewrite Hr, Hr'. reflexivity.
Qed.

Lemma optional_body_unchecked_witness :
  exists this,
    new_OpenAPIRequestValidator Mini.engine 10 Examples.optionalArgs = Ok this
    /\ validate Mini.engine this
         (Examples.petRequest "content-type" None
            (Some (JStr "not an object")) (JNum 1))
       = Ok None.
Proof.
  eexists.
  match goal with
  | |- ?n = Ok ?t /\ _ =>
      assert (Hnew : n = Ok t) by reflexivity;
      destruct (optional_body_unchecked Mini.engine 10 Examples.optionalArgs t
                  Examples.optionalBody
                  (Examples.petRequest "content-type" None
                     (Some (JStr "not an object")) (JNum 1))
                  [("X-Request-Id", "r1")] (JStr "not an object")
                  Hnew eq_refl ltac:(discriminate) eq_refl eq_refl eq_refl
                  eq_refl eq_refl)
        as (_ & _ & H & _)
  end.
  split; [exact Hnew|].
  apply H; intros g Hg; try discriminate Hg; injection Hg as <-; reflexivity.
Defined.

(** The same body is checked, and refused, once a content type is given. *)
Lemma optional_body_checked_with_content_type :
  exists this,
    new_OpenAPIRequestValidator Mini.engine 10 Examples.optionalArgs = Ok this
    /\ validate Mini.engine this
         (Examples.petRequest "content-type" (Some "application/json")
            (Some (JStr "not an object")) (JNum 1))
       = Ok (Some {| status := 400;
                     errors :=
                       [Plain {| path := Some "instance";
                                 errorCode := Some "schema.openapi.validation";
                                 message := "should match schema";
                                 location := Some "body";
                                 schema := None |}] |}).
Proof. eexists. split; reflexivity. Qed.

(** The content-type lookup reads the header name as it is written: when
    no header is called [content-type], a required body is reported to
    come without media type, whatever other headers the request has. *)
Lemma requestBodyStep_exact_name (E : Engine) (this : OpenAPIRequestValidator)
  (rb : RequestBodyObject) (request : Request) (hs : Obj.t string)
  (st : Locals) :
  requestBody this = Some rb -> isBodyRequired this = true ->
  headers request = Some hs -> Obj.get "content-type" hs = None ->
  requestBodyStep E this request st
  = Ok {| l_errors := (l_errors st ++ [mediaTypeNotSpecified])%list;
          l_schemaError := l_schemaError st;
          l_mediaTypeError := l_mediaTypeError st;
          l_body := l_body st |}.
Proof.
  intros Hrb Hreq Hhs Hct. unfold requestBodyStep.
  rewrite Hrb, Hhs. cbn [bind]. rewrite Hct. cbn [getSchemaForMediaType bind].
  rewrite Hreq. reflexivity.
Qed.

(** C8 at a request whose content type comes under the name
    [Content-Type]: [validate] reads [request.headers['content-type']] as it
    is, finds no media type and, the body being required, reports that the
    media type is not specified; with the header names in lower case the
    same request is valid. *)
Theorem header_case_decides_media_type :
  exists this,
    new_OpenAPIRequestValidator Mini.engine 10 Examples.petArgs = Ok this
    /\ validate Mini.engine this
         (Examples.petRequest "Content-Type" (Some "application/json")
            (Some (JObj [])) (JNum 1))
       = Ok (Some {| status := 400;
                     errors :=
                       [Plain {| path := None;
                                 errorCode := Some "required.openapi.validation";
                                 message := "media type is not specified";
                                 location := Some "body";
                                 schema := None |}] |})
    /\ headers (withLowercasedHeaders
                  (Examples.petRequest "Content-Type"
                     (Some "application/json") (Some (JObj [])) (JNum 1)))
       = Some [("x-request-id", "r1"); ("content-type", "application/json")]
    /\ validate Mini.engine this
         (withLowercasedHeaders
            (Examples.petRequest "Content-Type" (Some "application/json")
               (Some (JObj [])) (JNum 1)))
       = Ok None
    /\ validate Mini.engine this
         (withLowercasedHeaders
            (Examples.petRequest "Content-Type" (Some "application/json")
               (Some (JObj [])) (JNum 1)))
       <> validate Mini.engine this
            (Examples.petRequest "Content-Type" (Some "application/json")
               (Some (JObj [])) (JNum 1)).
Proof.
  eexists. repeat split. intros H. discriminate H.
Qed.

(** ** Header names *)

Lemma lower_ascii_idempotent (a : ascii) :
  Str.lower_ascii (Str.lower_ascii a) = Str.lower_ascii a.
Proof. destruct a as [[] [] [] [] [] [] [] []]; reflexivity. Qed.

Lemma toLowerCase_idempotent (s : string) :
  Str.toLowerCase (Str.toLowerCase s) = Str.toLowerCase s.
Proof.
  induction s as [|a r IH]; cbn; [reflexivity|].
  rewrite lower_ascii_idempotent, IH. reflexivity.
Qed.

Lemma keys_set {V : Type} (k : string) (v : V) (m : Obj.t V) :
  Obj.keys (Obj.set k v m)
  = if Obj.has k m then Obj.keys m else (Obj.keys m ++ [k])%list.
Proof.
  unfold Obj.has, Obj.keys. induction m as [|[k' v'] r IH]; cbn; [reflexivity|].
  destruct (String.eqb_spec k k') as [->|Hne]; cbn; [reflexivity|].
  rewrite IH. destruct (Obj.get k r); reflexivity.
Qed.

Lemma has_false_not_In {V : Type} (k : string) (m : Obj.t V) :
  Obj.has k m = false -> ~ In k (Obj.keys m).
Proof.
  intros H Hin. destruct (In_keys_get k m Hin) as (v & Hv).
  unfold Obj.has in H. rewrite Hv in H. discriminate.
Qed.

Lemma set_fresh {V : Type} (k : string) (v : V) (m : Obj.t V) :
  ~ In k (Obj.keys m) -> Obj.set k v m = (m ++ [(k, v)])%list.
Proof.
  unfold Obj.keys. induction m as [|[k' v'] r IH]; cbn; [reflexivity|].
  intros H. destruct (String.eqb_spec k k') as [->|Hne]; [tauto|].
  rewrite IH by tauto. reflexivity.
Qed.

Lemma get_app_fresh {V : Type} (k : string) (v : V) (a r : Obj.t V) :
  ~ In k (Obj.keys a) -> Obj.get k (a ++ (k, v) :: r)%list = Some v.
Proof.
  unfold Obj.keys. induction a as [|[k' v'] a IH]; cbn.
  - rewrite String.eqb_refl. reflexivity.
  - intros H. destruct (String.eqb_spec k k') as [->|Hne]; [tauto|].
    apply IH. tauto.
Qed.

(** The header names of a lowercased request are distinct and in lower
    case. *)
Lemma lowercaseRequestHeaders_keys {V : Type} (headers : Obj.t V) :
  NoDup (Obj.keys (lowercaseRequestHeaders headers))
  /\ Forall (fun k => Str.toLowerCase k = k)
            (Obj.keys (lowercaseRequestHeaders headers)).
Proof.
  unfold lowercaseRequestHeaders.
  assert (H : forall ks (acc : Obj.t V),
            NoDup (Obj.keys acc)
            /\ Forall (fun k => Str.toLowerCase k = k) (Obj.keys acc) ->
            let r := fold_left
                       (fun lowerCasedHeaders header =>
                          match Obj.get header headers with
                          | Some v =>
                              Obj.set (Str.toLowerCase header) v lowerCasedHeaders
                          | None => lowerCasedHeaders
                          end) ks acc in
            NoDup (Obj.keys r)
            /\ Forall (fun k => Str.toLowerCase k = k) (Obj.keys r)).
  { induction ks as [|h ks IH]; intros acc Hacc; cbn [fold_left]; [exact Hacc|].
    apply IH. destruct (Obj.get h headers) as [v|]; [|exact Hacc].
    destruct Hacc as [Hnd Hlow]. rewrite keys_set.
    destruct (Obj.has (Str.toLowerCase h) acc) eqn:Hhas; [auto|]. split.
    - apply NoDup_app; repeat split; auto.
      + repeat constructor. intros [].
      + intros x Hx [<-|[]]. exact (has_false_not_In _ _ Hhas Hx).
    - apply Forall_app. split; [exact Hlow|].
      repeat constructor. apply toLowerCase_idempotent. }
  apply H. split; constructor.
Qed.

Lemma lowercaseRequestHeaders_fixed {V : Type} (l : Obj.t V) :
  NoDup (Obj.keys l) ->
  Forall (fun k => Str.toLowerCase k = k) (Obj.keys l) ->
  lowercaseRequestHeaders l = l.
Proof.
  intros Hnd Hlow. unfold lowercaseRequestHeaders.
  assert (H : forall (suffix acc : Obj.t V),
            l = (acc ++ suffix)%list ->
            fold_left
              (fun lowerCasedHeaders header =>
                 match Obj.get header l with
                 | Some v =>
                     Obj.set (Str.toLowerCase header) v lowerCasedHeaders
                 | None => lowerCasedHeaders
                 end) (Obj.keys suffix) acc = l).
  { induction suffix as [|[k v] r IH]; intros acc Hl; cbn [Obj.keys map fold_left fst].
    - rewrite Hl, app_nil_r. reflexivity.
    - assert (Hfresh : ~ In k (Obj.keys acc)).
      { rewrite Hl in Hnd. unfold Obj.keys in Hnd. rewrite map_app in Hnd.
        cbn [map fst] in Hnd. apply NoDup_remove_2 in Hnd.
        intros Hin. apply Hnd. apply in_or_app. left. exact Hin. }
      assert (Hk : Str.toLowerCase k = k).
      { rewrite Forall_forall in Hlow. apply Hlow. rewrite Hl.
        unfold Obj.keys. rewrite map_app. apply in_or_app. right. left.
        reflexivity. }
      rewrite Hl at 1. rewrite (get_app_fresh k v acc r Hfresh), Hk.
      rewrite (set_fresh k v acc Hfresh).
      apply IH. rewrite Hl, <- app_assoc. reflexivity. }
  apply (H l []). reflexivity.
Qed.

Lemma lowercaseRequestHeaders_idempotent {V : Type} (headers : Obj.t V) :
  lowercaseRequestHeaders (lowercaseRequestHeaders headers)
  = lowercaseRequestHeaders headers.
Proof.
  destruct (lowercaseRequestHeaders_keys headers) as [Hnd Hlow].
  apply lowercaseRequestHeaders_fixed; assumption.
Qed.

(** Where [validate] does treat header names without regard to case: the
    header predicate is given the lowercased names, so a request and its
    lowercased form fare alike whenever the content-type lookup, which
    reads the name as it is, finds the same in both (always so without
    [requestBody]). *)
Lemma validate_header_case (E : Engine) (this : OpenAPIRequestValidator)
  (request : Request) :
  (requestBody this = None
   \/ forall hs, headers request = Some hs ->
        Obj.get "content-type" (lowercaseRequestHeaders hs)
        = Obj.get "content-type" hs) ->
  validate E this (withLowercasedHeaders request) = validate E this request.
Proof.
  intros H. unfold validate, collect.
  cbn [body params query withLowercasedHeaders].
  assert (Hstep : forall st,
            requestBodyStep E this (withLowercasedHeaders request) st
            = requestBodyStep E this request st).
  { intros st. unfold requestBodyStep.
    destruct (requestBody this) as [rb|]; [|reflexivity].
    destruct H as [H|H]; [discriminate|].
    cbn [headers withLowercasedHeaders].
    destruct (headers request) as [hs|]; [|reflexivity].
    cbn [option_map bind]. rewrite (H hs eq_refl). reflexivity. }
  assert (Hheaders :
    lowercaseRequestHeaders
      (match headers (withLowercasedHeaders request) with
       | Some hs => hs
       | None => []
       end)
    = lowercaseRequestHeaders
        (match headers request with Some hs => hs | None => [] end)).
  { cbn [headers withLowercasedHeaders].
    destruct (headers request) as [hs|]; [|reflexivity].
    apply lowercaseRequestHeaders_idempotent. }
  rewrite Hheaders.
  destruct (legacyBodyStep this _) as [st| |]; cbn [bind]; try reflexivity.
  rewrite Hstep. reflexivity.
Qed.

Lemma In_keys_delete {V : Type} (k h : string) (m : Obj.t V) :
  In k (Obj.keys (Obj.delete h m)) -> In k (Obj.keys m) /\ k <> h.
Proof.
  unfold Obj.keys. induction m as [|[k' v'] r IH]; cbn; [tauto|].
  destruct (String.eqb_spec h k') as [->|Hne]; cbn.
  - intros H. destruct (IH H). tauto.
  - intros [<-|H]; [split; [tauto|congruence]|].
    destruct (IH H). tauto.
Qed.

Lemma relowerProperties_keys (properties : Obj.t JSON) :
  Forall (fun k => Str.toLowerCase k = k)
         (Obj.keys (relowerProperties properties)).
Proof.
  unfold relowerProperties.
  assert (H : forall ks (props : Obj.t JSON),
            (forall k, In k (Obj.keys props) ->
                       Str.toLowerCase k = k \/ In k ks) ->
            Forall (fun k => Str.toLowerCase k = k)
              (Obj.keys
                 (fold_left
                    (fun props header =>
                       match Obj.get header props with
                       | Some property =>
                           Obj.set (Str.toLowerCase header) property
                             (Obj.delete header props)
                       | None => props
                       end) ks props))).
  { induction ks as [|h ks IH]; intros props Hinv; cbn [fold_left].
    - apply Forall_forall. intros k Hk.
      destruct (Hinv k Hk) as [Hl|[]]. exact Hl.
    - apply IH. intros k Hk.
      destruct (Obj.get h props) as [property|] eqn:Hget.
      + rewrite keys_set in Hk.
        assert (Hold : In k (Obj.keys (Obj.delete h props)) ->
                       Str.toLowerCase k = k \/ In k ks).
        { intros Hd. apply In_keys_delete in Hd as [Hin Hne].
          destruct (Hinv k Hin) as [Hl|[Heq|Hin']]; auto. congruence. }
        destruct (Obj.has _ _); [auto|].
        apply in_app_or in Hk as [Hk|[<-|[]]]; [auto|].
        left. apply toLowerCase_idempotent.
      + destruct (Hinv k Hk) as [Hl|[Heq|Hin']]; auto.
        subst k. destruct (In_keys_get h props Hk) as (v & Hv). congruence. }
  apply H. intros k Hk. right. exact Hk.
Qed.

Lemma mapM_lowerRequiredEntry (l l' : list JSON) :
  mapM lowerRequiredEntry l = Ok l' ->
  Forall (fun x => exists s, x = JStr s /\ Str.toLowerCase s = s) l'.
Proof.
  revert l'. induction l as [|x r IH]; intros l' H; cbn in H.
  - injection H as <-. constructor.
  - destruct x; cbn in H; try discriminate.
    destruct (mapM lowerRequiredEntry r) as [r'| |]; cbn in H; try discriminate.
    injection H as <-. constructor; [|apply IH; reflexivity].
    eexists. split; [reflexivity|apply toLowerCase_idempotent].
Qed.

(** The header schema after [lowercasedHeaders]: every property name and
    every entry of [required] is in lower case. *)
Lemma lowercasedHeaders_lowercase (m m' pm : Obj.t JSON) :
  Obj.get "properties" m = Some (JObj pm) ->
  lowercasedHeaders (Some (JObj m)) = Ok (Some (JObj m')) ->
  (exists pm',
     Obj.get "properties" m' = Some (JObj pm')
     /\ Forall (fun k => Str.toLowerCase k = k) (Obj.keys pm'))
  /\ (forall l, Obj.get "required" m' = Some (JArr l) ->
        Forall (fun x => exists s, x = JStr s /\ Str.toLowerCase s = s) l).
Proof.
  intros Hprops H. unfold lowercasedHeaders in H. rewrite Hprops in H.
  cbn [bind] in H.
  set (m1 := Obj.set "properties" (JObj (relowerProperties pm)) m) in *.
  assert (Hp1 : Obj.get "properties" m1 = Some (JObj (relowerProperties pm)))
    by apply get_set_eq.
  assert (Hpm : forall m2, Obj.get "properties" m2 = Some (JObj (relowerProperties pm)) ->
            exists pm', Obj.get "properties" m2 = Some (JObj pm')
              /\ Forall (fun k => Str.toLowerCase k = k) (Obj.keys pm'))
    by (intros m2 H2; eexists; split; [exact H2|apply relowerProperties_keys]).
  destruct (Obj.get "required" m1) as [req|] eqn:Hreq.
  - destruct req as [| | |s|l|r].
    + injection H as <-. split; [auto|]. rewrite Hreq. discriminate.
    + injection H as <-. split; [auto|]. rewrite Hreq. discriminate.
    + injection H as <-. split; [auto|]. rewrite Hreq. discriminate.
    + destruct (String.eqb s ""); [|discriminate].
      injection H as <-. split; [auto|]. rewrite Hreq. discriminate.
    + destruct l as [|x l].
      * injection H as <-. split; [auto|]. rewrite Hreq.
        intros l [= <-]. constructor.
      * destruct (mapM lowerRequiredEntry (x :: l)) as [required| |] eqn:Hmap;
          cbn [bind] in H; try discriminate.
        injection H as <-. split.
        -- apply Hpm. rewrite get_set_ne by discriminate. exact Hp1.
        -- intros l0. rewrite get_set_eq. intros [= <-].
           apply (mapM_lowerRequiredEntry _ _ Hmap).
    + destruct (truthy_opt (Obj.get "length" r)); [discriminate|].
      injection H as <-. split; [auto|]. rewrite Hreq. discriminate.
  - injection H as <-. split; [auto|]. rewrite Hreq. discriminate.
Qed.

(** ** Fuel *)

Lemma settled_refl {A : Type} (a : M A) : settled a a.
Proof. intros _. reflexivity. Qed.

Lemma bind_settled {A B : Type} (a a' : M A) (f f' : A -> M B) :
  settled a a' -> (forall x, settled (f x) (f' x)) ->
  settled (bind a f) (bind a' f').
Proof.
  intros Ha Hf H.
  assert (Ha' : a <> Diverge) by (intros ->; apply H; reflexivity).
  rewrite (Ha Ha'). destruct a as [x| |]; cbn [bind] in *;
    [apply Hf; exact H|reflexivity|contradiction].
Qed.

Lemma mapM_settled {A B : Type} (g g' : A -> M B) (l : list A) :
  (forall x, settled (g x) (g' x)) -> settled (mapM g l) (mapM g' l).
Proof.
  intros Hg. induction l as [|x r IH]; cbn [mapM]; [apply settled_refl|].
  apply bind_settled; [apply Hg|]. intros y.
  apply bind_settled; [exact IH|]. intros ys. apply settled_refl.
Qed.

Ltac settle :=
  repeat first
    [ apply settled_refl
    | assumption
    | apply bind_settled; [|intros ?]
    | apply mapM_settled; intros ?
    | match goal with
      | |- settled (match ?x with _ => _ end) (match ?x with _ => _ end) =>
          destruct x
      | |- settled (if ?x then _ else _) (if ?x then _ else _) =>
          destruct x
      | H : forall x, settled (?rec x) (?rec' x) |- settled (?rec _) (?rec' _) =>
          apply H
      end ].

Lemma resolveNode_settled (E : Engine) (v : AjvT E)
  (recurse recurse' : JSON -> M (JSON * JSON)) :
  (forall x, settled (recurse x) (recurse' x)) ->
  forall s, settled (resolveNode E v recurse s) (resolveNode E v recurse' s).
Proof.
  intros Hrec s. unfold resolveNode. cbv zeta. settle.
Qed.

(** A run of the resolver that has ended is not changed by more fuel. *)
Lemma resolve_more_fuel (E : Engine) (v : AjvT E) (fuel : nat) :
  forall s,
    settled (resolveAndSanitizeRequestBodySchema E fuel v s)
            (resolveAndSanitizeRequestBodySchema E (S fuel) v s).
Proof.
  induction fuel as [|f IH]; intros s.
  - intros H. contradiction H. reflexivity.
  - change (settled
              (resolveNode E v (resolveAndSanitizeRequestBodySchema E f v) s)
              (resolveNode E v (resolveAndSanitizeRequestBodySchema E (S f) v) s)).
    apply resolveNode_settled. exact IH.
Qed.

Lemma resolve_fuel_le (E : Engine) (v : AjvT E) (fuel fuel' : nat)
  (s : JSON) (r : JSON * JSON) :
  fuel <= fuel' ->
  resolveAndSanitizeRequestBodySchema E fuel v s = Ok r ->
  resolveAndSanitizeRequestBodySchema E fuel' v s = Ok r.
Proof.
  induction 1 as [|n Hle IH]; intros H; [exact H|].
  rewrite (resolve_more_fuel E v n s); [apply IH; exact H|].
  rewrite (IH H). discriminate.
Qed.

(* ===================================================================== *)
(** * Further properties of the code *)
(* ===================================================================== *)

(** ** The steps of [validate] *)

Lemma withAddedLocation_located (loc : string) (es : list ErrorObject) :
  Forall (locatedIn loc) (withAddedLocation loc es).
Proof.
  unfold withAddedLocation. apply Forall_forall. intros e He.
  apply in_map_iff in He as (x & <- & _). reflexivity.
Qed.

Lemma pushErrors_app (loc : string) (run : ValidateRun)
  (errors : list ErrorObject) :
  exists es,
    pushErrors loc run errors = (errors ++ es)%list
    /\ Forall (locatedIn loc) es.
Proof.
  unfold pushErrors. destruct (run_errors run) as [es|].
  - exists (withAddedLocation loc es). split; [reflexivity|].
    apply withAddedLocation_located.
  - exists []. split; [symmetry; apply app_nil_r|constructor].
Qed.

Lemma legacyBodyStep_cases (this : OpenAPIRequestValidator)
  (request : Request) (st st' : Locals) :
  legacyBodyStep this st = Ok st' ->
  BodyStepped request (isBodyRequired this) st st'.
Proof.
  unfold legacyBodyStep, validateEnvelope.
  destruct (truthy_opt (bodySchema this)); [|intros [= <-]; constructor].
  destruct (l_body st) as [b|].
  - destruct (truthy b).
    + destruct (validateBody this) as [f|]; [|discriminate].
      intros [= <-]. apply Validated.
    + destruct (isBodyRequired this); intros [= <-]; constructor; reflexivity.
  - destruct (isBodyRequired this); intros [= <-]; constructor; reflexivity.
Qed.

Lemma requestBodyStep_cases (E : Engine) (this : OpenAPIRequestValidator)
  (request : Request) (st st' : Locals) :
  requestBodyStep E this request st = Ok st' ->
  BodyStepped request (isBodyRequired this) st st'.
Proof.
  unfold requestBodyStep, validateEnvelope.
  destruct (requestBody this) as [rb|]; [|intros [= <-]; constructor].
  destruct (headers request) as [hs|] eqn:Hhs; cbn [bind]; [|discriminate].
  destruct (getSchemaForMediaType _ _ _) as [mediaTypeMatch| |]; cbn [bind];
    try discriminate.
  assert (Hno :
    match
      match Obj.get "content-type" hs with
      | Some ct => if String.eqb ct "" then None else Some ct
      | None => None
      end
    with
    | Some ct =>
        Ok {| l_errors := l_errors st; l_schemaError := l_schemaError st;
              l_mediaTypeError := Some (unsupportedContentType ct);
              l_body := l_body st |}
    | None =>
        if isBodyRequired this
        then Ok {| l_errors := (l_errors st ++ [mediaTypeNotSpecified])%list;
                   l_schemaError := l_schemaError st;
                   l_mediaTypeError := l_mediaTypeError st;
                   l_body := l_body st |}
        else Ok st
    end = Ok st' -> BodyStepped request (isBodyRequired this) st st').
  { destruct (Obj.get "content-type" hs) as [ct|] eqn:Hct.
    - destruct (String.eqb ct "").
      + destruct (isBodyRequired this); intros [= <-]; constructor;
          reflexivity.
      + intros [= <-]. apply (Unsupported request _ st hs ct Hhs Hct).
    - destruct (isBodyRequired this); intros [= <-]; constructor;
        reflexivity. }
  destruct mediaTypeMatch as [key|]; [|exact Hno].
  destruct (String.eqb key ""); [exact Hno|].
  destruct (Obj.get key (content rb)) as [mt|]; cbn [bind]; [|discriminate].
  destruct (l_body st) as [b|].
  - destruct (truthy b).
    + destruct (Obj.get key (requestBodyValidators this)) as [f|];
        [|discriminate].
      intros [= <-]. apply Validated.
    + destruct (isBodyRequired this); intros [= <-]; constructor; reflexivity.
  - destruct (isBodyRequired this); intros [= <-]; constructor; reflexivity.
Qed.

Lemma BodyStepped_errors (request : Request) (isRequired : bool)
  (st st' : Locals) :
  BodyStepped request isRequired st st' ->
  exists es,
    l_errors st' = (l_errors st ++ es)%list /\ Forall (locatedIn "body") es.
Proof.
  intros [ |run b|sch _|_|hs ct _ _]; cbn [l_errors withSchemaError].
  - exists []. split; [symmetry; apply app_nil_r|constructor].
  - apply pushErrors_app.
  - exists []. split; [symmetry; apply app_nil_r|constructor].
  - exists [mediaTypeNotSpecified]. split; [reflexivity|].
    repeat constructor.
  - exists []. split; [symmetry; apply app_nil_r|constructor].
Qed.

Lemma BodyStepped_schemaError (request : Request) (st st' : Locals) :
  BodyStepped request false st st' -> l_schemaError st' = l_schemaError st.
Proof.
  intros [ |run b|sch H|H|hs ct _ _]; try discriminate; reflexivity.
Qed.

Lemma partStep_errors (loc : string) (f : option ValidateFunction)
  (data : option JSON) (st : Locals) :
  exists es,
    l_errors (partStep loc f data st) = (l_errors st ++ es)%list
    /\ Forall (locatedIn loc) es.
Proof.
  unfold partStep. destruct f as [g|]; cbn [l_errors].
  - apply pushErrors_app.
  - exists []. split; [symmetry; apply app_nil_r|constructor].
Qed.

Lemma partStep_schemaError (loc : string) (f : option ValidateFunction)
  (data : option JSON) (st : Locals) :
  l_schemaError (partStep loc f data st) = l_schemaError st.
Proof. unfold partStep. destruct f; reflexivity. Qed.

(** The steps of [validate], taken apart: the two body steps, then the
    four parts. *)
Lemma collect_steps (E : Engine) (this : OpenAPIRequestValidator)
  (request : Request) (st : Locals) :
  collect E this request = Ok st ->
  exists st1 st2,
    BodyStepped request (isBodyRequired this)
      {| l_errors := []; l_schemaError := None; l_mediaTypeError := None;
         l_body := body request |} st1
    /\ BodyStepped request (isBodyRequired this) st1 st2
    /\ st = partStep "query" (validateQuery this) (or_empty (query request))
              (partStep "headers" (validateHeaders this)
                 (loweredHeaders request)
                 (partStep "path" (validatePath this)
                    (or_empty (params request))
                    match l_schemaError st2 with
                    | None => partStep "formData" (validateFormData this)
                                (l_body st2) st2
                    | Some _ => st2
                    end)).
Proof.
  unfold collect. intros H.
  destruct (legacyBodyStep this _) as [st1| |] eqn:H1; cbn [bind] in H;
    try discriminate.
  destruct (requestBodyStep E this request st1) as [st2| |] eqn:H2;
    cbn [bind] in H; try discriminate.
  injection H as <-. exists st1, st2. repeat split.
  - apply (legacyBodyStep_cases this request _ _ H1).
  - apply (requestBodyStep_cases E this request _ _ H2).
Qed.

Lemma toOpenapiValidationError_location (e : ErrorObject) :
  location (toOpenapiValidationError e) = e_location e.
Proof.
  unfold toOpenapiValidationError, stripBodyInfo. cbn [location].
  destruct (opt_string_eqb (e_location e) "body"); reflexivity.
Qed.

Lemma BodyStepped_mediaTypeError (request : Request) (isRequired : bool)
  (st st' : Locals) :
  BodyStepped request isRequired st st' ->
  l_mediaTypeError st' = l_mediaTypeError st
  \/ exists hs contentType,
       headers request = Some hs
       /\ Obj.get "content-type" hs = Some contentType
       /\ l_mediaTypeError st' = Some (unsupportedContentType contentType).
Proof.
  intros [ |run b|sch _|_|hs ct Hhs Hct]; cbn; auto.
  right. exists hs, ct. auto.
Qed.

(** X1.  The violations that a run of [validate] collects come part by
    part, in the order body, formData, path, headers, query, each tagged
    with the location of the part that reported it; the default mapper hands
    that location on. *)
Theorem errors_come_in_part_order (E : Engine)
  (this : OpenAPIRequestValidator) (request : Request) (st : Locals) :
  collect E this request = Ok st ->
  InPartOrder (l_errors st)
  /\ forall e, In e (l_errors st) ->
       location (toOpenapiValidationError e) = e_location e.
Proof.
  intros H. split; [|intros e _; apply toOpenapiValidationError_location].
  destruct (collect_steps E this request st H) as (st1 & st2 & H1 & H2 & ->).
  destruct (BodyStepped_errors _ _ _ _ H1) as (b1 & Hb1 & Hl1).
  destruct (BodyStepped_errors _ _ _ _ H2) as (b2 & Hb2 & Hl2).
  cbn [l_errors app] in Hb1. rewrite Hb1 in Hb2.
  set (st3 := match l_schemaError st2 with
              | None => partStep "formData" (validateFormData this)
                          (l_body st2) st2
              | Some _ => st2
              end).
  assert (H3 : exists f, l_errors st3 = (l_errors st2 ++ f)%list
                         /\ Forall (locatedIn "formData") f).
  { subst st3. destruct (l_schemaError st2).
    - exists []. split; [symmetry; apply app_nil_r|constructor].
    - apply partStep_errors. }
  destruct H3 as (f & Hf & Hlf).
  destruct (partStep_errors "path" (validatePath this)
              (or_empty (params request)) st3) as (p & Hp & Hlp).
  destruct (partStep_errors "headers" (validateHeaders this)
              (loweredHeaders request)
              (partStep "path" (validatePath this)
                 (or_empty (params request)) st3)) as (h & Hh & Hlh).
  destruct (partStep_errors "query" (validateQuery this)
              (or_empty (query request))
              (partStep "headers" (validateHeaders this)
                 (loweredHeaders request)
                 (partStep "path" (validatePath this)
                    (or_empty (params request)) st3))) as (q & Hq & Hlq).
  exists (b1 ++ b2)%list, f, p, h, q.
  repeat split; try assumption; [|apply Forall_app; split; assumption].
  rewrite Hq, Hh, Hp, Hf, Hb2. rewrite <- !app_assoc. reflexivity.
Qed.

Lemma errors_come_in_part_order_witness :
  exists this st,
    new_OpenAPIRequestValidator Mini.engine 10 Examples.petArgs = Ok this
    /\ collect Mini.engine this
         (Examples.petRequest "content-type" None (Some (JObj [])) (JStr "x"))
       = Ok st
    /\ map e_location (l_errors st) = [Some "body"; Some "path"]
    /\ InPartOrder (l_errors st).
Proof.
  eexists. eexists.
  match goal with
  | |- ?n = Ok ?t /\ ?c = Ok ?s /\ _ =>
      assert (Hnew : n = Ok t) by reflexivity;
      assert (Hc : c = Ok s) by reflexivity
  end.
  split; [exact Hnew|]. split; [exact Hc|]. split; [reflexivity|].
  exact (proj1 (errors_come_in_part_order _ _ _ _ Hc)).
Defined.

(** X2.  When [validate] returns a result, its status is 400 or 415 and it
    holds at least one error; status 415 comes with exactly one error, the
    one that quotes the request's own content-type header. *)
Theorem validate_result_shape (E : Engine)
  (this : OpenAPIRequestValidator) (request : Request)
  (r : ValidationResult) :
  validate E this request = Ok (Some r) ->
  (status r = 400 \/ status r = 415)
  /\ errors r <> []
  /\ (status r = 415 ->
        exists hs contentType,
          headers request = Some hs
          /\ Obj.get "content-type" hs = Some contentType
          /\ errors r
             = [Plain {| path := None; errorCode := None;
                         message := "Unsupported Content-Type " ++ contentType;
                         location := None; schema := None |}]).
Proof.
  unfold validate. intros H.
  destruct (collect E this request) as [st| |] eqn:Hc; cbn [bind] in H;
    try discriminate.
  injection H as H.
  destruct (collect_steps E this request st Hc) as (st1 & st2 & H1 & H2 & Hst).
  assert (Hme : l_mediaTypeError st = None
                \/ exists hs contentType,
                     headers request = Some hs
                     /\ Obj.get "content-type" hs = Some contentType
                     /\ l_mediaTypeError st
                        = Some (unsupportedContentType contentType)).
  { assert (Hfinal : l_mediaTypeError st = l_mediaTypeError st2).
    { rewrite Hst, !partStep_mediaTypeError.
      destruct (l_schemaError st2); [|rewrite partStep_mediaTypeError];
        reflexivity. }
    rewrite Hfinal.
    destruct (BodyStepped_mediaTypeError _ _ _ _ H2) as [->|?]; [|auto].
    destruct (BodyStepped_mediaTypeError _ _ _ _ H1) as [->|?]; auto. }
  clear Hst. unfold classify in H.
  destruct (l_errors st) as [|e es].
  - destruct (l_schemaError st) as [se|].
    + injection H as <-. cbn. repeat split; auto; discriminate.
    + destruct Hme as [Hme|(hs & ct & Hhs & Hct & Hme)]; rewrite Hme in H;
        [discriminate|].
      injection H as <-. cbn. repeat split; auto; [discriminate|].
      intros _. exists hs, ct. auto.
  - injection H as <-. cbn. repeat split; auto; discriminate.
Qed.

Lemma validate_result_shape_witness :
  exists this,
    new_OpenAPIRequestValidator Mini.engine 10 Examples.petArgs = Ok this
    /\ validate Mini.engine this
         (Examples.petRequest "content-type" (Some "text/plain")
            (Some (JObj [])) (JNum 1))
       = Ok (Some {| status := 415;
                     errors := [Plain (unsupportedContentType "text/plain")] |})
    /\ exists hs contentType,
         headers (Examples.petRequest "content-type" (Some "text/plain")
                    (Some (JObj [])) (JNum 1)) = Some hs
         /\ Obj.get "content-type" hs = Some contentType
         /\ [Plain (unsupportedContentType "text/plain")]
            = [Plain {| path := None; errorCode := None;
                        message := "Unsupported Content-Type " ++ contentType;
                        location := None; schema := None |}].
Proof.
  eexists.
  match goal with
  | |- ?n = Ok ?t /\ ?v = ?r /\ _ =>
      assert (Hnew : n = Ok t) by reflexivity;
      assert (Hv : v = r) by reflexivity;
      split; [exact Hnew|]; split; [exact Hv|];
      exact (proj2 (proj2 (validate_result_shape _ _ _ _ Hv)) eq_refl)
  end.
Defined.

(** ** What the constructor sets up *)

Lemma has_set {V : Type} (k k' : string) (v : V) (m : Obj.t V) :
  Obj.has k' (Obj.set k v m) = (String.eqb k' k || Obj.has k' m)%bool.
Proof.
  unfold Obj.has. destruct (String.eqb_spec k' k) as [->|Hne].
  - rewrite get_set_eq. reflexivity.
  - rewrite get_set_ne by exact Hne. reflexivity.
Qed.



Lemma mapM_In {A B : Type} (f : A -> M B) (l : list A) (l' : list B)
  (x : A) (y : B) :
  mapM f l = Ok l' -> In x l -> f x = Ok y -> In y l'.
Proof.
  revert l'. induction l as [|a r IH]; intros l' H Hin Hx; [destruct Hin|].
  cbn [mapM] in H.
  destruct (f a) as [b| |] eqn:Ha; cbn [bind] in H; try discriminate.
  destruct (mapM f r) as [r'| |]; cbn [bind] in H; try discriminate.
  injection H as <-. destruct Hin as [->|Hin].
  - left. congruence.
  - right. apply (IH r' eq_refl Hin Hx).
Qed.

(** Without [requestBody] the body schema and the required flag come from
    the parameters. *)
Lemma constructor_parameters (E : Engine) (fuel : nat) (args : Args.t)
  (this : OpenAPIRequestValidator) (parameters : list JSON) :
  new_OpenAPIRequestValidator E fuel args = Ok this ->
  Args.parameters args = Some (JArr parameters) ->
  exists schemas marks,
    convertParametersToJSONSchema E parameters = Ok schemas
    /\ mapM byRequiredBodyParameters parameters = Ok marks
    /\ bodySchema this = ps_body schemas
    /\ (Args.requestBody args = None ->
          isBodyRequired this
          = Nat.ltb 0 (length (filter (fun b => b) marks))).
Proof.
  unfold new_OpenAPIRequestValidator. cbv zeta. intros H Hp.
  rewrite Hp in H.
  destruct (convertParametersToJSONSchema E parameters) as [schemas| |];
    cbn [bind] in H; try discriminate.
  destruct (lowercasedHeaders (ps_headers schemas)) as [hsch| |];
    cbn [bind] in H; try discriminate.
  destruct (mapM byRequiredBodyParameters parameters) as [marks| |];
    cbn [bind] in H; try discriminate.
  bind_inv H. injection H as <-.
  exists schemas, marks. cbn [bodySchema isBodyRequired ps_body].
  repeat split. intros ->. reflexivity.
Qed.

(** ** The media type that is matched *)

Lemma mediaTypeLoop_result (contentType : string) (keys : list string) :
  forall st k,
    mediaTypeLoop contentType keys st = Some k ->
    matched st = Some k
    \/ (In k keys
        /\ (Str.contains contentType k = true \/ 0 < score contentType k)).
Proof.
  induction keys as [|k0 r IH]; intros st k H; cbn [mediaTypeLoop] in H;
    [left; exact H|].
  rewrite mediaTypeStep_spec in H.
  destruct (Str.contains contentType k0) eqn:Hc.
  - injection H as <-. right. split; [left; reflexivity|left; exact Hc].
  - destruct (IH _ _ H) as [Hm|[Hin Hk]].
    + unfold better in Hm.
      destruct (Nat.ltb_spec (matchPoints st) (score contentType k0)) as [Hlt|Hge].
      * cbn [matched] in Hm. injection Hm as <-. right.
        split; [left; reflexivity|right; lia].
      * left. exact Hm.
    + right. split; [right; exact Hin|exact Hk].
Qed.

Lemma getSchemaForMediaType_key (parse : string -> M string)
  (header : option string) (keys : list string) (k : string) :
  getSchemaForMediaType parse header keys = Ok (Some k) ->
  In k keys
  /\ exists h contentType,
       header = Some h /\ parse h = Ok contentType
       /\ (Str.contains contentType k = true \/ 0 < score contentType k).
Proof.
  unfold getSchemaForMediaType.
  destruct header as [h|]; [|discriminate].
  destruct (String.eqb h ""); [discriminate|].
  destruct (parse h) as [ct|[msg|msg|msg]|] eqn:Hp; try discriminate.
  - intros [= H]. apply mediaTypeLoop_result in H as [H|[Hin Hk]];
      [discriminate H|].
    split; [exact Hin|]. exists h, ct. auto.
  - destruct (String.eqb msg "invalid media type"); discriminate.
Qed.

(** X3.  The media type that [getSchemaForMediaType] returns is always one
    of the configured keys, and one that has to do with the parsed content
    type: it contains it, or it is a wildcard that scores for it. *)
Theorem getSchemaForMediaType_returns_configured_key
  (parse : string -> M string) (header : option string)
  (keys : list string) (k : string) :
  getSchemaForMediaType parse header keys = Ok (Some k) ->
  In k keys
  /\ exists h contentType,
       header = Some h /\ parse h = Ok contentType
       /\ (Str.contains contentType k = true
           \/ isSubtypeWildcardOf contentType k = true
           \/ k = "*/*").
Proof.
  intros H. destruct (getSchemaForMediaType_key _ _ _ _ H)
    as (Hin & h & ct & Hh & Hp & Hk).
  split; [exact Hin|]. exists h, ct. repeat split; try assumption.
  destruct Hk as [Hk|Hk]; [left; exact Hk|right].
  unfold score in Hk.
  destruct (isSubtypeWildcardOf ct k); [left; reflexivity|].
  destruct (String.eqb_spec k "*/*"); [right; assumption|lia].
Qed.

Lemma getSchemaForMediaType_returns_configured_key_witness :
  In "image/*" ["application/json"; "image/*"; "*/*"]
  /\ exists h contentType,
       Some "image/png" = Some h /\ Mini.parse h = Ok contentType
       /\ (Str.contains contentType "image/*" = true
           \/ isSubtypeWildcardOf contentType "image/*" = true
           \/ "image/*" = "*/*").
Proof.
  exact (getSchemaForMediaType_returns_configured_key Mini.parse
           (Some "image/png") ["application/json"; "image/*"; "*/*"]
           "image/*" eq_refl).
Defined.


(** ** Runs that end *)





(** X5.  With a [requestBody] configured, a request that has no [headers]
    object makes [validate] throw a [TypeError] on the content-type lookup;
    without [requestBody] the absent headers count as empty ones. *)
Theorem headers_undefined (E : Engine) (fuel : nat) (args : Args.t)
  (this : OpenAPIRequestValidator) (request : Request) :
  new_OpenAPIRequestValidator E fuel args = Ok this ->
  headers request = None ->
  (Args.requestBody args <> None ->
     validate E this request
     = Throw (TypeError "Cannot read property 'content-type' of undefined"))
  /\ (Args.requestBody args = None ->
        validate E this request = validate E this (withHeaders request [])).
Proof.
  intros Hnew Hhs.
  destruct (constructor_fields E fuel args this Hnew) as (Hrb & _ & _ & Hlegacy).
  split; intros Hargs; unfold validate, collect.
  - destruct (legacyBodyStep_total this
                {| l_errors := []; l_schemaError := None;
                   l_mediaTypeError := None; l_body := body request |} Hlegacy)
      as (st1 & -> & _).
    cbn [bind]. unfold requestBodyStep. rewrite Hrb, Hhs.
    destruct (Args.requestBody args); [reflexivity|contradiction].
  - cbn [body params query headers withHeaders]. rewrite Hhs.
    unfold requestBodyStep. rewrite Hrb, Hargs. reflexivity.
Qed.

Lemma headers_undefined_witness :
  exists this,
    new_OpenAPIRequestValidator Mini.engine 10 Examples.petArgs = Ok this
    /\ validate Mini.engine this (Examples.bareRequest (Some (JObj [])) (JNum 1))
       = Throw (TypeError "Cannot read property 'content-type' of undefined").
Proof.
  eexists.
  match goal with
  | |- ?n = Ok ?t /\ _ =>
      assert (Hnew : n = Ok t) by reflexivity; split; [exact Hnew|];
      refine (proj1 (headers_undefined Mini.engine 10 Examples.petArgs t
                       (Examples.bareRequest (Some (JObj [])) (JNum 1))
                       Hnew eq_refl) _)
  end.
  discriminate.
Defined.

(** X6.  A validator built from parameters alone, one of them a required
    [body] or [formData] parameter, with a body schema: a request without
    body is answered with status 400 and the one missing-body error, which
    carries the body schema of the parameters, when the path, header and
    query parts pass. *)
Theorem legacy_missing_body (E : Engine) (fuel : nat) (args : Args.t)
  (this : OpenAPIRequestValidator) (parameters : list JSON) (param : JSON)
  (request : Request) :
  new_OpenAPIRequestValidator E fuel args = Ok this ->
  Args.requestBody args = None ->
  Args.parameters args = Some (JArr parameters) ->
  In param parameters ->
  byRequiredBodyParameters param = Ok true ->
  truthy_opt (bodySchema this) = true ->
  truthy_opt (body request) = false ->
  passes (validatePath this) (or_empty (params request)) ->
  passes (validateHeaders this) (loweredHeaders request) ->
  passes (validateQuery this) (or_empty (query request)) ->
  isBodyRequired this = true
  /\ validate E this request
     = Ok (Some {| status := 400;
                   errors :=
                     [Plain {| path := None; errorCode := None;
                               message := missingBodyMessage;
                               location := Some "body";
                               schema := bodySchema this |}] |}).
Proof.
  intros Hnew Hargs Hparams Hin Hparam Hschema Hbody Hpath Hheaders Hquery.
  destruct (constructor_fields E fuel args this Hnew) as (Hrb & _).
  destruct (constructor_parameters E fuel args this parameters Hnew Hparams)
    as (schemas & marks & _ & Hmarks & _ & Hrequired).
  assert (Hreq : isBodyRequired this = true).
  { rewrite (Hrequired Hargs). apply Nat.ltb_lt.
    pose proof (mapM_In _ _ _ _ _ Hmarks Hin Hparam) as Htrue.
    assert (Hf : In true (filter (fun b : bool => b) marks))
      by (apply filter_In; auto).
    destruct (filter (fun b : bool => b) marks); [destruct Hf|cbn; lia]. }
  split; [exact Hreq|].
  unfold validate, collect, legacyBodyStep. cbn [l_body].
  rewrite Hschema, Hreq.
  assert (Hl : match body request with
               | Some b =>
                   if truthy b
                   then validateEnvelope (validateBody this) b
                          {| l_errors := []; l_schemaError := None;
                             l_mediaTypeError := None; l_body := body request |}
                   else Ok (withSchemaError (missingBodyError (bodySchema this))
                          {| l_errors := []; l_schemaError := None;
                             l_mediaTypeError := None; l_body := body request |})
               | None => Ok (withSchemaError (missingBodyError (bodySchema this))
                          {| l_errors := []; l_schemaError := None;
                             l_mediaTypeError := None; l_body := body request |})
               end
               = Ok (withSchemaError (missingBodyError (bodySchema this))
                       {| l_errors := []; l_schemaError := None;
                          l_mediaTypeError := None; l_body := body request |})).
  { destruct (body request) as [b|]; [|reflexivity].
    cbn [truthy_opt] in Hbody. rewrite Hbody. reflexivity. }
  rewrite Hl. cbn [bind]. unfold requestBodyStep. rewrite Hrb, Hargs.
  cbn [bind withSchemaError l_schemaError l_errors l_mediaTypeError l_body].
  rewrite (partStep_passes "path" _ _ _ Hpath).
  rewrite (partStep_passes "headers" _ _ _ Hheaders).
  rewrite (partStep_passes "query" _ _ _ Hquery).
  reflexivity.
Qed.

Lemma legacy_missing_body_witness :
  exists this,
    new_OpenAPIRequestValidator Mini.engine 10 Examples.legacyArgs = Ok this
    /\ isBodyRequired this = true
    /\ validate Mini.engine this (Examples.bareRequest None (JNum 1))
       = Ok (Some {| status := 400;
                     errors :=
                       [Plain {| path := None; errorCode := None;
                                 message := missingBodyMessage;
                                 location := Some "body";
                                 schema := bodySchema this |}] |}).
Proof.
  eexists.
  match goal with
  | |- ?n = Ok ?t /\ _ =>
      assert (Hnew : n = Ok t) by reflexivity; split; [exact Hnew|];
      refine (legacy_missing_body Mini.engine 10 Examples.legacyArgs t
                _ (JObj [("in", JStr "body"); ("name", JStr "pet");
                         ("required", JBool true);
                         ("schema", JObj [("type", JStr "object")])])
                (Examples.bareRequest None (JNum 1))
                Hnew eq_refl eq_refl (or_introl eq_refl) eq_refl eq_refl
                eq_refl _ _ _)
  end.
  - intros g Hg. injection Hg as <-. reflexivity.
  - intros g Hg. discriminate Hg.
  - intros g Hg. discriminate Hg.
Defined.

Lemma final_schemaError (this : OpenAPIRequestValidator) (request : Request)
  (st2 : Locals) :
  l_schemaError
    (partStep "query" (validateQuery this) (or_empty (query request))
       (partStep "headers" (validateHeaders this) (loweredHeaders request)
          (partStep "path" (validatePath this) (or_empty (params request))
             match l_schemaError st2 with
             | None => partStep "formData" (validateFormData this)
                         (l_body st2) st2
             | Some _ => st2
             end)))
  = l_schemaError st2.
Proof.
  rewrite !partStep_schemaError.
  destruct (l_schemaError st2) eqn:H; [exact H|].
  rewrite partStep_schemaError. exact H.
Qed.

(** X7.  Once a [requestBody] is configured, its [required] flag alone
    says whether a body is required: when it is not set, no run of
    [validate] records a missing body, whatever the parameters declare. *)
Theorem optional_body_never_missing (E : Engine) (fuel : nat)
  (args : Args.t) (this : OpenAPIRequestValidator) (rb : RequestBodyObject)
  (request : Request) (st : Locals) :
  new_OpenAPIRequestValidator E fuel args = Ok this ->
  Args.requestBody args = Some rb ->
  required rb <> Some true ->
  collect E this request = Ok st ->
  isBodyRequired this = false /\ l_schemaError st = None.
Proof.
  intros Hnew Hargs Hreq Hc.
  destruct (constructor_fields E fuel args this Hnew) as (_ & Hrequired & _).
  assert (Hopt : isBodyRequired this = false).
  { rewrite (Hrequired rb Hargs). destruct (required rb) as [[]|]; congruence. }
  split; [exact Hopt|].
  destruct (collect_steps E this request st Hc) as (st1 & st2 & H1 & H2 & ->).
  rewrite Hopt in H1, H2.
  rewrite final_schemaError.
  rewrite (BodyStepped_schemaError _ _ _ H2).
  rewrite (BodyStepped_schemaError _ _ _ H1). reflexivity.
Qed.

Lemma optional_body_never_missing_witness :
  exists this st,
    new_OpenAPIRequestValidator Mini.engine 10 Examples.overriddenArgs = Ok this
    /\ collect Mini.engine this
         (Examples.headersRequest [("content-type", "application/json")]
            (JNum 1)) = Ok st
    /\ isBodyRequired this = false /\ l_schemaError st = None.
Proof.
  eexists. eexists.
  match goal with
  | |- ?n = Ok ?t /\ ?c = Ok ?s /\ _ =>
      assert (Hnew : n = Ok t) by reflexivity;
      assert (Hc : c = Ok s) by reflexivity;
      split; [exact Hnew|]; split; [exact Hc|];
      refine (optional_body_never_missing Mini.engine 10
                Examples.overriddenArgs t Examples.optionalBody _ s
                Hnew eq_refl _ Hc)
  end.
  discriminate.
Defined.

(** X8.  A validator built with a required [requestBody], given a request
    whose headers hold no [content-type]: the run ends with the violation
    [media type is not specified] among the field errors, so the answer is
    status 400, never 415 and never nothing, whether or not a body was
    sent; the default mapper reports it as a [required] error located in
    the body, without path. *)
Theorem missing_content_type (E : Engine) (fuel : nat) (args : Args.t)
  (this : OpenAPIRequestValidator) (rb : RequestBodyObject)
  (request : Request) (hs : Obj.t string) :
  new_OpenAPIRequestValidator E fuel args = Ok this ->
  Args.requestBody args = Some rb ->
  required rb = Some true ->
  headers request = Some hs ->
  Obj.get "content-type" hs = None ->
  exists st,
    collect E this request = Ok st
    /\ In mediaTypeNotSpecified (l_errors st)
    /\ validate E this request
       = Ok (Some {| status := 400;
                     errors := map (errorMapper this) (l_errors st) |})
    /\ (Args.errorTransformer args = None ->
          In (Plain {| path := None;
                       errorCode := Some "required.openapi.validation";
                       message := "media type is not specified";
                       location := Some "body"; schema := None |})
             (map (errorMapper this) (l_errors st))).
Proof.
  intros Hnew Hargs Hreq Hhs Hct.
  destruct (constructor_fields E fuel args this Hnew)
    as (Hrb & Hrequired & Hmapper & Hlegacy).
  rewrite Hargs in Hrb. specialize (Hrequired rb Hargs).
  rewrite Hreq in Hrequired.
  destruct (legacyBodyStep_total this
              {| l_errors := []; l_schemaError := None;
                 l_mediaTypeError := None; l_body := body request |} Hlegacy)
    as (st1 & Hst1 & _).
  pose proof (requestBodyStep_exact_name E this rb request hs st1
                Hrb Hrequired Hhs Hct) as Hst2.
  set (st2 := {| l_errors := (l_errors st1 ++ [mediaTypeNotSpecified])%list;
                 l_schemaError := l_schemaError st1;
                 l_mediaTypeError := l_mediaTypeError st1;
                 l_body := l_body st1 |}) in *.
  set (st3 := match l_schemaError st2 with
              | None => partStep "formData" (validateFormData this)
                          (l_body st2) st2
              | Some _ => st2
              end).
  set (final := partStep "query" (validateQuery this) (or_empty (query request))
                  (partStep "headers" (validateHeaders this)
                     (loweredHeaders request)
                     (partStep "path" (validatePath this)
                        (or_empty (params request)) st3))).
  assert (Hc : collect E this request = Ok final).
  { unfold collect. rewrite Hst1. cbn [bind]. rewrite Hst2. reflexivity. }
  assert (Hin : In mediaTypeNotSpecified (l_errors final)).
  { assert (H3 : In mediaTypeNotSpecified (l_errors st3)).
    { subst st3. destruct (l_schemaError st2).
      - cbn. apply in_or_app. right. left. reflexivity.
      - destruct (partStep_errors "formData" (validateFormData this)
                    (l_body st2) st2) as (f & -> & _).
        apply in_or_app. left. cbn. apply in_or_app. right. left. reflexivity. }
    subst final.
    repeat match goal with
           | |- In _ (l_errors (partStep ?l ?f ?d ?s)) =>
               destruct (partStep_errors l f d s) as (? & -> & _);
               apply in_or_app; left
           end.
    exact H3. }
  exists final. repeat split; [exact Hc|exact Hin| |].
  - unfold validate. rewrite Hc. cbn [bind]. unfold classify.
    destruct (l_errors final); [destruct Hin|reflexivity].
  - intros Hdefault. rewrite Hmapper, Hdefault.
    apply in_map_iff. exists mediaTypeNotSpecified. split; [reflexivity|exact Hin].
Qed.

Lemma missing_content_type_witness :
  exists this st,
    new_OpenAPIRequestValidator Mini.engine 10 Examples.petArgs = Ok this
    /\ collect Mini.engine this
         (Examples.petRequest "content-type" None (Some (JObj [])) (JNum 1))
       = Ok st
    /\ validate Mini.engine this
         (Examples.petRequest "content-type" None (Some (JObj [])) (JNum 1))
       = Ok (Some {| status := 400;
                     errors := map (errorMapper this) (l_errors st) |}).
Proof.
  eexists. eexists.
  match goal with
  | |- ?n = Ok ?t /\ ?c = Ok ?s /\ _ =>
      assert (Hnew : n = Ok t) by reflexivity;
      assert (Hc : c = Ok s) by reflexivity;
      split; [exact Hnew|]; split; [exact Hc|];
      destruct (missing_content_type Mini.engine 10 Examples.petArgs t
                  Examples.petBody
                  (Examples.petRequest "content-type" None (Some (JObj []))
                     (JNum 1))
                  [("X-Request-Id", "r1")]
                  Hnew eq_refl eq_refl eq_refl eq_refl)
        as (st' & Hc' & _ & Hv & _)
  end.
  rewrite Hc in Hc'. injection Hc' as <-. exact Hv.
Defined.

(** X9.  A validator built with a [requestBody], given a [content-type]
    header its parser rejects.  When the parser threw the [TypeError]
    [invalid media type], the header counts as unsupported: the run ends
    with the media-type error quoting the header as sent.  Any other
    exception of the parser leaves [validate] as it was thrown. *)
Theorem content_type_parser_failure (E : Engine) (fuel : nat) (args : Args.t)
  (this : OpenAPIRequestValidator) (rb : RequestBodyObject)
  (request : Request) (hs : Obj.t string) (ct : string) (e : Exn) :
  new_OpenAPIRequestValidator E fuel args = Ok this ->
  Args.requestBody args = Some rb ->
  headers request = Some hs ->
  Obj.get "content-type" hs = Some ct ->
  ct <> "" ->
  contentTypeParse E ct = Throw e ->
  (e = TypeError "invalid media type" ->
     exists st, collect E this request = Ok st
       /\ l_mediaTypeError st = Some (unsupportedContentType ct))
  /\ (e <> TypeError "invalid media type" ->
        validate E this request = Throw e).
Proof.
  intros Hnew Hargs Hhs Hct Hne Hparse.
  destruct (constructor_fields E fuel args this Hnew)
    as (Hrb & _ & _ & Hlegacy).
  rewrite Hargs in Hrb.
  destruct (legacyBodyStep_total this
              {| l_errors := []; l_schemaError := None;
                 l_mediaTypeError := None; l_body := body request |} Hlegacy)
    as (st1 & Hst1 & _).
  apply String.eqb_neq in Hne.
  split.
  - intros ->.
    assert (H2 : requestBodyStep E this request st1
                 = Ok {| l_errors := l_errors st1;
                         l_schemaError := l_schemaError st1;
                         l_mediaTypeError := Some (unsupportedContentType ct);
                         l_body := l_body st1 |}).
    { unfold requestBodyStep. rewrite Hrb, Hhs. cbn [bind]. rewrite Hct.
      unfold getSchemaForMediaType. rewrite Hne, Hparse.
      reflexivity. }
    eexists. split.
    + unfold collect. rewrite Hst1. cbn [bind]. rewrite H2. cbn [bind].
      reflexivity.
    + rewrite !partStep_mediaTypeError.
      match goal with
      | |- l_mediaTypeError (match ?c with _ => _ end) = _ => destruct c
      end; [reflexivity|].
      rewrite partStep_mediaTypeError. reflexivity.
  - intros Hother.
    unfold validate, collect. rewrite Hst1. cbn [bind].
    unfold requestBodyStep. rewrite Hrb, Hhs. cbn [bind]. rewrite Hct.
    unfold getSchemaForMediaType. rewrite Hne, Hparse.
    destruct e as [msg|msg|msg]; try reflexivity.
    destruct (String.eqb msg "invalid media type") eqn:Hm; [|reflexivity].
    apply String.eqb_eq in Hm. subst msg. exfalso. apply Hother. reflexivity.
Qed.

Lemma content_type_parser_failure_witness :
  exists this st,
    new_OpenAPIRequestValidator Mini.engine 10 Examples.petArgs = Ok this
    /\ collect Mini.engine this
         (Examples.petRequest "content-type" (Some "json") (Some (JObj []))
            (JNum 1)) = Ok st
    /\ l_mediaTypeError st = Some (unsupportedContentType "json").
Proof.
  eexists. eexists.
  match goal with
  | |- ?n = Ok ?t /\ ?c = Ok ?s /\ _ =>
      assert (Hnew : n = Ok t) by reflexivity;
      assert (Hc : c = Ok s) by reflexivity;
      split; [exact Hnew|]; split; [exact Hc|];
      assert (Hne : "json" <> "") by discriminate;
      destruct (content_type_parser_failure Mini.engine 10 Examples.petArgs t
                  Examples.petBody
                  (Examples.petRequest "content-type" (Some "json")
                     (Some (JObj [])) (JNum 1))
                  [("X-Request-Id", "r1"); ("content-type", "json")] "json"
                  (TypeError "invalid media type")
                  Hnew eq_refl eq_refl eq_refl Hne eq_refl)
        as (Hbad & _)
  end.
  destruct (Hbad eq_refl) as (st' & Hc' & Hm).
  rewrite Hc in Hc'. injection Hc' as <-. exact Hm.
Defined.

(** ** The default error mapper, outside the body *)

Lemma instance_strip (full : string) :
  Str.remove_prefix_opt_dot "instance" ("instance" ++ full) = payloadPath full.
Proof.
  unfold Str.remove_prefix_opt_dot. rewrite strip_prefix_app.
  unfold payloadPath. destruct full as [|a r]; [reflexivity|].
  destruct a as [[] [] [] [] [] [] [] []]; reflexivity.
Qed.

Lemma path_with_missing (error : ErrorObject) :
  match missingProperty (e_params error) with
  | Some mp =>
      if String.eqb mp "" then "instance" ++ dataPath error
      else ("instance" ++ dataPath error) ++ "." ++ mp
  | None => "instance" ++ dataPath error
  end
  = "instance"
      ++ (dataPath error ++ missingSuffix (missingProperty (e_params error))).
Proof.
  unfold missingSuffix.
  destruct (missingProperty (e_params error)) as [mp|].
  - destruct (String.eqb mp "").
    + rewrite append_empty_r. reflexivity.
    + rewrite !append_assoc. reflexivity.
  - rewrite append_empty_r. reflexivity.
Qed.


Lemma not_body (o : option string) :
  o <> Some "body" -> opt_string_eqb o "body" = false.
Proof.
  intros H. destruct o as [s|]; [|reflexivity]. cbn.
  destruct (String.eqb_spec s "body") as [->|]; [contradiction|reflexivity].
Qed.

(** X10.  A violation located anywhere but in the body: the default mapper
    reports the engine path with its leading dot taken off and the name of
    a missing property appended (the [instance] prefix it puts in front is
    always taken off again), no [path] when that is empty, and leaves
    message and location as they are. *)
Theorem toOpenapiValidationError_outside_body (error : ErrorObject) :
  e_location error <> Some "body" ->
  path (toOpenapiValidationError error)
  = (let rel :=
       payloadPath
         (dataPath error ++ missingSuffix (missingProperty (e_params error))) in
     if String.eqb rel "" then None else Some rel)
  /\ message (toOpenapiValidationError error) = e_message error
  /\ location (toOpenapiValidationError error) = e_location error.
Proof.
  intros Hloc. apply not_body in Hloc.
  unfold toOpenapiValidationError. rewrite Hloc.
  rewrite path_with_missing, instance_strip.
  unfold stripBodyInfo. cbn [location]. rewrite Hloc.
  cbn [path message location]. repeat split; reflexivity.
Qed.

Lemma toOpenapiValidationError_outside_body_witness :
  path (toOpenapiValidationError
          {| keyword := "required"; dataPath := ".filter";
             e_message := "should have required property 'name'";
             e_params := {| missingProperty := Some "name"; ref := None |};
             e_location := Some "query" |})
  = Some "filter.name".
Proof.
  assert (H : Some "query" <> Some "body") by discriminate.
  exact (proj1 (toOpenapiValidationError_outside_body
                  {| keyword := "required"; dataPath := ".filter";
                     e_message := "should have required property 'name'";
                     e_params := {| missingProperty := Some "name";
                                    ref := None |};
                     e_location := Some "query" |} H)).
Defined.



(** X12.  A public error of the default mapper carries an [errorCode] or a
    [schema], never both: a [$ref] violation gets the unresolved reference
    as its schema and no code, every other violation gets its keyword
    followed by [.openapi.validation] and no schema. *)
Theorem toOpenapiValidationError_code_or_schema (error : ErrorObject) :
  (keyword error = "$ref"
   /\ errorCode (toOpenapiValidationError error) = None
   /\ schema (toOpenapiValidationError error)
      = Some (JObj match ref (e_params error) with
                   | Some r => [("$ref", JStr r)]
                   | None => []
                   end))
  \/ (keyword error <> "$ref"
      /\ errorCode (toOpenapiValidationError error)
         = Some (keyword error ++ ".openapi.validation")
      /\ schema (toOpenapiValidationError error) = None).
Proof.
  unfold toOpenapiValidationError, stripBodyInfo. cbn [location].
  destruct (String.eqb_spec (keyword error) "$ref") as [Hk|Hk];
    [left|right]; (split; [exact Hk|]);
    destruct (opt_string_eqb (e_location error) "body"); split; reflexivity.
Qed.

(** ** The error transformer *)

Lemma BodyStepped_schemaError_shape (request : Request) (isRequired : bool)
  (st st' : Locals) :
  BodyStepped request isRequired st st' ->
  l_schemaError st' = l_schemaError st
  \/ exists schema, l_schemaError st' = Some (missingBodyError schema).
Proof.
  intros H. destruct H; cbn; auto. right. eexists. reflexivity.
Qed.

Lemma final_mediaTypeError (this : OpenAPIRequestValidator) (request : Request)
  (st2 : Locals) :
  l_mediaTypeError
    (partStep "query" (validateQuery this) (or_empty (query request))
       (partStep "headers" (validateHeaders this) (loweredHeaders request)
          (partStep "path" (validatePath this) (or_empty (params request))
             match l_schemaError st2 with
             | None => partStep "formData" (validateFormData this)
                         (l_body st2) st2
             | Some _ => st2
             end)))
  = l_mediaTypeError st2.
Proof.
  rewrite !partStep_mediaTypeError.
  destruct (l_schemaError st2); [reflexivity|].
  apply partStep_mediaTypeError.
Qed.

(** X13.  A validator built with an [errorTransformer]: whenever [validate]
    reports field errors, every one of them is what the transformer
    returned for the default public error and the engine violation it was
    made from; the missing-body answer and the unsupported-content-type
    answer are never handed to the transformer. *)
Theorem errorTransformer_bypassed (E : Engine) (fuel : nat) (args : Args.t)
  (this : OpenAPIRequestValidator) (t : ErrorTransformer)
  (request : Request) (r : ValidationResult) :
  new_OpenAPIRequestValidator E fuel args = Ok this ->
  Args.errorTransformer args = Some t ->
  validate E this request = Ok (Some r) ->
  (exists es,
     es <> [] /\ status r = 400
     /\ errors r = map (fun e => Custom (t (toOpenapiValidationError e) e)) es)
  \/ (exists schema,
        status r = 400 /\ errors r = [Plain (missingBodyError schema)])
  \/ (exists contentType,
        status r = 415 /\ errors r = [Plain (unsupportedContentType contentType)]).
Proof.
  intros Hnew Ht Hv.
  destruct (constructor_fields E fuel args this Hnew) as (_ & _ & Hmapper & _).
  rewrite Ht in Hmapper.
  unfold validate in Hv.
  destruct (collect E this request) as [st| |] eqn:Hc; try discriminate.
  cbn [bind] in Hv. injection Hv as Hv.
  destruct (collect_steps E this request st Hc) as (st1 & st2 & H1 & H2 & Hst).
  assert (Hs : l_schemaError st = None
               \/ exists schema, l_schemaError st = Some (missingBodyError schema)).
  { rewrite Hst, final_schemaError.
    destruct (BodyStepped_schemaError_shape _ _ _ _ H2) as [->|]; [|auto].
    destruct (BodyStepped_schemaError_shape _ _ _ _ H1) as [->|]; auto. }
  assert (Hm : l_mediaTypeError st = None
               \/ exists ct, l_mediaTypeError st = Some (unsupportedContentType ct)).
  { rewrite Hst, final_mediaTypeError.
    destruct (BodyStepped_mediaTypeError _ _ _ _ H2) as [->|(hs & ct & _ & _ & ->)];
      [|eauto].
    destruct (BodyStepped_mediaTypeError _ _ _ _ H1) as [->|(hs & ct & _ & _ & ->)];
      eauto. }
  unfold classify in Hv.
  destruct (l_errors st) as [|e es] eqn:He.
  - right. destruct Hs as [Hs|(schema & Hs)]; rewrite Hs in Hv.
    + destruct Hm as [Hm|(ct & Hm)]; rewrite Hm in Hv; [discriminate|].
      injection Hv as <-. right. exists ct. split; reflexivity.
    + injection Hv as <-. left. exists schema. split; reflexivity.
  - left. injection Hv as <-. exists (e :: es).
    split; [discriminate|]. split; [reflexivity|].
    cbn [errors]. rewrite Hmapper. reflexivity.
Qed.

Lemma errorTransformer_bypassed_witness :
  exists this r,
    new_OpenAPIRequestValidator Mini.engine 10 Cases.transformedArgs = Ok this
    /\ validate Mini.engine this
         (Examples.petRequest "content-type" (Some "application/json")
            (Some (JObj [])) (JStr "one")) = Ok (Some r)
    /\ ((exists es,
           es <> [] /\ status r = 400
           /\ errors r
              = map (fun e => Custom (Cases.messageOnly
                                        (toOpenapiValidationError e) e)) es)
        \/ (exists schema,
              status r = 400 /\ errors r = [Plain (missingBodyError schema)])
        \/ (exists contentType,
              status r = 415
              /\ errors r = [Plain (unsupportedContentType contentType)])).
Proof.
  eexists. eexists.
  match goal with
  | |- ?n = Ok ?t /\ ?v = Ok (Some ?r) /\ _ =>
      assert (Hnew : n = Ok t) by reflexivity;
      assert (Hv : v = Ok (Some r)) by reflexivity;
      split; [exact Hnew|]; split; [exact Hv|];
      exact (errorTransformer_bypassed Mini.engine 10
               Cases.transformedArgs t Cases.messageOnly _ r
               Hnew eq_refl Hv)
  end.
Defined.

(** ** Header names, member by member *)

Lemma NoDup_keys_split {V : Type} (pre : Obj.t V) (k : string) (v : V)
  (suf : Obj.t V) :
  NoDup (Obj.keys (pre ++ (k, v) :: suf)%list) ->
  ~ In k (Obj.keys pre) /\ ~ In k (Obj.keys suf).
Proof.
  unfold Obj.keys. rewrite map_app. cbn [map fst]. intros H.
  pose proof (NoDup_remove_2 _ _ _ H) as Hn.
  split; intros Hin; apply Hn; apply in_or_app; [left|right]; exact Hin.
Qed.

Lemma get_rev_snoc {V : Type} (n k : string) (v : V) (pre : Obj.t V) :
  Obj.get n (rev (pre ++ [(k, v)])%list)
  = if String.eqb n k then Some v else Obj.get n (rev pre).
Proof. rewrite rev_app_distr. reflexivity. Qed.

(** X14.  [lowercaseRequestHeaders] on request headers with distinct
    names: under every name the result holds the value of the last header
    whose lowercased name it is, so of two names that differ in case only
    the later one wins; and when no two names differ in case only, the
    result is the headers in their order, each under its lowercased
    name. *)
Theorem lowercaseRequestHeaders_last_wins {V : Type} (hs : Obj.t V) :
  NoDup (Obj.keys hs) ->
  (forall n, Obj.get n (lowercaseRequestHeaders hs)
             = Obj.get n (rev (map lowerName hs)))
  /\ (NoDup (map Str.toLowerCase (Obj.keys hs)) ->
        lowercaseRequestHeaders hs = map lowerName hs).
Proof.
  intros Hnd. unfold lowercaseRequestHeaders. split.
  - assert (H : forall (suf pre acc : Obj.t V),
              hs = (pre ++ suf)%list ->
              (forall n, Obj.get n acc = Obj.get n (rev (map lowerName pre))) ->
              forall n,
                Obj.get n
                  (fold_left
                     (fun lowerCasedHeaders header =>
                        match Obj.get header hs with
                        | Some v =>
                            Obj.set (Str.toLowerCase header) v lowerCasedHeaders
                        | None => lowerCasedHeaders
                        end) (Obj.keys suf) acc)
                = Obj.get n (rev (map lowerName hs))).
    { induction suf as [|[k v] r IH]; intros pre acc Hhs Hacc n;
        cbn [Obj.keys map fold_left fst].
      - rewrite Hhs, app_nil_r. apply Hacc.
      - assert (Hfresh : ~ In k (Obj.keys pre)).
        { rewrite Hhs in Hnd. apply (NoDup_keys_split pre k v r Hnd). }
        rewrite Hhs at 1. rewrite (get_app_fresh k v pre r Hfresh).
        apply (IH (pre ++ [(k, v)])%list).
        + rewrite Hhs, <- app_assoc. reflexivity.
        + intros n0. rewrite map_app. cbn [map].
          unfold lowerName at 2. cbn [fst snd]. rewrite get_rev_snoc.
          destruct (String.eqb_spec n0 (Str.toLowerCase k)) as [->|Hne].
          * apply get_set_eq.
          * rewrite get_set_ne by exact Hne. apply Hacc. }
    apply (H hs [] []); [reflexivity|reflexivity].
  - intros Hlow.
    assert (H : forall (suf pre : Obj.t V),
              hs = (pre ++ suf)%list ->
              fold_left
                (fun lowerCasedHeaders header =>
                   match Obj.get header hs with
                   | Some v =>
                       Obj.set (Str.toLowerCase header) v lowerCasedHeaders
                   | None => lowerCasedHeaders
                   end) (Obj.keys suf) (map lowerName pre)
              = map lowerName hs).
    { induction suf as [|[k v] r IH]; intros pre Hhs;
        cbn [Obj.keys map fold_left fst].
      - rewrite Hhs, app_nil_r. reflexivity.
      - assert (Hfresh : ~ In k (Obj.keys pre)).
        { rewrite Hhs in Hnd. apply (NoDup_keys_split pre k v r Hnd). }
        assert (Hnew : ~ In (Str.toLowerCase k) (Obj.keys (map lowerName pre))).
        { rewrite Hhs in Hlow. unfold Obj.keys in Hlow |- *.
          rewrite !map_app in Hlow. cbn [map fst] in Hlow.
          apply NoDup_remove_2 in Hlow. intros Hin. apply Hlow.
          apply in_or_app. left.
          rewrite map_map in Hin |- *. exact Hin. }
        rewrite Hhs at 1. rewrite (get_app_fresh k v pre r Hfresh).
        rewrite (set_fresh _ v _ Hnew).
        change (map lowerName pre ++ [(Str.toLowerCase k, v)])%list
          with (map lowerName pre ++ map lowerName [(k, v)])%list.
        rewrite <- map_app.
        apply IH. rewrite Hhs, <- app_assoc. reflexivity. }
    apply (H hs []). reflexivity.
Qed.

Lemma lowercaseRequestHeaders_last_wins_witness :
  Obj.get "accept"
    (lowercaseRequestHeaders [("Accept", "text/html"); ("ACCEPT", "*/*")])
  = Some "*/*".
Proof.
  assert (Hnd : NoDup (Obj.keys [("Accept", "text/html"); ("ACCEPT", "*/*")])).
  { cbn. constructor; [|constructor; [|constructor]].
    - intros [H|[]]. discriminate H.
    - intros []. }
  exact (proj1 (lowercaseRequestHeaders_last_wins
                  [("Accept", "text/html"); ("ACCEPT", "*/*")] Hnd) "accept").
Defined.

Lemma relowerProperties_get (pm : Obj.t JSON) :
  NoDup (map Str.toLowerCase (Obj.keys pm)) ->
  forall k, In k (Obj.keys pm) ->
    Obj.get (Str.toLowerCase k) (relowerProperties pm) = Obj.get k pm.
Proof.
  intros Hnd. unfold relowerProperties.
  assert (H : forall (suf pre : list string) (props : Obj.t JSON),
            Obj.keys pm = (pre ++ suf)%list ->
            (forall k, In k pre ->
               Obj.get (Str.toLowerCase k) props = Obj.get k pm) ->
            (forall k, In k suf -> Obj.get k props = Obj.get k pm) ->
            forall k, In k (Obj.keys pm) ->
              Obj.get (Str.toLowerCase k)
                (fold_left
                   (fun props header =>
                      match Obj.get header props with
                      | Some property =>
                          Obj.set (Str.toLowerCase header) property
                            (Obj.delete header props)
                      | None => props
                      end) suf props)
              = Obj.get k pm).
  { induction suf as [|h r IH]; intros pre props Hk Hpre Hsuf k Hin;
      cbn [fold_left].
    - apply Hpre. rewrite Hk, app_nil_r in Hin. exact Hin.
    - assert (Hh : In h (Obj.keys pm)).
      { rewrite Hk. apply in_or_app. right. left. reflexivity. }
      destruct (In_keys_get h pm Hh) as (v & Hv).
      assert (Hfresh : ~ In (Str.toLowerCase h)
                         (map Str.toLowerCase pre ++ map Str.toLowerCase r)%list).
      { rewrite Hk, map_app in Hnd. cbn [map] in Hnd.
        apply (NoDup_remove_2 _ _ _ Hnd). }
      assert (Hother : forall x, In x pre \/ In x r ->
                Str.toLowerCase x <> Str.toLowerCase h).
      { intros x Hx Heq. apply Hfresh. rewrite <- Heq.
        apply in_or_app. destruct Hx as [Hx|Hx]; [left|right];
          apply in_map; exact Hx. }
      rewrite (Hsuf h (or_introl eq_refl)), Hv.
      apply (IH (pre ++ [h])%list); [| | |exact Hin].
      + rewrite Hk, <- app_assoc. reflexivity.
      + intros x Hx. apply in_app_or in Hx as [Hx|[<-|[]]].
        * rewrite get_set_ne by (apply Hother; left; exact Hx).
          rewrite get_delete_ne; [apply Hpre; exact Hx|].
          intros Heq. apply (Hother x (or_introl Hx)).
          rewrite <- Heq. symmetry. apply toLowerCase_idempotent.
        * rewrite get_set_eq. symmetry. exact Hv.
      + intros x Hx.
        assert (Hne : Str.toLowerCase x <> Str.toLowerCase h)
          by (apply Hother; right; exact Hx).
        rewrite get_set_ne.
        * rewrite get_delete_ne; [apply Hsuf; right; exact Hx|].
          intros ->. apply Hne. reflexivity.
        * intros ->. apply Hne. apply toLowerCase_idempotent. }
  apply (H (Obj.keys pm) [] pm); [reflexivity|intros k []|reflexivity].
Qed.

Lemma lowercasedHeaders_result (m m' pm : Obj.t JSON) :
  Obj.get "properties" m = Some (JObj pm) ->
  lowercasedHeaders (Some (JObj m)) = Ok (Some (JObj m')) ->
  (m' = Obj.set "properties" (JObj (relowerProperties pm)) m
   /\ forall x r, Obj.get "required" m <> Some (JArr (x :: r)))
  \/ (exists x r l',
        Obj.get "required" m = Some (JArr (x :: r))
        /\ mapM lowerRequiredEntry (x :: r) = Ok l'
        /\ m' = Obj.set "required" (JArr l')
                  (Obj.set "properties" (JObj (relowerProperties pm)) m)).
Proof.
  intros Hprops H. unfold lowercasedHeaders in H. rewrite Hprops in H.
  cbn [bind] in H.
  rewrite get_set_ne in H by discriminate.
  destruct (Obj.get "required" m) as [req|] eqn:Hreq.
  - destruct req as [| | |s|l|r].
    + injection H as <-. left. split; [reflexivity|discriminate].
    + injection H as <-. left. split; [reflexivity|discriminate].
    + injection H as <-. left. split; [reflexivity|discriminate].
    + destruct (String.eqb s ""); [|discriminate].
      injection H as <-. left. split; [reflexivity|discriminate].
    + destruct l as [|x l].
      * injection H as <-. left. split; [reflexivity|discriminate].
      * destruct (mapM lowerRequiredEntry (x :: l)) as [required| |] eqn:Hmap;
          cbn [bind] in H; try discriminate.
        injection H as <-. right. exists x, l, required. auto.
    + destruct (truthy_opt (Obj.get "length" r)); [discriminate|].
      injection H as <-. left. split; [reflexivity|discriminate].
  - injection H as <-. left. split; [reflexivity|discriminate].
Qed.

(** X15.  [lowercasedHeaders] on a header schema in which no two property
    names differ in case only: every header keeps its schema, now under its
    lowercased name; a [required] list of names becomes the list of the
    lowercased names; every other member of the schema is left as it
    was. *)
Theorem lowercasedHeaders_keeps_schemas (m m' pm : Obj.t JSON) :
  Obj.get "properties" m = Some (JObj pm) ->
  NoDup (map Str.toLowerCase (Obj.keys pm)) ->
  lowercasedHeaders (Some (JObj m)) = Ok (Some (JObj m')) ->
  (exists pm',
     Obj.get "properties" m' = Some (JObj pm')
     /\ forall k, In k (Obj.keys pm) ->
          Obj.get (Str.toLowerCase k) pm' = Obj.get k pm)
  /\ (forall names,
        Obj.get "required" m = Some (JArr (map JStr names)) ->
        Obj.get "required" m'
        = Some (JArr (map (fun s => JStr (Str.toLowerCase s)) names)))
  /\ (forall k, k <> "properties" -> k <> "required" ->
        Obj.get k m' = Obj.get k m).
Proof.
  intros Hprops Hnd H.
  destruct (lowercasedHeaders_result m m' pm Hprops H)
    as [[-> Hnone]|(x & r & l' & Hreq & Hmap & ->)].
  - split; [|split].
    + exists (relowerProperties pm). split; [apply get_set_eq|].
      apply relowerProperties_get. exact Hnd.
    + intros names Hnames. rewrite get_set_ne by discriminate.
      rewrite Hnames. destruct names as [|n names]; [reflexivity|].
      exfalso. exact (Hnone _ _ Hnames).
    + intros k Hk _. apply get_set_ne. exact Hk.
  - split; [|split].
    + exists (relowerProperties pm). split.
      * rewrite get_set_ne by discriminate. apply get_set_eq.
      * apply relowerProperties_get. exact Hnd.
    + intros names Hnames. rewrite get_set_eq.
      rewrite Hnames in Hreq. injection Hreq as Hreq.
      rewrite <- Hreq in Hmap.
      rewrite (mapM_pointwise lowerRequiredEntry
                 (fun j => match j with
                           | JStr s => JStr (Str.toLowerCase s)
                           | _ => j
                           end)) in Hmap.
      * injection Hmap as <-. rewrite map_map. reflexivity.
      * intros j Hj. apply in_map_iff in Hj as (s & <- & _). reflexivity.
    + intros k Hk Hk'. rewrite get_set_ne by exact Hk'.
      apply get_set_ne. exact Hk.
Qed.

Lemma lowercasedHeaders_keeps_schemas_witness :
  exists m',
    lowercasedHeaders (Some (JObj Cases.headerSchema)) = Ok (Some (JObj m'))
    /\ (exists pm',
          Obj.get "properties" m' = Some (JObj pm')
          /\ Obj.get "x-request-id" pm' = Some (JObj [("type", JStr "string")]))
    /\ Obj.get "required" m' = Some (JArr [JStr "x-request-id"]).
Proof.
  eexists.
  match goal with
  | |- ?c = Ok (Some (JObj ?x)) /\ _ =>
      assert (Hc : c = Ok (Some (JObj x))) by reflexivity;
      split; [exact Hc|];
      assert (Hnd : NoDup (map Str.toLowerCase
                             (Obj.keys [("X-Request-Id",
                                         JObj [("type", JStr "string")])])))
        by (cbn; constructor; [intros []|constructor]);
      destruct (lowercasedHeaders_keeps_schemas Cases.headerSchema x
                  [("X-Request-Id", JObj [("type", JStr "string")])]
                  eq_refl Hnd Hc) as ((pm' & Hp & Hget) & Hreq & _)
  end.
  split.
  - exists pm'. split; [exact Hp|].
    exact (Hget "X-Request-Id" (or_introl eq_refl)).
  - exact (Hreq ["X-Request-Id"] eq_refl).
Defined.

(** ** The readOnly sanitization, in general *)

Lemma readOnly_marks (pm : Obj.t JSON) (marks : list (option string)) :
  mapM (fun kv => readOnlyKey (fst kv) (snd kv)) pm = Ok marks ->
  somes marks = readOnlyNames pm.
Proof.
  unfold readOnlyNames. revert marks.
  induction pm as [|[k p] r IH]; intros marks H; cbn [mapM fst snd] in H.
  - injection H as <-. reflexivity.
  - destruct (readOnlyKey k p) as [mark| |] eqn:Hk; cbn [bind] in H;
      try discriminate.
    + destruct (mapM _ r) as [marks'| |]; cbn [bind] in H; try discriminate.
      injection H as <-. specialize (IH marks' eq_refl).
      cbn [filter snd]. unfold readOnlyKey in Hk.
      destruct p as [|b|n|s|l|o]; cbn [truthy isReadOnly] in Hk |- *.
      * injection Hk as <-. exact IH.
      * destruct b; [discriminate|]. injection Hk as <-. exact IH.
      * destruct (negb (Z.eqb n 0)); [discriminate|].
        injection Hk as <-. exact IH.
      * destruct (negb (String.eqb s "")); [discriminate|].
        injection Hk as <-. exact IH.
      * injection Hk as <-. exact IH.
      * destruct (Obj.get "readOnly" o) as [[|[]| | | |]|];
          injection Hk as <-; cbn [is_true somes map fst]; rewrite IH;
          reflexivity.
Qed.

Lemma indexOf_spec (value : string) (required : list JSON) :
  (indexOf value required = (-1)%Z /\ ~ In (JStr value) required)
  \/ (exists pre suf,
        required = (pre ++ JStr value :: suf)%list
        /\ ~ In (JStr value) pre
        /\ indexOf value required = Z.of_nat (length pre)).
Proof.
  induction required as [|x r IH]; cbn [indexOf].
  - left. split; [reflexivity|intros []].
  - destruct (JSON_eqb x (JStr value)) eqn:Hx.
    + apply JSON_eqb_eq in Hx. subst x. right. exists [], r.
      repeat split. intros [].
    + assert (Hne : x <> JStr value).
      { intros ->. rewrite (proj2 (JSON_eqb_eq _ _) eq_refl) in Hx.
        discriminate. }
      destruct IH as [[-> Hnot]|(pre & suf & -> & Hpre & ->)].
      * left. split; [reflexivity|]. intros [H|H]; [exact (Hne H)|exact (Hnot H)].
      * right. exists (x :: pre), suf. repeat split.
        -- intros [H|H]; [exact (Hne H)|exact (Hpre H)].
        -- destruct (Z.ltb_spec (Z.of_nat (length pre)) 0); [lia|].
           cbn [length]. lia.
Qed.

Lemma remove_at_app {A : Type} (pre : list A) (x : A) (suf : list A) :
  remove_at (length pre) (pre ++ x :: suf)%list = (pre ++ suf)%list.
Proof.
  induction pre as [|y pre IH]; [reflexivity|].
  cbn [length app remove_at]. rewrite IH. reflexivity.
Qed.

Lemma splice1_found (pre : list JSON) (x : JSON) (suf : list JSON) :
  splice1 (Z.of_nat (length pre)) (pre ++ x :: suf)%list = (pre ++ suf)%list.
Proof.
  unfold splice1.
  destruct (Z.ltb_spec (Z.of_nat (length pre)) 0) as [H|H]; [lia|].
  rewrite Z.min_l by (rewrite length_app; cbn [length]; lia).
  rewrite Nat2Z.id. apply remove_at_app.
Qed.

(** One pass of the [forEach]: the first entry naming the key goes, or,
    when there is none, the last entry. *)
Lemma splice1_indexOf (value : string) (required : list JSON) :
  (~ In (JStr value) required
   /\ splice1 (indexOf value required) required = removelast required)
  \/ (exists pre suf,
        required = (pre ++ JStr value :: suf)%list
        /\ ~ In (JStr value) pre
        /\ splice1 (indexOf value required) required = (pre ++ suf)%list).
Proof.
  destruct (indexOf_spec value required)
    as [[Hi Hnot]|(pre & suf & Hr & Hpre & Hi)].
  - left. split; [exact Hnot|]. apply splice1_absent_removes_last. exact Hi.
  - right. exists pre, suf. repeat split; [exact Hr|exact Hpre|].
    rewrite Hi, Hr. apply splice1_found.
Qed.

Lemma removelast_length {A : Type} (l : list A) :
  length (removelast l) = length l - 1.
Proof.
  induction l as [|x r IH]; [reflexivity|].
  destruct r as [|y r']; [reflexivity|].
  cbn [removelast length] in IH |- *. rewrite IH. lia.
Qed.

Lemma removelast_incl {A : Type} (l : list A) : incl (removelast l) l.
Proof.
  induction l as [|x r IH]; [intros y []|].
  destruct r as [|y r']; [intros z []|].
  intros z [<-|Hz]; [left; reflexivity|right; apply IH; exact Hz].
Qed.

Lemma spliceAll_shrinks (names : list string) :
  forall required,
    length (spliceAll names required) = length required - length names
    /\ incl (spliceAll names required) required.
Proof.
  unfold spliceAll.
  induction names as [|n names IH]; intros required; cbn [fold_left length].
  - split; [lia|apply incl_refl].
  - destruct (IH (splice1 (indexOf n required) required)) as [Hlen Hincl].
    destruct (splice1_indexOf n required)
      as [[_ Hs]|(pre & suf & Hr & _ & Hs)]; rewrite Hs in Hlen, Hincl |- *.
    + split.
      * rewrite Hlen, removelast_length. lia.
      * eapply incl_tran; [exact Hincl|apply removelast_incl].
    + split.
      * rewrite Hlen, Hr, !length_app. cbn [length]. lia.
      * eapply incl_tran; [exact Hincl|]. rewrite Hr.
        intros y Hy. apply in_app_or in Hy as [Hy|Hy]; apply in_or_app;
          [left|right; right]; exact Hy.
Qed.

Lemma set_same {V : Type} (k : string) (v : V) (m : Obj.t V) :
  Obj.get k m = Some v -> Obj.set k v m = m.
Proof.
  induction m as [|[k' v'] r IH]; cbn; [discriminate|].
  destruct (String.eqb_spec k k') as [->|Hne].
  - intros [= ->]. reflexivity.
  - intros H. rewrite (IH H). reflexivity.
Qed.

Lemma sanitize_required (m pm : Obj.t JSON) (req : list JSON) (x : JSON) :
  Obj.get "properties" m = Some (JObj pm) ->
  Obj.get "required" m = Some (JArr req) ->
  sanitizeReadonlyPropertiesFromRequired (JObj m) = Ok x ->
  x = JObj (Obj.set "required" (JArr (spliceAll (readOnlyNames pm) req)) m).
Proof.
  intros Hp Hr. unfold sanitizeReadonlyPropertiesFromRequired.
  rewrite Hp, Hr. cbn [entries bind].
  destruct (mapM _ pm) as [marks| |] eqn:Hmarks; cbn [bind]; try discriminate.
  rewrite (readOnly_marks pm marks Hmarks).
  destruct (readOnlyNames pm) as [|n names]; intros [= <-]; [|reflexivity].
  cbn [spliceAll fold_left]. rewrite (set_same _ _ _ Hr). reflexivity.
Qed.

(** X16.  What the sanitization does to [required] in every case: the
    schema comes back with all other members as they were, and [required]
    has lost exactly one entry for each readOnly property (as long as
    entries are left), whether that property was listed or not; what is
    left was in [required] before. *)
Theorem sanitize_shrinks_required (m pm : Obj.t JSON) (req : list JSON)
  (x : JSON) :
  Obj.get "properties" m = Some (JObj pm) ->
  Obj.get "required" m = Some (JArr req) ->
  sanitizeReadonlyPropertiesFromRequired (JObj m) = Ok x ->
  exists req',
    x = JObj (Obj.set "required" (JArr req') m)
    /\ length req' = length req - length (readOnlyNames pm)
    /\ incl req' req.
Proof.
  intros Hp Hr H. exists (spliceAll (readOnlyNames pm) req).
  split; [exact (sanitize_required m pm req x Hp Hr H)|].
  apply spliceAll_shrinks.
Qed.

Lemma sanitize_shrinks_required_witness :
  exists req',
    sanitizeReadonlyPropertiesFromRequired Examples.readOnlyNotRequired
    = Ok (JObj (Obj.set "required" (JArr req')
                  [("properties",
                    JObj [("id", JObj [("readOnly", JBool true)]);
                          ("name", JObj [("type", JStr "string")])]);
                   ("required", JArr [JStr "name"])]))
    /\ length req' = 0.
Proof.
  destruct (sanitize_shrinks_required
              [("properties",
                JObj [("id", JObj [("readOnly", JBool true)]);
                      ("name", JObj [("type", JStr "string")])]);
               ("required", JArr [JStr "name"])]
              [("id", JObj [("readOnly", JBool true)]);
               ("name", JObj [("type", JStr "string")])]
              [JStr "name"] _ eq_refl eq_refl eq_refl)
    as (req' & Hx & Hlen & _).
  exists req'. split; [|exact Hlen].
  rewrite <- Hx. reflexivity.
Defined.

Lemma NoDup_filter_keys (f : string * JSON -> bool) (m : Obj.t JSON) :
  NoDup (Obj.keys m) -> NoDup (Obj.keys (filter f m)).
Proof.
  unfold Obj.keys. induction m as [|kv r IH]; cbn [map filter]; intros H.
  - constructor.
  - inversion H as [|? ? Hnot Hr]; subst.
    destruct (f kv); [|apply IH; exact Hr].
    cbn [map]. constructor; [|apply IH; exact Hr].
    intros Hin. apply Hnot. apply in_map_iff in Hin as (y & Hy & Hin).
    apply in_map_iff. exists y. split; [exact Hy|].
    apply filter_In in Hin. tauto.
Qed.

Lemma splice1_listed (value : string) (required : list JSON) :
  NoDup required -> In (JStr value) required ->
  splice1 (indexOf value required) required
  = filter (namesNoneOf [value]) required.
Proof.
  intros Hnd Hin.
  destruct (splice1_indexOf value required)
    as [[Hnot _]|(pre & suf & Hr & Hpre & ->)]; [contradiction|].
  rewrite Hr in Hnd |- *. apply NoDup_remove_2 in Hnd.
  assert (Hkeep : forall l, ~ In (JStr value) l ->
            filter (namesNoneOf [value]) l = l).
  { induction l as [|y l IH]; intros Hl; [reflexivity|].
    cbn [filter]. unfold namesNoneOf at 1. cbn [existsb].
    destruct (JSON_eqb y (JStr value)) eqn:Hy.
    - apply JSON_eqb_eq in Hy. subst y. exfalso. apply Hl. left. reflexivity.
    - cbn [orb negb]. rewrite IH; [reflexivity|].
      intros H. apply Hl. right. exact H. }
  rewrite filter_app. cbn [filter]. unfold namesNoneOf at 2. cbn [existsb].
  rewrite (proj2 (JSON_eqb_eq (JStr value) (JStr value)) eq_refl).
  cbn [orb negb].
  rewrite (Hkeep pre Hpre), (Hkeep suf); [reflexivity|].
  intros H. apply Hnd. apply in_or_app. right. exact H.
Qed.

Lemma filter_namesNoneOf (n : string) (names : list string)
  (required : list JSON) :
  filter (namesNoneOf names) (filter (namesNoneOf [n]) required)
  = filter (namesNoneOf (n :: names)) required.
Proof.
  induction required as [|y r IH]; [reflexivity|]. cbn [filter].
  assert (H1 : namesNoneOf [n] y = negb (JSON_eqb y (JStr n))).
  { unfold namesNoneOf. cbn [existsb]. rewrite Bool.orb_false_r. reflexivity. }
  assert (H2 : namesNoneOf (n :: names) y
               = negb (JSON_eqb y (JStr n)) && namesNoneOf names y).
  { unfold namesNoneOf. cbn [existsb]. apply Bool.negb_orb. }
  rewrite H1, H2.
  destruct (JSON_eqb y (JStr n)); cbn [negb andb]; [exact IH|].
  cbn [filter]. destruct (namesNoneOf names y); rewrite IH; reflexivity.
Qed.

Lemma spliceAll_listed (names : list string) :
  forall required,
    NoDup names -> NoDup required ->
    (forall n, In n names -> In (JStr n) required) ->
    spliceAll names required = filter (namesNoneOf names) required.
Proof.
  unfold spliceAll.
  induction names as [|n names IH]; intros required Hn Hr Hin;
    cbn [fold_left].
  - symmetry. apply forallb_filter_id. apply forallb_forall.
    intros; reflexivity.
  - inversion Hn as [|? ? Hfresh Hn']; subst.
    rewrite (splice1_listed n required Hr (Hin n (or_introl eq_refl))).
    rewrite IH.
    + apply filter_namesNoneOf.
    + exact Hn'.
    + apply NoDup_filter. exact Hr.
    + intros k Hk. apply filter_In. split; [apply Hin; right; exact Hk|].
      unfold namesNoneOf. cbn [existsb].
      destruct (JSON_eqb (JStr k) (JStr n)) eqn:Hkn; [|reflexivity].
      apply JSON_eqb_eq in Hkn. injection Hkn as ->. contradiction.
Qed.

(** X17.  When every readOnly property is listed in [required] (and
    neither the properties nor the entries of [required] repeat a name),
    the sanitization removes exactly the entries that name a readOnly
    property and keeps the others in their order. *)
Theorem sanitize_removes_exactly_listed (m pm : Obj.t JSON)
  (req : list JSON) (x : JSON) :
  Obj.get "properties" m = Some (JObj pm) ->
  Obj.get "required" m = Some (JArr req) ->
  NoDup (Obj.keys pm) -> NoDup req ->
  (forall n, In n (readOnlyNames pm) -> In (JStr n) req) ->
  sanitizeReadonlyPropertiesFromRequired (JObj m) = Ok x ->
  x = JObj (Obj.set "required"
              (JArr (filter (namesNoneOf (readOnlyNames pm)) req)) m).
Proof.
  intros Hp Hr Hpm Hreq Hlisted H.
  rewrite (sanitize_required m pm req x Hp Hr H).
  rewrite spliceAll_listed; [reflexivity| |exact Hreq|exact Hlisted].
  apply (NoDup_filter_keys _ pm Hpm).
Qed.

Lemma sanitize_removes_exactly_listed_witness :
  sanitizeReadonlyPropertiesFromRequired Examples.readOnlyRequired
  = Ok (JObj (Obj.set "required"
                (JArr (filter (namesNoneOf ["id"]) [JStr "id"; JStr "name"]))
                [("properties",
                  JObj [("id", JObj [("readOnly", JBool true)]);
                        ("name", JObj [("type", JStr "string")])]);
                 ("required", JArr [JStr "id"; JStr "name"])])).
Proof.
  assert (Hpm : NoDup (Obj.keys [("id", JObj [("readOnly", JBool true)]);
                                 ("name", JObj [("type", JStr "string")])])).
  { cbn. constructor; [|constructor; [|constructor]].
    - intros [H|[]]. discriminate H.
    - intros []. }
  assert (Hreq : NoDup [JStr "id"; JStr "name"]).
  { constructor; [|constructor; [|constructor]].
    - intros [H|[]]. discriminate H.
    - intros []. }
  assert (Hlisted : forall n,
            In n (readOnlyNames [("id", JObj [("readOnly", JBool true)]);
                                 ("name", JObj [("type", JStr "string")])]) ->
            In (JStr n) [JStr "id"; JStr "name"]).
  { cbn. intros n [<-|[]]. left. reflexivity. }
  transitivity
    (@Ok JSON (JObj [("properties",
                      JObj [("id", JObj [("readOnly", JBool true)]);
                            ("name", JObj [("type", JStr "string")])]);
                     ("required", JArr [JStr "name"])])); [reflexivity|].
  refine (f_equal Ok _).
  exact (sanitize_removes_exactly_listed
           [("properties",
             JObj [("id", JObj [("readOnly", JBool true)]);
                   ("name", JObj [("type", JStr "string")])]);
            ("required", JArr [JStr "id"; JStr "name"])]
           [("id", JObj [("readOnly", JBool true)]);
            ("name", JObj [("type", JStr "string")])]
           [JStr "id"; JStr "name"]
           (JObj [("properties",
                   JObj [("id", JObj [("readOnly", JBool true)]);
                         ("name", JObj [("type", JStr "string")])]);
                  ("required", JArr [JStr "name"])])
           eq_refl eq_refl Hpm Hreq Hlisted eq_refl).
Defined.

(** ** The nullable rewrite, the other branch and repeated runs *)

Lemma nullableStep_type (m : Obj.t JSON) (type : JSON) :
  Obj.get "type" m = Some type -> truthy type = true ->
  Obj.get "nullable" m = Some (JBool true) ->
  truthy_opt (Obj.get "enum" m) = false ->
  nullableStep m
  = Obj.delete "nullable" (Obj.set "type" (JArr [type; JStr "null"]) m).
Proof.
  intros Ht Htt Hn He. unfold nullableStep. rewrite Ht, Htt, Hn.
  cbn [is_true andb].
  destruct (Obj.get "enum" m) as [enum|]; [|reflexivity].
  cbn [truthy_opt] in He. rewrite He. reflexivity.
Qed.

(** X18.  A schema node with a truthy [type], [nullable: true] and no
    (truthy) [enum]: normalization widens [type] to the pair of the
    declared type and ['null'], deletes [nullable], and transforms every
    other member in turn; the widened type accepts [null] and otherwise
    what the declared type accepts. *)
Theorem nullable_type_widened (m : Obj.t JSON) (type : JSON) (fuel : nat) :
  Obj.get "type" m = Some type -> truthy type = true ->
  Obj.get "nullable" m = Some (JBool true) ->
  truthy_opt (Obj.get "enum" m) = false ->
  3 * height (JObj m) < fuel ->
  (exists m',
     transformOpenAPIV3Definitions fuel (JObj m) = Ok (JObj m')
     /\ Obj.get "type" m' = Some (JArr [normalize type; JStr "null"])
     /\ Obj.get "nullable" m' = None
     /\ (forall k, k <> "type" -> k <> "nullable" ->
           Obj.get k m' = option_map normalize (Obj.get k m)))
  /\ (forall name data,
        accepts (JObj [("type", JArr [JStr name; JStr "null"])]) data
        = accepts (JObj [("type", JStr name)]) data || JSON_eqb data JNull).
Proof.
  intros Ht Htt Hn He Hf. split.
  - exists (nullableStep (mapValues normalize m)). split.
    { rewrite transform_normalize by (assumption || discriminate).
      rewrite normalize_obj. reflexivity. }
    rewrite (nullableStep_type (mapValues normalize m) (normalize type)).
    + repeat match goal with |- _ /\ _ => split end.
      * rewrite get_delete_ne by discriminate. apply get_set_eq.
      * apply get_delete_eq.
      * intros k H1 H2. rewrite get_delete_ne, get_set_ne by assumption.
        apply get_mapValues.
    + rewrite get_mapValues, Ht. reflexivity.
    + rewrite truthy_normalize. exact Htt.
    + rewrite get_mapValues, Hn. reflexivity.
    + rewrite get_mapValues.
      destruct (Obj.get "enum" m) as [enum|]; [|reflexivity].
      cbn [option_map truthy_opt] in He |- *. rewrite truthy_normalize.
      exact He.
  - intros name data. cbn [accepts String.eqb Ascii.eqb Bool.eqb typeOk existsb].
    rewrite !Bool.andb_true_r, Bool.orb_false_r.
    destruct data; reflexivity.
Qed.

Lemma nullable_type_widened_witness :
  exists m',
    transformOpenAPIV3Definitions 4 (JObj Cases.nullableName) = Ok (JObj m')
    /\ Obj.get "type" m' = Some (JArr [JStr "string"; JStr "null"])
    /\ Obj.get "nullable" m' = None
    /\ (forall k, k <> "type" -> k <> "nullable" ->
          Obj.get k m' = option_map normalize (Obj.get k Cases.nullableName)).
Proof.
  refine (proj1 (nullable_type_widened Cases.nullableName (JStr "string") 4
                   eq_refl eq_refl eq_refl eq_refl _)).
  cbn. lia.
Defined.

Lemma nullableStep_idempotent (m : Obj.t JSON) :
  nullableStep (nullableStep m) = nullableStep m.
Proof.
  assert (Hgone : forall x : Obj.t JSON,
            Obj.get "nullable" x = None -> nullableStep x = x).
  { intros x Hx. unfold nullableStep. rewrite Hx. cbn [is_true].
    destruct (Obj.get "type" x); [|reflexivity].
    rewrite Bool.andb_false_r. reflexivity. }
  unfold nullableStep at 2 3.
  destruct (Obj.get "type" m) as [type|] eqn:Ht;
    [|unfold nullableStep; rewrite Ht; reflexivity].
  destruct (truthy type && is_true (Obj.get "nullable" m)) eqn:Hc;
    [|unfold nullableStep; rewrite Ht, Hc; reflexivity].
  destruct (Obj.get "enum" m) as [enum|];
    [destruct (truthy enum)|]; apply Hgone; apply get_delete_eq.
Qed.

Lemma mapValues_fixed (g : JSON -> JSON) (m : Obj.t JSON) :
  Forall (fun kv => g (snd kv) = snd kv) m -> mapValues g m = m.
Proof.
  unfold mapValues. induction 1 as [|[k v] r Hkv _ IH]; [reflexivity|].
  cbn [map fst snd] in *. rewrite Hkv, IH. reflexivity.
Qed.

Lemma map_fixed {A : Type} (g : A -> A) (l : list A) :
  Forall (fun x => g x = x) l -> map g l = l.
Proof.
  induction 1 as [|x r Hx _ IH]; [reflexivity|].
  cbn [map]. rewrite Hx, IH. reflexivity.
Qed.

Lemma normalize_idempotent (o : JSON) : normalize (normalize o) = normalize o.
Proof.
  induction o as [| | | |l IH|m IH] using JSON_ind; try reflexivity.
  - rewrite !normalize_arr. f_equal. apply map_fixed.
    apply Forall_forall. intros y Hy. apply in_map_iff in Hy as (x & <- & Hx).
    rewrite Forall_forall in IH. apply IH. exact Hx.
  - rewrite !normalize_obj. f_equal.
    rewrite nullableStep_normalize, nullableStep_idempotent. f_equal.
    apply mapValues_fixed. apply Forall_forall. intros kv Hkv.
    unfold mapValues in Hkv. apply in_map_iff in Hkv as (x & <- & Hx).
    rewrite Forall_forall in IH. apply (IH x Hx).
Qed.

(** X19.  Transforming twice is transforming once: what
    [transformOpenAPIV3Definitions] returns is transformed into itself,
    because the rewrite of a node deletes the [nullable] member it looks
    for and builds no node that has one. *)
Theorem transform_idempotent (schema transformed : JSON) (fuel fuel' : nat) :
  3 * height schema < fuel -> schema <> JNull ->
  transformOpenAPIV3Definitions fuel schema = Ok transformed ->
  3 * height transformed < fuel' ->
  transformOpenAPIV3Definitions fuel' transformed = Ok transformed.
Proof.
  intros Hf Hn H Hf'.
  rewrite (transform_normalize schema fuel Hf Hn) in H. injection H as <-.
  rewrite transform_normalize.
  - rewrite normalize_idempotent. reflexivity.
  - exact Hf'.
  - destruct schema; try discriminate. contradiction.
Qed.

Lemma transform_idempotent_witness :
  exists transformed,
    transformOpenAPIV3Definitions 13 Examples.colourSchema = Ok transformed
    /\ transformOpenAPIV3Definitions 20 transformed = Ok transformed.
Proof.
  eexists.
  match goal with
  | |- ?c = Ok ?t /\ _ =>
      assert (Hc : c = Ok t) by reflexivity;
      split; [exact Hc|];
      refine (transform_idempotent Examples.colourSchema t 13 20 _ _ Hc _)
  end.
  - cbn. lia.
  - discriminate.
  - cbn. lia.
Defined.

Lemma normalize_without_nullable (o : JSON) :
  saysNullable o = false -> normalize o = o.
Proof.
  induction o as [| | | |l IH|m IH] using JSON_ind; try reflexivity;
    intros H.
  - rewrite normalize_arr. f_equal. apply map_fixed.
    cbn [saysNullable] in H.
    induction IH as [|x r Hx _ IHr]; constructor.
    + apply Hx. apply Bool.orb_false_iff in H. tauto.
    + apply IHr. apply Bool.orb_false_iff in H. tauto.
  - rewrite normalize_obj. cbn [saysNullable] in H.
    apply Bool.orb_false_iff in H as [Hn H].
    assert (Hm : mapValues normalize m = m).
    { apply mapValues_fixed. clear Hn.
      induction IH as [|x r Hx _ IHr]; constructor;
        apply Bool.orb_false_iff in H.
      - apply Hx. tauto.
      - apply IHr. tauto. }
    rewrite Hm. f_equal. unfold nullableStep. rewrite Hn.
    destruct (Obj.get "type" m); [|reflexivity].
    rewrite Bool.andb_false_r. reflexivity.
Qed.

(** X20.  A schema in which no object says [nullable: true] comes back
    from [transformOpenAPIV3Definitions] as it went in. *)
Theorem transform_without_nullable (schema : JSON) (fuel : nat) :
  saysNullable schema = false -> schema <> JNull ->
  3 * height schema < fuel ->
  transformOpenAPIV3Definitions fuel schema = Ok schema.
Proof.
  intros Hs Hn Hf. rewrite (transform_normalize schema fuel Hf Hn).
  rewrite (normalize_without_nullable schema Hs). reflexivity.
Qed.

Lemma transform_without_nullable_witness :
  transformOpenAPIV3Definitions 10 (JObj Examples.ownerSchema)
  = Ok (JObj Examples.ownerSchema).
Proof.
  refine (transform_without_nullable (JObj Examples.ownerSchema) 10
            eq_refl _ _).
  - discriminate.
  - cbn. lia.
Defined.

(** ** The reference resolver: what is written back, and recursion *)

(** X21.  In the [properties] branch the resolver writes nothing but the
    [properties] member: the schema it returns is the schema it was given
    with every other member as before.  In particular the [required] list
    of the schema itself is not sanitized, only those of the schemas
    nested in it. *)
Theorem resolve_rewrites_properties_only (E : Engine) (fuel : nat)
  (v : AjvT E) (m : Obj.t JSON) (r : JSON * JSON) :
  Obj.has "properties" m = true ->
  resolveAndSanitizeRequestBodySchema E fuel v (JObj m) = Ok r ->
  exists m',
    r = (JObj m', JObj m')
    /\ forall k, k <> "properties" -> Obj.get k m' = Obj.get k m.
Proof.
  unfold Obj.has. intros Hp.
  destruct (Obj.get "properties" m) as [properties|] eqn:Hprops;
    [|discriminate].
  destruct fuel as [|f]; cbn [resolveAndSanitizeRequestBodySchema];
    [discriminate|].
  unfold resolveNode. rewrite Hprops.
  match goal with
  | |- bind ?c _ = _ -> _ => destruct c as [properties'| |]
  end; cbn [bind]; intros H; try discriminate.
  injection H as <-. eexists. split; [reflexivity|].
  intros k Hk. apply get_set_ne. exact Hk.
Qed.

Lemma resolve_rewrites_properties_only_witness :
  exists m',
    resolveAndSanitizeRequestBodySchema Mini.engine 5 Examples.registry
      Examples.readOnlyRequired = Ok (JObj m', JObj m')
    /\ Obj.get "required" m' = Some (JArr [JStr "id"; JStr "name"]).
Proof.
  destruct (resolve_rewrites_properties_only Mini.engine 5 Examples.registry
              [("properties",
                JObj [("id", JObj [("readOnly", JBool true)]);
                      ("name", JObj [("type", JStr "string")])]);
               ("required", JArr [JStr "id"; JStr "name"])]
              _ eq_refl eq_refl) as (m' & Hr & Hm).
  exists m'. split.
  - rewrite <- Hr. reflexivity.
  - apply (Hm "required"). discriminate.
Defined.



(** ** The reference resolver on schemas without references *)

Lemma mentionsRef_obj (m : Obj.t JSON) :
  mentionsRef (JObj m) = false
  <-> Obj.has "$ref" m = false
      /\ forall kv, In kv m -> mentionsRef (snd kv) = false.
Proof.
  cbn [mentionsRef]. rewrite Bool.orb_false_iff.
  apply and_iff_compat_l.
  induction m as [|kv r IH]; [split; [intros _ ? []|reflexivity]|].
  rewrite Bool.orb_false_iff, IH. split.
  - intros [H1 H2] x [<-|Hx]; [exact H1|apply H2; exact Hx].
  - intros H. split; [apply H; left; reflexivity|].
    intros x Hx. apply H. right. exact Hx.
Qed.

Lemma mentionsRef_arr (l : list JSON) :
  mentionsRef (JArr l) = false <-> forall x, In x l -> mentionsRef x = false.
Proof.
  cbn [mentionsRef].
  induction l as [|y r IH]; [split; [intros _ ? []|reflexivity]|].
  rewrite Bool.orb_false_iff, IH. split.
  - intros [H1 H2] x [<-|Hx]; [exact H1|apply H2; exact Hx].
  - intros H. split; [apply H; left; reflexivity|].
    intros x Hx. apply H. right. exact Hx.
Qed.

Lemma height_obj_le (m : Obj.t JSON) (n : nat) :
  (forall kv, In kv m -> height (snd kv) <= n) -> height (JObj m) <= S n.
Proof.
  cbn [height]. intros H. apply le_n_S.
  induction m as [|kv r IH]; [lia|].
  apply Nat.max_lub; [apply H; left; reflexivity|].
  apply IH. intros x Hx. apply H. right. exact Hx.
Qed.

Lemma height_arr_le (l : list JSON) (n : nat) :
  (forall x, In x l -> height x <= n) -> height (JArr l) <= S n.
Proof.
  cbn [height]. intros H. apply le_n_S.
  induction l as [|y r IH]; [lia|].
  apply Nat.max_lub; [apply H; left; reflexivity|].
  apply IH. intros x Hx. apply H. right. exact Hx.
Qed.

Lemma height_chars (s : string) (x : JSON) : In x (chars s) -> height x = 0.
Proof.
  induction s as [|a r IH]; cbn [chars]; [intros []|].
  intros [<-|H]; [reflexivity|apply IH; exact H].
Qed.

Lemma mentionsRef_chars (s : string) (x : JSON) :
  In x (chars s) -> mentionsRef x = false.
Proof.
  induction s as [|a r IH]; cbn [chars]; [intros []|].
  intros [<-|H]; [reflexivity|apply IH; exact H].
Qed.

Lemma mapM_ends {A B : Type} (f : A -> M B) (l : list A) :
  (forall x, In x l -> f x <> Diverge) -> mapM f l <> Diverge.
Proof.
  induction l as [|x r IH]; intros H; cbn [mapM]; [discriminate|].
  destruct (f x) as [y| |] eqn:Hx; cbn [bind]; [|discriminate|].
  - destruct (mapM f r) as [ys| |] eqn:Hr; cbn [bind]; try discriminate.
    exfalso. apply IH; [|reflexivity]. intros z Hz. apply H. right. exact Hz.
  - exfalso. apply (H x (or_introl eq_refl)). exact Hx.
Qed.

Lemma readOnlyKey_ends (key : string) (prop : JSON) :
  readOnlyKey key prop <> Diverge.
Proof.
  unfold readOnlyKey. destruct (truthy prop); [|discriminate].
  destruct prop as [| | | | |pm]; try discriminate.
  destruct (Obj.get "readOnly" pm) as [[|[]| | | |]|]; discriminate.
Qed.

Lemma sanitize_ends (schema : JSON) :
  sanitizeReadonlyPropertiesFromRequired schema <> Diverge.
Proof.
  unfold sanitizeReadonlyPropertiesFromRequired.
  destruct schema as [| | | | |m]; try discriminate.
  destruct (Obj.get "properties" m) as [properties|]; [|discriminate].
  destruct (Obj.get "required" m) as [req|]; [|discriminate].
  destruct (entries properties) as [es| |] eqn:He; cbn [bind];
    [|discriminate|destruct properties; discriminate].
  destruct (mapM _ es) as [marks| |] eqn:Hm; cbn [bind]; [|discriminate|].
  - destruct (somes marks); [discriminate|]. destruct req; discriminate.
  - exfalso. revert Hm. apply mapM_ends. intros x _. apply readOnlyKey_ends.
Qed.

(** The sanitization brings in no reference and does not make the tree
    higher. *)
Lemma sanitize_small (schema schema' : JSON) :
  sanitizeReadonlyPropertiesFromRequired schema = Ok schema' ->
  mentionsRef schema = false ->
  mentionsRef schema' = false /\ height schema' <= height schema.
Proof.
  destruct schema as [| | | |l|m]; intros Hs Href; try discriminate Hs;
    [injection Hs as <-; split; [exact Href|lia]|].
  destruct (Obj.get "properties" m) as [properties|] eqn:Hp.
  2: { rewrite sanitize_without_properties in Hs
         by (unfold Obj.has; rewrite Hp; reflexivity).
       injection Hs as <-. split; [exact Href|lia]. }
  unfold sanitizeReadonlyPropertiesFromRequired in Hs. rewrite Hp in Hs.
  destruct (Obj.get "required" m) as [required|] eqn:Hr;
    [|injection Hs as <-; split; [exact Href|lia]].
  destruct (entries properties) as [es| |]; cbn [bind] in Hs; try discriminate.
  destruct (mapM _ es) as [marks| |]; cbn [bind] in Hs; try discriminate.
  destruct (somes marks) as [|n names];
    [injection Hs as <-; split; [exact Href|lia]|].
  destruct required as [| | | |req|]; try discriminate.
  injection Hs as <-.
  destruct (spliceAll_shrinks (n :: names) req) as [_ Hincl].
  pose proof (get_In _ _ _ Hr) as Hin.
  apply mentionsRef_obj in Href as [Hhas Hmem].
  pose proof (Hmem _ Hin) as Hreq. cbn [snd] in Hreq.
  split.
  - apply mentionsRef_obj. split.
    + rewrite has_set. rewrite Hhas. reflexivity.
    + intros kv Hkv. apply In_set in Hkv as [Hkv| ->]; [apply Hmem; exact Hkv|].
      cbn [snd]. apply mentionsRef_arr. intros x Hx.
      apply (proj1 (mentionsRef_arr req) Hreq). apply Hincl. exact Hx.
  - pose proof (height_member _ _ Hin) as Hh. cbn [snd] in Hh.
    destruct (height (JObj m)) as [|k] eqn:Hk; [lia|].
    apply height_obj_le. intros kv Hkv.
    apply In_set in Hkv as [Hkv| ->].
    + pose proof (height_member _ _ Hkv). lia.
    + change (height (JArr (spliceAll (n :: names) req)) <= k).
      destruct (height (JArr req)) as [|j] eqn:Hj; [discriminate Hj|].
      assert (height (JArr (spliceAll (n :: names) req)) <= S j); [|lia].
      apply height_arr_le. intros x Hx.
      pose proof (height_element x req (Hincl x Hx)). lia.
Qed.

(** X23.  On a schema that holds no reference the recursion of the
    resolver is bounded by the height of the schema: with more fuel than
    that, the run ends, in a value or in an exception, whatever the engine
    and its registry. *)
Theorem resolve_without_references_ends (E : Engine) (v : AjvT E)
  (fuel : nat) (schema : JSON) :
  mentionsRef schema = false -> height schema < fuel ->
  resolveAndSanitizeRequestBodySchema E fuel v schema <> Diverge.
Proof.
  revert schema. induction fuel as [|f IH]; intros schema Href Hh; [lia|].
  cbn [resolveAndSanitizeRequestBodySchema].
  assert (Hstep : forall (pick : JSON * JSON -> JSON) (x : JSON),
            mentionsRef x = false -> height x < f ->
            (x1 <- sanitizeReadonlyPropertiesFromRequired x ;;
             r <- resolveAndSanitizeRequestBodySchema E f v x1 ;;
             Ok (pick r)) <> Diverge).
  { intros pick x Hx Hhx.
    destruct (sanitizeReadonlyPropertiesFromRequired x) as [x1| |] eqn:Hs;
      cbn [bind]; [|discriminate|destruct (sanitize_ends x Hs)].
    destruct (sanitize_small x x1 Hs Hx) as [Hx1 Hh1].
    destruct (resolveAndSanitizeRequestBodySchema E f v x1) as [r| |] eqn:Hr;
      cbn [bind]; try discriminate.
    exfalso. apply (IH x1 Hx1); [lia|exact Hr]. }
  assert (Hbranches : forall (key : string) (m : Obj.t JSON) (branches : JSON),
            In (key, branches) m -> mentionsRef (JObj m) = false ->
            height (JObj m) < S f ->
            match branches with
            | JArr l =>
                l' <- mapM (fun val =>
                              val1 <- sanitizeReadonlyPropertiesFromRequired val ;;
                              r <- resolveAndSanitizeRequestBodySchema E f v val1 ;;
                              Ok (snd r)) l ;;
                Ok (JObj (Obj.set key (JArr l') m),
                    JObj (Obj.set key (JArr l') m))
            | _ => Throw (TypeError "map is not a function")
            end <> Diverge).
  { intros key m branches Hin Hm Hhm.
    destruct branches as [| | | |l|]; try discriminate.
    pose proof (height_member _ _ Hin) as Hb. cbn [snd] in Hb.
    pose proof (proj2 (proj1 (mentionsRef_obj m) Hm) _ Hin) as Hl.
    cbn [snd] in Hl.
    destruct (mapM _ l) as [l'| |] eqn:Hmap; cbn [bind]; try discriminate.
    exfalso. revert Hmap. apply mapM_ends. intros x Hx.
    apply (Hstep snd).
    - apply (proj1 (mentionsRef_arr l) Hl). exact Hx.
    - pose proof (height_element x l Hx). lia. }
  unfold resolveNode. cbv zeta.
  destruct schema as [| | | |l|m]; try discriminate.
  pose proof (proj1 (mentionsRef_obj m) Href) as [Hhas Hmem].
  destruct (Obj.get "properties" m) as [properties|] eqn:Hp.
  { pose proof (get_In _ _ _ Hp) as Hin.
    pose proof (height_member _ _ Hin) as Hhp. cbn [snd] in Hhp.
    pose proof (Hmem _ Hin) as Hrp. cbn [snd] in Hrp.
    match goal with
    | |- bind ?c _ <> Diverge => assert (Hc : c <> Diverge)
    end.
    { destruct properties as [| | |s|l|pm]; try discriminate.
      - cbn [entries bind].
        destruct (mapM _ (indexed (chars s))) as [?| |] eqn:Hmap; cbn [bind];
          try discriminate.
        exfalso. revert Hmap. apply mapM_ends. intros kv Hkv.
        assert (Hx : In (snd kv) (chars s)).
        { unfold indexed in Hkv. destruct kv as [i x].
          apply in_combine_r in Hkv. exact Hkv. }
        apply (Hstep fst).
        + apply (mentionsRef_chars s _ Hx).
        + rewrite (height_chars s _ Hx). lia.
      - destruct (mapM _ l) as [l'| |] eqn:Hmap; cbn [bind]; try discriminate.
        exfalso. revert Hmap. apply mapM_ends. intros x Hx.
        apply (Hstep fst).
        + apply (proj1 (mentionsRef_arr l) Hrp). exact Hx.
        + pose proof (height_element x l Hx). lia.
      - destruct (mapM _ pm) as [pm'| |] eqn:Hmap; cbn [bind]; try discriminate.
        exfalso. revert Hmap. apply mapM_ends. intros kv Hkv.
        destruct (sanitizeReadonlyPropertiesFromRequired (snd kv))
          as [x1| |] eqn:Hs; cbn [bind];
          [|discriminate|destruct (sanitize_ends _ Hs)].
        pose proof (Hstep fst (snd kv)) as Hk. rewrite Hs in Hk.
        cbn [bind] in Hk.
        destruct (resolveAndSanitizeRequestBodySchema E f v x1) as [r| |];
          cbn [bind] in Hk |- *; try discriminate.
        intros _. apply Hk; [| |reflexivity].
        + apply (proj2 (proj1 (mentionsRef_obj pm) Hrp)). exact Hkv.
        + pose proof (height_member kv pm Hkv). lia. }
    match goal with
    | |- bind ?c _ <> Diverge => destruct c; cbn [bind];
                                   [discriminate|discriminate|
                                    destruct (Hc eq_refl)]
    end. }
  destruct (Obj.get "$ref" m) as [reference|] eqn:Hr.
  { unfold Obj.has in Hhas. rewrite Hr in Hhas. discriminate. }
  destruct (Obj.get "items" m) as [items|] eqn:Hi.
  { pose proof (Hmem _ (get_In _ _ _ Hi)) as Hri. cbn [snd] in Hri.
    destruct items as [| | | |l|im]; try discriminate.
    apply mentionsRef_obj in Hri as [Hri _]. unfold Obj.has in Hri.
    destruct (Obj.get "$ref" im); [discriminate Hri|discriminate]. }
  destruct (Obj.get "allOf" m) as [branches|] eqn:Ha.
  { apply (Hbranches "allOf" m branches (get_In _ _ _ Ha) Href Hh). }
  destruct (Obj.get "oneOf" m) as [branches|] eqn:Ho.
  { apply (Hbranches "oneOf" m branches (get_In _ _ _ Ho) Href Hh). }
  destruct (Obj.get "anyOf" m) as [branches|] eqn:Hn.
  { apply (Hbranches "anyOf" m branches (get_In _ _ _ Hn) Href Hh). }
  discriminate.
Qed.

Lemma resolve_without_references_ends_witness :
  resolveAndSanitizeRequestBodySchema Mini.engine 5 Examples.registry
    Examples.colourSchema <> Diverge.
Proof.
  apply resolve_without_references_ends; [reflexivity|cbn; lia].
Defined.

(** ** Local definitions *)

Lemma strip_prefix_inv (p s rest : string) :
  Str.strip_prefix p s = Some rest -> s = p ++ rest.
Proof.
  revert s. induction p as [|a p IH]; intros s H; cbn in H.
  - injection H as ->. reflexivity.
  - destruct s as [|b s]; [discriminate|].
    destruct (Ascii.eqb_spec a b) as [->|]; [|discriminate].
    cbn. rewrite (IH s H). reflexivity.
Qed.

Lemma split_inv (c : ascii) (s : string) :
  forall h t,
    Str.split c s = h :: t ->
    free_of c h = true
    /\ match t with
       | [] => s = h
       | _ :: _ => exists rest, s = h ++ String c rest /\ Str.split c rest = t
       end.
Proof.
  induction s as [|a s IH]; intros h t H; cbn [Str.split] in H.
  - injection H as <- <-. split; reflexivity.
  - destruct (Ascii.eqb_spec a c) as [->|Hne].
    + injection H as <- <-. split; [reflexivity|].
      destruct (Str.split c s) as [|x r] eqn:Hs.
      * destruct s; cbn in Hs; [discriminate|].
        destruct (Ascii.eqb a c); [discriminate|].
        destruct (Str.split c s); discriminate.
      * exists s. split; [reflexivity|exact Hs].
    + destruct (Str.split c s) as [|h' t'] eqn:Hs.
      * destruct s; cbn in Hs; [discriminate|].
        destruct (Ascii.eqb a0 c); [discriminate|].
        destruct (Str.split c s); discriminate.
      * injection H as <- <-. destruct (IH h' t' eq_refl) as [Hfree Ht].
        split.
        -- cbn [free_of]. rewrite Hfree.
           destruct (Ascii.eqb_spec a c); [contradiction|reflexivity].
        -- destruct t' as [|x r].
           ++ rewrite Ht. reflexivity.
           ++ destruct Ht as (rest & -> & Hrest). exists rest.
              split; [reflexivity|exact Hrest].
Qed.

Lemma localDefinition_shape (id group name : string) :
  localDefinition id = Some (group, name) ->
  id = "#/" ++ group ++ "/" ++ name
  /\ group <> "" /\ name <> ""
  /\ free_of "/" group = true /\ free_of "/" name = true.
Proof.
  unfold localDefinition.
  destruct (Str.strip_prefix "#/" id) as [rest|] eqn:Hp; [|discriminate].
  apply strip_prefix_inv in Hp.
  destruct (Str.split "/" rest) as [|a [|b [|? ?]]] eqn:Hs; try discriminate.
  destruct (String.eqb_spec a "") as [|Ha]; [discriminate|].
  destruct (String.eqb_spec b "") as [|Hb]; [discriminate|].
  cbn [orb]. intros [= <- <-].
  destruct (split_inv "/" rest a [b] Hs) as [Hfa (rest' & Hrest & Hs')].
  destruct (split_inv "/" rest' b [] Hs') as [Hfb Hb'].
  subst rest' rest. repeat split; assumption.
Qed.

Lemma localDefinition_matches (group name : string) :
  group <> "" -> name <> "" ->
  free_of "/" group = true -> free_of "/" name = true ->
  localDefinition ("#/" ++ group ++ "/" ++ name) = Some (group, name).
Proof.
  intros Hg Hn Hfg Hfn. unfold localDefinition.
  change ("#/" ++ group ++ "/" ++ name)
    with ("#/" ++ (group ++ String "/" name)).
  rewrite strip_prefix_app.
  rewrite (split_app_sep "/" group name Hfg), (split_free "/" name Hfn).
  destruct (String.eqb_spec group "") as [|_]; [contradiction|].
  destruct (String.eqb_spec name "") as [|_]; [contradiction|].
  reflexivity.
Qed.

(** X24.  [LOCAL_DEFINITION_REGEX] matches exactly the ids of the form
    [#/group/name] with both segments non-empty and free of slashes, and
    captures the two segments. *)
Theorem localDefinition_spec (id group name : string) :
  localDefinition id = Some (group, name)
  <-> id = "#/" ++ group ++ "/" ++ name
      /\ group <> "" /\ name <> ""
      /\ free_of "/" group = true /\ free_of "/" name = true.
Proof.
  split.
  - apply localDefinition_shape.
  - intros (-> & Hg & Hn & Hfg & Hfn).
    apply localDefinition_matches; assumption.
Qed.

(** X25.  A schema of [args.schemas] whose id is the local definition
    [#/group/name], registered while a body schema is there: the schema is
    added to the engine under its id and filed in the body validation
    schema, where it is found again under [group] and [name]; the other
    groups and the other names of the group are as before. *)
Theorem registerSchema_files_local_definition (E : Engine) (v v' : AjvT E)
  (bvs : Obj.t JSON) (o : option (Obj.t JSON)) (m : Obj.t JSON)
  (group name : string) (d : Obj.t JSON) :
  Obj.get "id" m = Some (JStr ("#/" ++ group ++ "/" ++ name)) ->
  group <> "" -> name <> "" ->
  free_of "/" group = true -> free_of "/" name = true ->
  Obj.get group bvs = None /\ d = [] \/ Obj.get group bvs = Some (JObj d) ->
  registerSchema E (v, Some bvs) (JObj m) = Ok (v', o) ->
  ajv_addSchema E v (JObj m) (JStr ("#/" ++ group ++ "/" ++ name)) = Ok v'
  /\ exists bvs' d',
       o = Some bvs'
       /\ Obj.get group bvs' = Some (JObj d')
       /\ Obj.get name d' = Some (JObj m)
       /\ (forall k, k <> group -> Obj.get k bvs' = Obj.get k bvs)
       /\ (forall k, k <> name -> Obj.get k d' = Obj.get k d).
Proof.
  intros Hid Hg Hn Hfg Hfn Hd H.
  unfold registerSchema in H. cbn [bind] in H. rewrite Hid in H.
  assert (Htruthy : truthy (JStr ("#/" ++ group ++ "/" ++ name)) = true)
    by reflexivity.
  rewrite Htruthy in H.
  rewrite (localDefinition_matches group name Hg Hn Hfg Hfn) in H.
  assert (Hdefs : match Obj.get group bvs with
                  | Some d0 => if truthy d0 then d0 else JObj []
                  | None => JObj []
                  end = JObj d).
  { destruct Hd as [[-> ->]| ->]; reflexivity. }
  rewrite Hdefs in H.
  destruct (ajv_addSchema E v (JObj m) (JStr ("#/" ++ group ++ "/" ++ name)))
    as [v1| |]; cbn [bind] in H; try discriminate.
  injection H as <- <-. split; [reflexivity|].
  exists (Obj.set group (JObj (Obj.set name (JObj m) d)) bvs),
         (Obj.set name (JObj m) d).
  repeat split.
  - apply get_set_eq.
  - apply get_set_eq.
  - intros k Hk. apply get_set_ne. exact Hk.
  - intros k Hk. apply get_set_ne. exact Hk.
Qed.

Lemma registerSchema_files_local_definition_witness :
  exists bvs' d',
    registerSchema Mini.engine
      ([], Some [("properties", JObj [("body", JObj [])])]) (JObj Cases.petDefinition)
    = Ok ([("#/definitions/Pet", JObj Cases.petDefinition)], Some bvs')
    /\ Obj.get "definitions" bvs' = Some (JObj d')
    /\ Obj.get "Pet" d' = Some (JObj Cases.petDefinition).
Proof.
  destruct (registerSchema_files_local_definition Mini.engine [] 
              [("#/definitions/Pet", JObj Cases.petDefinition)]
              [("properties", JObj [("body", JObj [])])]
              (Some (Obj.set "definitions"
                       (JObj (Obj.set "Pet" (JObj Cases.petDefinition) []))
                       [("properties", JObj [("body", JObj [])])]))
              Cases.petDefinition "definitions" "Pet" [])
    as (_ & bvs' & d' & Ho & Hg & Hn & _);
    try reflexivity; try discriminate.
  - left. split; reflexivity.
  - injection Ho as <-. eexists. eexists. split; [reflexivity|].
    split; [exact Hg|exact Hn].
Defined.

(** ** A missing body and the form data *)

(** X26.  Once a missing body has been recorded, the form-data predicate
    is not run: no violation of that run is located in [formData]. *)
Theorem missing_body_skips_formData (E : Engine)
  (this : OpenAPIRequestValidator) (request : Request) (st : Locals) :
  collect E this request = Ok st ->
  l_schemaError st <> None ->
  Forall (fun e => e_location e <> Some "formData") (l_errors st).
Proof.
  intros Hc Hs.
  destruct (collect_steps E this request st Hc) as (st1 & st2 & H1 & H2 & ->).
  rewrite final_schemaError in Hs.
  destruct (l_schemaError st2) as [e|] eqn:He; [clear Hs|contradiction].
  destruct (BodyStepped_errors _ _ _ _ H1) as (b1 & Hb1 & Hl1).
  destruct (BodyStepped_errors _ _ _ _ H2) as (b2 & Hb2 & Hl2).
  assert (Hloc : forall (loc : string) es,
            loc <> "formData" -> Forall (locatedIn loc) es ->
            Forall (fun e => e_location e <> Some "formData") es).
  { intros loc es Hne Hes. eapply Forall_impl; [|exact Hes].
    intros x Hx. unfold locatedIn in Hx. rewrite Hx. congruence. }
  repeat match goal with
         | |- Forall _ (l_errors (partStep ?l ?f ?d ?s)) =>
             let es := fresh "es" in
             let Hes := fresh "Hes" in
             let Hl := fresh "Hl" in
             destruct (partStep_errors l f d s) as (es & Hes & Hl);
             rewrite Hes; apply Forall_app; split;
             [|apply (Hloc l); [discriminate|exact Hl]]
         end.
  rewrite Hb2, Hb1. cbn [l_errors app].
  apply Forall_app.
  split; apply (Hloc "body"); (discriminate || assumption).
Qed.

Lemma missing_body_skips_formData_witness :
  exists this st,
    new_OpenAPIRequestValidator Mini.engine 10 Examples.petArgs = Ok this
    /\ collect Mini.engine this
         (Examples.petRequest "content-type" (Some "application/json") None
            (JStr "one")) = Ok st
    /\ Forall (fun e => e_location e <> Some "formData") (l_errors st).
Proof.
  eexists. eexists.
  match goal with
  | |- ?n = Ok ?t /\ ?c = Ok ?s /\ _ =>
      assert (Hnew : n = Ok t) by reflexivity;
      assert (Hc : c = Ok s) by reflexivity;
      split; [exact Hnew|]; split; [exact Hc|];
      refine (missing_body_skips_formData Mini.engine t _ s Hc _)
  end.
  discriminate.
Defined.

(** ** Arguments the constructor rejects *)

(** X27.  The constructor throws an [Error] whose message begins with
    the logging key: for [parameters] that are not an array, whatever else
    the arguments hold; and, when no parameters are given, for a
    [customFormats] entry that is not a function. *)
Theorem constructor_rejects (E : Engine) (fuel : nat) (args : Args.t) :
  (forall p,
     Args.parameters args = Some p -> (forall l, p <> JArr l) ->
     new_OpenAPIRequestValidator E fuel args
     = Throw (Error (loggingPrefix args ++ "args.parameters must be an Array")))
  /\ (forall formats name,
        Args.parameters args = None ->
        Args.customFormats args = Some formats ->
        In (name, FormatDefinition) formats ->
        new_OpenAPIRequestValidator E fuel args
        = Throw (Error (loggingPrefix args
                        ++ "args.customFormats properties must be functions"))).
Proof.
  split.
  - intros p Hp Hnot. unfold new_OpenAPIRequestValidator, loggingPrefix.
    rewrite Hp. destruct p as [| | | |l|]; try reflexivity.
    exfalso. exact (Hnot l eq_refl).
  - intros formats name Hp Hf Hin.
    unfold new_OpenAPIRequestValidator, loggingPrefix.
    rewrite Hp, Hf. cbn [bind].
    assert (Hex : existsb (fun kv : string * FormatEntry =>
                             match snd kv with
                             | FormatDefinition => true
                             | FormatFunction => false
                             end) formats = true).
    { apply existsb_exists. exists (name, FormatDefinition).
      split; [exact Hin|reflexivity]. }
    rewrite Hex. reflexivity.
Qed.

Lemma constructor_rejects_witness :
  new_OpenAPIRequestValidator Mini.engine 10 Cases.objectParameters
  = Throw (Error "getPet: args.parameters must be an Array").
Proof.
  refine (proj1 (constructor_rejects Mini.engine 10 Cases.objectParameters)
            (JObj []) eq_refl _).
  intros l H. discriminate H.
Defined.

(** ** Parameters that do not require a body *)

Lemma mapM_In_inv {A B : Type} (f : A -> M B) (l : list A) (l' : list B)
  (y : B) :
  mapM f l = Ok l' -> In y l' -> exists x, In x l /\ f x = Ok y.
Proof.
  revert l'. induction l as [|x r IH]; intros l' H Hy; cbn [mapM] in H.
  - injection H as <-. destruct Hy.
  - destruct (f x) as [b| |] eqn:Hx; cbn [bind] in H; try discriminate.
    destruct (mapM f r) as [bs| |]; cbn [bind] in H; try discriminate.
    injection H as <-. destruct Hy as [<-|Hy].
    + exists x. split; [left; reflexivity|exact Hx].
    + destruct (IH bs eq_refl Hy) as (x' & Hin & Hx').
      exists x'. split; [right; exact Hin|exact Hx'].
Qed.

(** X28.  A validator built from parameters only, none of which is a
    required [body] or [formData] parameter: no body is required, and no
    run of [validate] records a missing body. *)
Theorem body_not_required_without_parameter (E : Engine) (fuel : nat)
  (args : Args.t) (this : OpenAPIRequestValidator) (parameters : list JSON)
  (request : Request) (st : Locals) :
  new_OpenAPIRequestValidator E fuel args = Ok this ->
  Args.requestBody args = None ->
  Args.parameters args = Some (JArr parameters) ->
  (forall param, In param parameters ->
     byRequiredBodyParameters param <> Ok true) ->
  collect E this request = Ok st ->
  isBodyRequired this = false /\ l_schemaError st = None.
Proof.
  intros Hnew Hargs Hparams Hnone Hc.
  destruct (constructor_parameters E fuel args this parameters Hnew Hparams)
    as (schemas & marks & _ & Hmarks & _ & Hrequired).
  assert (Hopt : isBodyRequired this = false).
  { rewrite (Hrequired Hargs).
    destruct (filter (fun b : bool => b) marks) as [|b bs] eqn:Hf;
      [reflexivity|].
    assert (Hb : In b (filter (fun b : bool => b) marks))
      by (rewrite Hf; left; reflexivity).
    apply filter_In in Hb as [Hb Htrue]. subst b.
    destruct (mapM_In_inv _ _ _ _ Hmarks Hb) as (param & Hin & Hparam).
    destruct (Hnone param Hin Hparam). }
  split; [exact Hopt|].
  destruct (collect_steps E this request st Hc) as (st1 & st2 & H1 & H2 & ->).
  rewrite Hopt in H1, H2.
  rewrite final_schemaError.
  rewrite (BodyStepped_schemaError _ _ _ H2).
  rewrite (BodyStepped_schemaError _ _ _ H1). reflexivity.
Qed.

Lemma body_not_required_without_parameter_witness :
  exists this st,
    new_OpenAPIRequestValidator Mini.engine 10 Cases.optionalBodyParameter = Ok this
    /\ collect Mini.engine this (Examples.bareRequest None (JNum 1)) = Ok st
    /\ isBodyRequired this = false /\ l_schemaError st = None.
Proof.
  eexists. eexists.
  match goal with
  | |- ?n = Ok ?t /\ ?c = Ok ?s /\ _ =>
      assert (Hnew : n = Ok t) by reflexivity;
      assert (Hc : c = Ok s) by reflexivity;
      split; [exact Hnew|]; split; [exact Hc|];
      refine (body_not_required_without_parameter Mini.engine 10
                Cases.optionalBodyParameter t
                [JObj [("in", JStr "body"); ("name", JStr "pet");
                       ("schema", JObj [("type", JStr "object")])];
                 JObj [("in", JStr "path"); ("name", JStr "id");
                       ("required", JBool true); ("type", JStr "integer")]]
                _ s Hnew eq_refl eq_refl _ Hc)
  end.
  intros param [<-|[<-|[]]]; discriminate.
Defined.
